(** * Universal API generator: probing engine and OpenAPI emitter

    A shallow embedding of [universal_api_generator.py] and
    [swagger_generator.py], with the properties of the engine's endpoint
    discovery, parameter profiling, schema inference, CRUD classification,
    summary statistics and of the emitter's conversions.

    Conventions of the embedding.
    - A Python [str] is a [string]; a character is read as the code point
      of the same number (0..255).  The character predicates below follow
      CPython on that range.
    - A Python value that reaches or leaves a JSON document is a [pyval].
      A [dict] is an association list in insertion order whose keys are
      kept distinct by [dict_set].
    - The remote service is a script of outcomes, one per request issued;
      a request made when the script is exhausted raises, like a
      connection error.  [time.sleep] and [print] have no counterpart. *)

From Stdlib Require Import ZArith NArith List String Ascii Bool Lia Permutation QArith.
From stdpp Require Import gmap strings.
Import ListNotations.

Set Warnings "-register-all".
Set Default Proof Using "Type".

#[local] Open Scope string_scope.
#[local] Open Scope list_scope.
#[local] Open Scope Z_scope.

(** ** Python strings *)

Module PyStr.

Definition code (c : ascii) : N := N_of_ascii c.

(** [c.isspace()] for a code point below 256. *)
Definition isspace (c : ascii) : bool :=
  let n := code c in
  (((9 <=? n) && (n <=? 13)) || ((28 <=? n) && (n <=? 32))
   || (n =? 133) || (n =? 160))%N.

(** The characters [str.isdigit] accepts below 256: the decimal digits and
    the superscripts one, two and three. *)
Definition isdigit_char (c : ascii) : bool :=
  let n := code c in
  (((48 <=? n) && (n <=? 57)) || (n =? 178) || (n =? 179) || (n =? 185))%N.

(** [c.lower()] for a code point below 256. *)
Definition lower_char (c : ascii) : ascii :=
  let n := code c in
  if (((65 <=? n) && (n <=? 90))
      || ((192 <=? n) && (n <=? 222) && negb (n =? 215)))%N
  then ascii_of_N (n + 32) else c.

Fixpoint lower (s : string) : string :=
  match s with
  | EmptyString => EmptyString
  | String c s' => String (lower_char c) (lower s')
  end.

Fixpoint all_chars (p : ascii -> bool) (s : string) : bool :=
  match s with
  | EmptyString => true
  | String c s' => p c && all_chars p s'
  end.

(** [s.isdigit()]: at least one character, and every character a digit. *)
Definition isdigit (s : string) : bool :=
  match s with
  | EmptyString => false
  | String _ _ => all_chars isdigit_char s
  end.

Fixpoint lstrip (s : string) : string :=
  match s with
  | EmptyString => EmptyString
  | String c s' => if isspace c then lstrip s' else s
  end.

Fixpoint rstrip (s : string) : string :=
  match s with
  | EmptyString => EmptyString
  | String c s' =>
      match rstrip s' with
      | EmptyString => if isspace c then EmptyString else String c EmptyString
      | r => String c r
      end
  end.

(** [s.strip()] *)
Definition strip (s : string) : string := rstrip (lstrip s).

(** [s.rstrip(c)] for a one-character [c] *)
Fixpoint rstrip_char (c : ascii) (s : string) : string :=
  match s with
  | EmptyString => EmptyString
  | String a s' =>
      match rstrip_char c s' with
      | EmptyString => if Ascii.eqb a c then EmptyString else String a EmptyString
      | r => String a r
      end
  end.

(** [s.lstrip(c)] and [s.strip(c)] for a one-character [c] *)
Fixpoint lstrip_char (c : ascii) (s : string) : string :=
  match s with
  | EmptyString => EmptyString
  | String a s' => if Ascii.eqb a c then lstrip_char c s' else s
  end.

Definition strip_char (c : ascii) (s : string) : string :=
  rstrip_char c (lstrip_char c s).

(** [s.replace(a, b)] for one-character [a] and [b] *)
Fixpoint replace_char (a b : ascii) (s : string) : string :=
  match s with
  | EmptyString => EmptyString
  | String c s' => String (if Ascii.eqb c a then b else c) (replace_char a b s')
  end.

(** [s.split(sep)] for a one-character [sep] *)
Fixpoint split_char (sep : ascii) (s : string) : list string :=
  match s with
  | EmptyString => [EmptyString]
  | String c s' =>
      if Ascii.eqb c sep then EmptyString :: split_char sep s'
      else match split_char sep s' with
           | [] => [String c EmptyString]
           | x :: xs => String c x :: xs
           end
  end.

(** [s.startswith(p)] *)
Definition startswith (p s : string) : bool := String.prefix p s.

(** [sub in s] *)
Fixpoint contains (sub s : string) : bool :=
  String.prefix sub s ||
  match s with
  | EmptyString => false
  | String _ s' => contains sub s'
  end.

(** [x in l] for a list of strings. *)
Definition mem (x : string) (l : list string) : bool :=
  existsb (String.eqb x) l.

(** [sep.join(l)] *)
Fixpoint join (sep : string) (l : list string) : string :=
  match l with
  | [] => EmptyString
  | [x] => x
  | x :: l' => x +:+ sep +:+ join sep l'
  end.

End PyStr.

(** ** Regular expressions

    The fragment of Python's [re] the engine's patterns are written in,
    matched the way [re] does: leftmost, greedy, backtracking.  [pos] is
    the number of characters before the current position. *)

Module Re.

Inductive regex : Type :=
| Class (p : ascii -> bool)            (* one character of a class *)
| Seq (r1 r2 : regex)
| Plus (p : ascii -> bool)             (* [class]+ *)
| Opt (r : regex)                      (* (?:r)? *)
| Group (n : nat) (r : regex)          (* capturing group number n *)
| Bol                                  (* ^ *)
| Eol                                  (* $ *)
| Eps.                                 (* the empty pattern *)

(** The text of the groups that took part in the match. *)
Definition captures : Type := list (nat * string).

Definition newline : ascii := ascii_of_N 10.

(** [$] without MULTILINE: at the end of the string, and just before a
    newline that is its last character. *)
Definition at_end (s : string) : bool :=
  match s with
  | EmptyString => true
  | String c EmptyString => Ascii.eqb c newline
  | _ => false
  end.

Fixpoint plus_class {R : Type} (p : ascii -> bool) (pos : nat) (s : string)
    (k : nat -> string -> option R) : option R :=
  match s with
  | EmptyString => None
  | String c s' =>
      if p c then
        match plus_class p (S pos) s' k with
        | Some r => Some r
        | None => k (S pos) s'
        end
      else None
  end.

Fixpoint rmatch (r : regex) (pos : nat) (s : string) (caps : captures)
    (k : nat -> string -> captures -> option captures) : option captures :=
  match r with
  | Class p =>
      match s with
      | String c s' => if p c then k (S pos) s' caps else None
      | EmptyString => None
      end
  | Seq r1 r2 =>
      rmatch r1 pos s caps (fun pos' s' caps' => rmatch r2 pos' s' caps' k)
  | Plus p => plus_class p pos s (fun pos' s' => k pos' s' caps)
  | Opt r1 =>
      match rmatch r1 pos s caps k with
      | Some c => Some c
      | None => k pos s caps
      end
  | Group n r1 =>
      rmatch r1 pos s caps
        (fun pos' s' caps' =>
           k pos' s' ((n, String.substring 0 (pos' - pos) s) :: caps'))
  | Bol => if Nat.eqb pos 0 then k pos s caps else None
  | Eol => if at_end s then k pos s caps else None
  | Eps => k pos s caps
  end.

Definition accept : nat -> string -> captures -> option captures :=
  fun _ _ caps => Some caps.

(** [re.match(r, s)] *)
Definition re_match (r : regex) (s : string) : option captures :=
  rmatch r 0 s [] accept.

Fixpoint search_from (r : regex) (pos : nat) (s : string) : option captures :=
  match rmatch r pos s [] accept with
  | Some c => Some c
  | None =>
      match s with
      | EmptyString => None
      | String _ s' => search_from r (S pos) s'
      end
  end.

(** [re.search(r, s)] *)
Definition re_search (r : regex) (s : string) : option captures :=
  search_from r 0 s.

(** [m.group(n)], [None] when the group took no part. *)
Fixpoint group (n : nat) (caps : captures) : option string :=
  match caps with
  | [] => None
  | (m, t) :: caps' => if Nat.eqb m n then Some t else group n caps'
  end.

Definition chr (c : ascii) : regex := Class (Ascii.eqb c).

(** [\d] on the code points below 256. *)
Definition digit (c : ascii) : bool :=
  let n := N_of_ascii c in ((48 <=? n) && (n <=? 57))%N.

Fixpoint times (n : nat) (r : regex) (rest : regex) : regex :=
  match n with
  | O => rest
  | S n' => Seq r (times n' r rest)
  end.

End Re.

(** ** Python values and dictionaries *)

Inductive pyval : Type :=
| PNone
| PBool (b : bool)
| PInt (z : Z)
| PFloat (q : Q)
| PStr (s : string)
| PList (l : list pyval)
| PDict (d : list (string * pyval)).

(** A [dict] with [str] keys, in insertion order. *)
Definition dict (V : Type) : Type := list (string * V).

(** [d.get(k)] *)
Fixpoint dict_get {V : Type} (k : string) (d : dict V) : option V :=
  match d with
  | [] => None
  | (k', v) :: d' => if String.eqb k' k then Some v else dict_get k d'
  end.

(** [d[k] = v]: an existing key keeps its place. *)
Fixpoint dict_set {V : Type} (k : string) (v : V) (d : dict V) : dict V :=
  match d with
  | [] => [(k, v)]
  | (k', v') :: d' =>
      if String.eqb k' k then (k', v) :: d' else (k', v') :: dict_set k v d'
  end.

Definition dict_keys {V : Type} (d : dict V) : list string := map fst d.
Definition dict_values {V : Type} (d : dict V) : list V := map snd d.

(** [d.get(k, default)] *)
Definition dict_get_default {V : Type} (k : string) (default : V) (d : dict V) : V :=
  match dict_get k d with
  | Some v => v
  | None => default
  end.

(** Truth value of a Python object ([bool(v)]). *)
Definition truthy (v : pyval) : bool :=
  match v with
  | PNone => false
  | PBool b => b
  | PInt z => negb (z =? 0)
  | PFloat q => negb (Qeq_bool q 0)
  | PStr s => negb (String.eqb s "")
  | PList l => match l with [] => false | _ => true end
  | PDict d => match d with [] => false | _ => true end
  end.

(** [type(v).__name__] *)
Definition type_name (v : pyval) : string :=
  match v with
  | PNone => "NoneType"
  | PBool _ => "bool"
  | PInt _ => "int"
  | PFloat _ => "float"
  | PStr _ => "str"
  | PList _ => "list"
  | PDict _ => "dict"
  end.

(** [list(set(l))]: the elements of [l], each once, in the order the set
    happens to iterate. *)
Definition list_set (l : list string) : list string :=
  elements (list_to_set l : gset string).

(** ** The remote service *)

Record response : Type := {
  status_code : Z;
  text : string;
  (** what [response.json()] returns; [None] when it raises *)
  json : option pyval
}.

Inductive outcome : Type :=
| Resp (r : response)
| Raise (e : string).     (* timeout, connection error, ...: [str(e)] *)

Record http_request : Type := {
  rq_method : string;
  rq_url : string;
  rq_params : list (string * string)
}.

Record world : Type := {
  pending : list outcome;        (* what the service will answer *)
  sent : list http_request       (* the requests issued so far *)
}.

Definition M (A : Type) : Type := world -> A * world.

Definition ret {A : Type} (a : A) : M A := fun w => (a, w).

Definition bind {A B : Type} (m : M A) (f : A -> M B) : M B :=
  fun w => let (a, w') := m w in f a w'.

Declare Scope engine_scope.
Delimit Scope engine_scope with engine.
Notation "x <- m ;; k" := (bind m (fun x => k))
  (at level 100, m at next level, right associativity) : engine_scope.
#[local] Open Scope engine_scope.

(** [for x in l: acc = body(acc, x)] *)
Fixpoint for_each {A S : Type} (l : list A) (acc : S) (body : S -> A -> M S) : M S :=
  match l with
  | [] => ret acc
  | x :: l' => acc' <- body acc x ;; for_each l' acc' body
  end.

Definition connection_error : string := "connection error".

(** [self.session.request(method, url, params=params, timeout=...)]:
    the response, or the text of the exception raised. *)
Definition session_request (method url : string) (params : list (string * string))
  : M (response + string) :=
  fun w =>
    let rq := {| rq_method := method; rq_url := url; rq_params := params |} in
    match pending w with
    | [] => (inr connection_error, {| pending := []; sent := sent w ++ [rq] |})
    | Resp r :: rest => (inl r, {| pending := rest; sent := sent w ++ [rq] |})
    | Raise e :: rest => (inr e, {| pending := rest; sent := sent w ++ [rq] |})
    end.

(** [self.session.get(url, timeout=...)] *)
Definition session_get (url : string) : M (response + string) :=
  session_request "GET" url [].

Definition run {A : Type} (m : M A) (script : list outcome) : A :=
  fst (m {| pending := script; sent := [] |}).

(** [_safe_json] *)
Definition _safe_json (r : response) : pyval :=
  match json r with
  | Some v => v
  | None => PStr (text r)
  end.

(** [_is_valid_endpoint] *)
Definition valid_status_codes : list Z :=
  [200; 201; 202; 204; 401; 403; 405; 422; 429].

Definition status_in (status : Z) (l : list Z) : bool := existsb (Z.eqb status) l.

Definition _is_valid_endpoint (r : response) : bool :=
  let status := status_code r in
  if status =? 200 then true else status_in status valid_status_codes.

(** ** The engine: [UniversalAPIGenerator] *)

(** One entry of [parameter_variations]: ['default'], ['test_values'] and
    ['error_value']. *)
Record param_info : Type := {
  p_default : string;
  p_test_values : list string;
  p_error_value : string
}.

(** The generator object: what [__init__] stores and the methods read. *)
Record generator : Type := {
  base_url : string;
  custom_endpoints : option (list string);
  endpoint_patterns : list string;
  parameter_variations : dict param_info
}.

(** [validation_info] of [_analyze_parameter_comprehensive]. *)
Record validation_info : Type := {
  accepted_values : list string;
  rejected_values : list string;
  validation_patterns : list string;
  required : bool;
  vi_type : string
}.

(** ['parameter_info'] of the profiler's result. *)
Record parameter_info : Type := {
  pi_type : string;
  pi_required : bool;
  pi_default : string;
  pi_accepted : bool
}.

Record param_analysis : Type := {
  pa_parameter_info : parameter_info;
  pa_validation_info : validation_info
}.

Definition new_validation_info : validation_info :=
  {| accepted_values := []; rejected_values := []; validation_patterns := [];
     required := false; vi_type := "string" |}.

Definition add_accepted (v : string) (vi : validation_info) : validation_info :=
  {| accepted_values := accepted_values vi ++ [v];
     rejected_values := rejected_values vi;
     validation_patterns := validation_patterns vi;
     required := required vi; vi_type := vi_type vi |}.

Definition add_rejected (v : string) (vi : validation_info) : validation_info :=
  {| accepted_values := accepted_values vi;
     rejected_values := rejected_values vi ++ [v];
     validation_patterns := validation_patterns vi;
     required := required vi; vi_type := vi_type vi |}.

Definition add_pattern (e : string) (vi : validation_info) : validation_info :=
  {| accepted_values := accepted_values vi;
     rejected_values := rejected_values vi;
     validation_patterns := validation_patterns vi ++ [e];
     required := required vi; vi_type := vi_type vi |}.

Definition set_required (b : bool) (vi : validation_info) : validation_info :=
  {| accepted_values := accepted_values vi;
     rejected_values := rejected_values vi;
     validation_patterns := validation_patterns vi;
     required := b; vi_type := vi_type vi |}.

Definition set_type (t : string) (vi : validation_info) : validation_info :=
  {| accepted_values := accepted_values vi;
     rejected_values := rejected_values vi;
     validation_patterns := validation_patterns vi;
     required := required vi; vi_type := t |}.

Definition nonempty {A : Type} (l : list A) : bool :=
  match l with [] => false | _ => true end.

(** *** [_infer_parameter_type] *)

Definition dash : ascii := "-"%char.

(** [^\d{4}-\d{2}-\d{2}$] *)
Definition date_pattern : Re.regex :=
  Re.Seq Re.Bol
    (Re.times 4 (Re.Class Re.digit)
       (Re.Seq (Re.chr dash)
          (Re.times 2 (Re.Class Re.digit)
             (Re.Seq (Re.chr dash)
                (Re.times 2 (Re.Class Re.digit) Re.Eol))))).

Definition is_digits (value : string) : bool := PyStr.isdigit value.

Definition is_boolean_word (value : string) : bool :=
  PyStr.mem (PyStr.lower value) ["true"; "false"].

Definition is_date (value : string) : bool :=
  match Re.re_match date_pattern value with Some _ => true | None => false end.

Definition _infer_parameter_type (accepted_values : list string) : string :=
  if negb (nonempty accepted_values) then "string"
  else if forallb is_digits accepted_values then "integer"
  else if forallb is_boolean_word accepted_values then "boolean"
  else if forallb is_date accepted_values then "date"
  else "string".

(** *** [_analyze_parameter_comprehensive] *)

(** The bucketing after the probe of the default value and of each test
    value. *)
Definition bucket_probe (status : Z) (value : string) (vi : validation_info)
  : validation_info :=
  if status_in status [200; 401; 403] then add_accepted value vi
  else if status =? 400 then add_rejected value vi
  else vi.

(** The requiredness decision on the two buckets. *)
Definition decide_required (vi : validation_info) : validation_info :=
  if nonempty (accepted_values vi) && negb (nonempty (rejected_values vi))
  then set_required false vi
  else if nonempty (rejected_values vi) && negb (nonempty (accepted_values vi))
  then set_required true vi
  else vi.

(** [__init__]: the generator a run starts from. *)
Definition default_endpoint_patterns : list string :=
  [ "/users"; "/posts"; "/products"; "/orders"; "/items"; "/customers";
    "/employees"; "/articles"; "/comments"; "/reviews"; "/ratings";
    "/categories"; "/tags"; "/files"; "/images"; "/documents";
    "/projects"; "/tasks"; "/events"; "/schedules"; "/bookings";
    "/payments"; "/invoices"; "/transactions"; "/accounts"; "/profiles";
    "/api/users"; "/api/v1/users"; "/api/v2/users"; "/v1/users"; "/v2/users";
    "/api/posts"; "/api/v1/posts"; "/api/v2/posts"; "/v1/posts";
    "/api/products"; "/api/v1/products"; "/api/v2/products";
    "/data/users"; "/data/posts"; "/resources/users"; "/resources/posts";
    "/services/users"; "/services/posts"; "/entities/users"; "/entities/posts";
    "/entities"; "/objects"; "/records"; "/items"; "/data"; "/resources";
    "/auth"; "/login"; "/logout"; "/register"; "/signup"; "/signin";
    "/password"; "/reset"; "/verify"; "/confirm"; "/activate";
    "/files"; "/uploads"; "/downloads"; "/media"; "/images"; "/videos";
    "/documents"; "/attachments"; "/assets"; "/static";
    "/search"; "/find"; "/query"; "/discover"; "/explore"; "/browse";
    "/analytics"; "/metrics"; "/stats"; "/reports"; "/dashboard";
    "/insights"; "/data"; "/statistics" ].

Definition init (url : string) (custom : option (list string)) : generator :=
  {| base_url := PyStr.rstrip_char "/"%char url;
     custom_endpoints := custom;
     endpoint_patterns := default_endpoint_patterns;
     parameter_variations := [] |}.

(** The patterns [_extract_endpoints_from_html] searches for, in order:
    a quoted path under /api/, a quoted path under /v<digits>/, a quoted
    path of two or more segments, and the word after GET, POST, PUT and
    DELETE. *)
Inductive html_pattern : Type :=
| QuotedApiPath | QuotedVersionPath | QuotedPath
| AfterGET | AfterPOST | AfterPUT | AfterDELETE.

Definition html_patterns : list html_pattern :=
  [QuotedApiPath; QuotedVersionPath; QuotedPath;
   AfterGET; AfterPOST; AfterPUT; AfterDELETE].

(** ** Sample services

    Concrete inputs for the examples that close this file.  No example
    prints a value that is not a string or reads a documentation page, so
    the two library functions are given trivial stand-ins. *)

Definition sample_repr : pyval -> string := fun _ => "<value>".

Definition answer (status : Z) (body : option pyval) : outcome :=
  Resp {| status_code := status; text := ""; json := body |}.

(** A page that is not JSON. *)
Definition html_page : response :=
  {| status_code := 200; text := "<html>hello</html>"; json := None |}.

(** A body with an object nested in an object. *)
Definition nested_body : pyval :=
  PDict [("user", PDict [("id", PInt 1)])].

Definition nested_response : response :=
  {| status_code := 200; text := ""; json := Some nested_body |}.

(** A catalog entry in the style of the commented-out catalog. *)
Definition page_info : param_info :=
  {| p_default := "1"; p_test_values := ["2"; "10"]; p_error_value := "abc" |}.

(** Stand-ins for [re.findall] and for the formatting of the rate. *)
Definition sample_findall : html_pattern -> string -> list string :=
  fun _ _ => [].

Definition sample_format : Q -> string := fun _ => "".

(** A generator with the catalog entry [page], and a service for it. *)
Definition page_generator : generator :=
  {| base_url := "http://api.test";
     custom_endpoints := Some ["/users"];
     endpoint_patterns := default_endpoint_patterns;
     parameter_variations := [("page", page_info)] |}.

Definition page_script : list outcome :=
  [ answer 200 None;                      (* confirmation of /users *)
    answer 200 None; answer 404 None;     (* GET and POST *)
    answer 200 None;                      (* GET without parameters *)
    answer 200 None; answer 200 None; answer 200 None;   (* page = 1, 2, 10 *)
    answer 400 None;                      (* page = abc *)
    answer 200 (Some (PList [PDict [("id", PInt 1)]])) ].

Section Engine.

(** [str(v)] for a value that is not itself a [str]. *)
Variable py_repr : pyval -> string.

Definition py_str (v : pyval) : string :=
  match v with
  | PStr s => s
  | _ => py_repr v
  end.

(** [_extract_validation_error] *)
Definition error_fields : list string := ["error"; "message"; "detail"; "description"].

Fixpoint first_error_field (error_data : dict pyval) (param_name : string)
    (fields : list string) : option string :=
  match fields with
  | [] => None
  | field :: rest =>
      match dict_get field error_data with
      | Some v =>
          let error_msg := py_str v in
          if PyStr.contains (PyStr.lower param_name) (PyStr.lower error_msg)
          then Some error_msg
          else first_error_field error_data param_name rest
      | None => first_error_field error_data param_name rest
      end
  end.

Definition _extract_validation_error (r : response) (param_name : string)
  : option string :=
  match _safe_json r with
  | PDict error_data => first_error_field error_data param_name error_fields
  | _ => None
  end.

(** The bucketing after the probe of the error value. *)
Definition bucket_error_probe (r : response) (param_name value : string)
    (vi : validation_info) : validation_info :=
  if status_code r =? 400 then
    let vi := add_rejected value vi in
    match _extract_validation_error r param_name with
    | Some error_info =>
        if negb (String.eqb error_info "") then add_pattern error_info vi else vi
    | None => vi
    end
  else vi.

Definition _analyze_parameter_comprehensive (url method param_name : string)
    (info : param_info) : M param_analysis :=
  let vi := new_validation_info in
  (* Test default value *)
  r <- session_request method url [(param_name, p_default info)] ;;
  let vi :=
    match r with
    | inl resp => bucket_probe (status_code resp) (p_default info) vi
    | inr _ => vi
    end in
  (* Test multiple values *)
  vi <- for_each (p_test_values info) vi
          (fun vi test_value =>
             r <- session_request method url [(param_name, test_value)] ;;
             ret match r with
                 | inl resp => bucket_probe (status_code resp) test_value vi
                 | inr _ => vi
                 end) ;;
  (* Test error value *)
  r <- session_request method url [(param_name, p_error_value info)] ;;
  let vi :=
    match r with
    | inl resp => bucket_error_probe resp param_name (p_error_value info) vi
    | inr _ => vi
    end in
  (* Determine if parameter is required *)
  let vi := decide_required vi in
  (* Infer parameter type *)
  let vi := set_type (_infer_parameter_type (accepted_values vi)) vi in
  ret {| pa_parameter_info :=
           {| pi_type := vi_type vi;
              pi_required := required vi;
              pi_default := p_default info;
              pi_accepted := nonempty (accepted_values vi) |};
         pa_validation_info := vi |}.

(** *** Response schema inference *)

Definition hex_lower (c : ascii) : bool :=
  let n := N_of_ascii c in
  (((97 <=? n) && (n <=? 102)) || ((48 <=? n) && (n <=? 57)))%N.

(** [^\d{4}-\d{2}-\d{2}] *)
Definition date_prefix_pattern : Re.regex :=
  Re.Seq Re.Bol
    (Re.times 4 (Re.Class Re.digit)
       (Re.Seq (Re.chr dash)
          (Re.times 2 (Re.Class Re.digit)
             (Re.Seq (Re.chr dash)
                (Re.times 2 (Re.Class Re.digit) Re.Eps))))).

(** [^[a-f0-9]{8}-[a-f0-9]{4}-[a-f0-9]{4}-[a-f0-9]{4}-[a-f0-9]{12}$] *)
Definition uuid_pattern : Re.regex :=
  let h := Re.Class hex_lower in
  Re.Seq Re.Bol
    (Re.times 8 h (Re.Seq (Re.chr dash)
    (Re.times 4 h (Re.Seq (Re.chr dash)
    (Re.times 4 h (Re.Seq (Re.chr dash)
    (Re.times 4 h (Re.Seq (Re.chr dash)
    (Re.times 12 h Re.Eol))))))))).

Definition matches (r : Re.regex) (s : string) : bool :=
  match Re.re_match r s with Some _ => true | None => false end.

(** [_infer_type_comprehensive] *)
Definition _infer_type_comprehensive (value : pyval) : string :=
  match value with
  | PBool _ => "boolean"
  | PInt _ => "integer"
  | PFloat _ => "number"
  | PStr s =>
      if matches date_prefix_pattern s then "date"
      else if matches uuid_pattern s then "uuid"
      else if PyStr.contains "@" s && PyStr.contains "." s then "email"
      else if PyStr.startswith "http" s then "url"
      else "string"
  | PList _ => "array"
  | PDict _ => "object"
  | PNone => "string"
  end.

(** [_infer_object_schema_comprehensive]; [None] when [obj.items()] raises
    because [obj] is not a dict. *)
Definition _infer_object_schema_comprehensive (obj : pyval) : option pyval :=
  match obj with
  | PDict d =>
      let properties :=
        fold_left
          (fun props kv =>
             dict_set (fst kv)
               (PDict [("type", PStr (_infer_type_comprehensive (snd kv)));
                       ("example", snd kv)])
               props)
          d [] in
      Some (PDict [("type", PStr "object");
                   ("properties", PDict properties);
                   ("required", PList []);
                   ("example", obj)])
  | _ => None
  end.

Definition unknown_schema : pyval := PDict [("type", PStr "unknown")].

(** [_analyze_response_schema_comprehensive] *)
Definition _analyze_response_schema_comprehensive (r : response) : pyval :=
  let data := _safe_json r in
  match data with
  | PDict _ =>
      match _infer_object_schema_comprehensive data with
      | Some schema => schema
      | None => unknown_schema
      end
  | PList (first :: rest) =>
      match _infer_object_schema_comprehensive first with
      | Some items =>
          PDict [("type", PStr "array");
                 ("items", items);
                 ("count", PInt (Z.of_nat (length (first :: rest))))]
      | None => unknown_schema
      end
  | _ => PDict [("type", PStr (type_name data))]
  end.

(** *** [_identify_crud_operations] *)

Record crud : Type := {
  crud_create : bool;
  crud_read : bool;
  crud_update : bool;
  crud_delete : bool
}.

Definition slash : ascii := "/"%char.
Definition not_slash (c : ascii) : bool := negb (Ascii.eqb c slash).

(** [/([^/]+)(?:/([^/]+))?$] *)
Definition resource_pattern : Re.regex :=
  Re.Seq (Re.chr slash)
    (Re.Seq (Re.Group 1 (Re.Plus not_slash))
       (Re.Seq (Re.Opt (Re.Seq (Re.chr slash) (Re.Group 2 (Re.Plus not_slash))))
          Re.Eol)).

Definition _identify_crud_operations (endpoint : string) : crud :=
  let endpoint_lower := PyStr.lower endpoint in
  match Re.re_search resource_pattern endpoint with
  | None =>
      {| crud_create := false; crud_read := false;
         crud_update := false; crud_delete := false |}
  | Some resource_match =>
      let has_id :=
        match Re.group 2 resource_match with Some _ => true | None => false end in
      if PyStr.contains "auth" endpoint_lower || PyStr.contains "login" endpoint_lower
      then {| crud_create := true; crud_read := false;
              crud_update := false; crud_delete := false |}
      else if PyStr.contains "search" endpoint_lower
              || PyStr.contains "find" endpoint_lower
      then {| crud_create := false; crud_read := true;
              crud_update := false; crud_delete := false |}
      else {| crud_create := negb has_id; crud_read := true;
              crud_update := has_id; crud_delete := has_id |}
  end.

(** *** Endpoint discovery *)

Variable g : generator.

(** [_parse_openapi_spec]; [None] when it raises: ['paths' in spec] on a
    value with no membership test, [spec['paths']] on a list or a string,
    [.items()] on a value that is not a dict. *)
Definition is_paths (v : pyval) : bool :=
  match v with PStr s => String.eqb s "paths" | _ => false end.

Definition _parse_openapi_spec (spec : pyval) : option (list string) :=
  match spec with
  | PDict d =>
      match dict_get "paths" d with
      | Some (PDict paths) =>
          Some (filter (PyStr.startswith "/") (dict_keys paths))
      | Some _ => None
      | None => Some []
      end
  | PList l => if existsb is_paths l then None else Some []
  | PStr s => if PyStr.contains "paths" s then None else Some []
  | _ => None
  end.

Definition openapi_urls : list string :=
  ["/openapi.json"; "/swagger.json"; "/api-docs";
   "/swagger/v1/swagger.json"; "/v1/swagger.json";
   "/api-docs/v2/swagger.json"; "/api/v1/swagger.json";
   "/docs/swagger.json"; "/api/docs/swagger.json"].

(** The loop of [_discover_with_openapi]: the first specification that
    parses ends it. *)
Fixpoint discover_with_openapi_from (urls : list string) : M (list string) :=
  match urls with
  | [] => ret []
  | openapi_path :: rest =>
      r <- session_get (base_url g +:+ openapi_path) ;;
      match r with
      | inl resp =>
          if status_code resp =? 200 then
            match json resp with
            | Some spec =>
                match _parse_openapi_spec spec with
                | Some endpoints => ret endpoints
                | None => discover_with_openapi_from rest
                end
            | None => discover_with_openapi_from rest
            end
          else discover_with_openapi_from rest
      | inr _ => discover_with_openapi_from rest
      end
  end.

Definition _discover_with_openapi : M (list string) :=
  discover_with_openapi_from openapi_urls.

(** [re.findall(pattern, html_content, re.IGNORECASE)] *)
Variable re_findall : html_pattern -> string -> list string.

Definition _extract_endpoints_from_html (html_content : string) : list string :=
  list_set (flat_map (fun pattern => re_findall pattern html_content) html_patterns).

Definition doc_urls : list string :=
  ["/docs"; "/documentation"; "/api-docs"; "/api/documentation";
   "/help"; "/api/help"; "/reference"; "/api/reference"].

Definition _discover_from_documentation : M (list string) :=
  for_each doc_urls []
    (fun discovered doc_url =>
       r <- session_get (base_url g +:+ doc_url) ;;
       ret match r with
           | inl resp =>
               if status_code resp =? 200 then
                 let endpoints := _extract_endpoints_from_html (text resp) in
                 if nonempty endpoints then discovered ++ endpoints else discovered
               else discovered
           | inr _ => discovered
           end).

(** The confirmation GET of one candidate path. *)
Definition confirm (discovered_endpoints : list string) (endpoint : string)
  : M (list string) :=
  r <- session_get (base_url g +:+ endpoint) ;;
  ret match r with
      | inl resp =>
          if _is_valid_endpoint resp then discovered_endpoints ++ [endpoint]
          else discovered_endpoints
      | inr _ => discovered_endpoints
      end.

(** The normalisation of a caller-supplied endpoint. *)
Definition normalize (endpoint : string) : string :=
  let endpoint := PyStr.strip endpoint in
  if negb (PyStr.startswith "/" endpoint) then "/" +:+ endpoint else endpoint.

Definition is_custom : bool :=
  match custom_endpoints g with
  | Some l => nonempty l
  | None => false
  end.

Definition discover_endpoints : M (list string) :=
  match custom_endpoints g with
  | Some (e :: es) =>
      (* custom endpoints are used directly *)
      for_each (e :: es) []
        (fun discovered endpoint => confirm discovered (normalize endpoint))
  | _ =>
      discovered <- for_each (endpoint_patterns g) [] confirm ;;
      openapi_endpoints <- _discover_with_openapi ;;
      let discovered := discovered ++ openapi_endpoints in
      doc_endpoints <- _discover_from_documentation ;;
      let discovered := discovered ++ doc_endpoints in
      ret (list_set discovered)
  end.

(** *** Endpoint analysis *)

(** [_discover_methods] *)
Definition test_methods : list string := ["GET"; "POST"].

Definition _discover_methods (endpoint : string) : M (list string) :=
  let url := (base_url g +:+ endpoint) in
  methods <- for_each test_methods []
               (fun methods method =>
                  r <- session_request method url [] ;;
                  ret match r with
                      | inl resp =>
                          if _is_valid_endpoint resp then methods ++ [method]
                          else methods
                      | inr _ => methods
                      end) ;;
  (* Always include GET if no methods were found *)
  ret (if negb (nonempty methods) then ["GET"] else methods).

(** The result of [_analyze_method_comprehensive]. *)
Record method_analysis : Type := {
  ma_parameters : dict parameter_info;
  ma_response_schema : pyval;
  ma_error_responses : dict pyval;
  ma_parameter_validation : dict validation_info
}.

Definition _analyze_method_comprehensive (endpoint method : string)
  : M method_analysis :=
  let url := (base_url g +:+ endpoint) in
  (* Test with no parameters *)
  r <- session_request method url [] ;;
  let error_responses :=
    dict_set "no_params"
      match r with
      | inl resp => PDict [("status_code", PInt (status_code resp));
                           ("body", _safe_json resp)]
      | inr e => PDict [("error", PStr e)]
      end [] in
  (* Test comprehensive parameter variations *)
  pv <- for_each (parameter_variations g) ([], [])
          (fun acc entry =>
             param_analysis <-
               _analyze_parameter_comprehensive url method (fst entry) (snd entry) ;;
             ret (dict_set (fst entry) (pa_parameter_info param_analysis) (fst acc),
                  dict_set (fst entry) (pa_validation_info param_analysis) (snd acc))) ;;
  (* Analyze successful response schema *)
  schema <-
    (if String.eqb method "GET" then
       r <- session_get url ;;
       ret match r with
           | inl resp =>
               if status_code resp =? 200
               then _analyze_response_schema_comprehensive resp
               else PDict []
           | inr _ => PDict []
           end
     else ret (PDict [])) ;;
  ret {| ma_parameters := fst pv;
         ma_response_schema := schema;
         ma_error_responses := error_responses;
         ma_parameter_validation := snd pv |}.

(** The result of [analyze_endpoint]. *)
Record endpoint_analysis : Type := {
  ea_endpoint : string;
  ea_methods : list string;
  ea_parameters : dict (dict parameter_info);
  ea_response_schema : dict pyval;
  ea_error_responses : dict (dict pyval);
  ea_crud_operations : crud;
  ea_parameter_validation : dict (dict validation_info);
  ea_status : string
}.

Definition store_method (method : string) (m : method_analysis)
    (a : endpoint_analysis) : endpoint_analysis :=
  {| ea_endpoint := ea_endpoint a;
     ea_methods := ea_methods a;
     ea_parameters := dict_set method (ma_parameters m) (ea_parameters a);
     ea_response_schema := dict_set method (ma_response_schema m) (ea_response_schema a);
     ea_error_responses := dict_set method (ma_error_responses m) (ea_error_responses a);
     ea_crud_operations := ea_crud_operations a;
     ea_parameter_validation :=
       dict_set method (ma_parameter_validation m) (ea_parameter_validation a);
     ea_status := ea_status a |}.

Definition analyze_endpoint (endpoint : string) : M endpoint_analysis :=
  methods <- _discover_methods endpoint ;;
  let analysis :=
    {| ea_endpoint := endpoint;
       ea_methods := methods;
       ea_parameters := [];
       ea_response_schema := [];
       ea_error_responses := [];
       ea_crud_operations := _identify_crud_operations endpoint;
       ea_parameter_validation := [];
       ea_status := "success" |} in
  (* Analyze each method *)
  for_each methods analysis
    (fun analysis method =>
       method_analysis <- _analyze_method_comprehensive endpoint method ;;
       ret (store_method method method_analysis analysis)).

(** *** The analysis document *)

Record crud_counts : Type := {
  n_create : nat;
  n_read : nat;
  n_update : nat;
  n_delete : nat
}.

Record summary : Type := {
  total_endpoints : nat;
  successful_analyses : nat;
  crud_operations : crud_counts;
  total_parameters : nat;
  parameter_types : dict nat;
  summary_validation_patterns : list string;
  (** the percentage that ['discovery_rate'] prints with one decimal *)
  discovery_rate : Q
}.

Definition count_crud (c : crud) (n : crud_counts) : crud_counts :=
  {| n_create := if crud_create c then S (n_create n) else n_create n;
     n_read := if crud_read c then S (n_read n) else n_read n;
     n_update := if crud_update c then S (n_update n) else n_update n;
     n_delete := if crud_delete c then S (n_delete n) else n_delete n |}.

Definition count_type (param_types : dict nat) (info : parameter_info) : dict nat :=
  dict_set (pi_type info) (S (dict_get_default (pi_type info) O param_types)) param_types.

Definition percent (n d : nat) : Q :=
  (inject_Z (Z.of_nat n) / inject_Z (Z.of_nat d)) * inject_Z 100.

(** The discovery rate of [_generate_comprehensive_summary]. *)
Definition summary_discovery_rate (endpoints : list string) : Q :=
  if nonempty (endpoint_patterns g) && (0 <? length (endpoint_patterns g))%nat
  then percent (length endpoints) (length (endpoint_patterns g))
  else inject_Z 0.

Definition _generate_comprehensive_summary (endpoints : list string)
    (analyses : dict endpoint_analysis) : summary :=
  let all := dict_values analyses in
  let method_params := flat_map (fun a => dict_values (ea_parameters a)) all in
  let method_validation := flat_map (fun a => dict_values (ea_parameter_validation a)) all in
  {| total_endpoints := length endpoints;
     successful_analyses :=
       length (filter (fun a => String.eqb (ea_status a) "success") all);
     crud_operations :=
       fold_left (fun n a => count_crud (ea_crud_operations a) n) all
         {| n_create := O; n_read := O; n_update := O; n_delete := O |};
     total_parameters :=
       fold_left (fun n params => (n + length params)%nat) method_params O;
     parameter_types :=
       fold_left count_type (flat_map dict_values method_params) [];
     summary_validation_patterns :=
       list_set (flat_map validation_patterns (flat_map dict_values method_validation));
     discovery_rate := summary_discovery_rate endpoints |}.

Record metadata : Type := {
  md_generator : string;
  md_version : string;
  md_generated_at : string;
  md_base_url : string;
  md_custom_endpoints : bool;
  total_patterns_tested : nat;
  total_parameters_tested : nat
}.

Inductive analysis_result : Type :=
| NoEndpoints (message : string) (url : string)
| Analysis (md : metadata) (sm : summary)
    (endpoints : dict endpoint_analysis) (variations : dict param_info).

(** [generate_analysis]; [now] is what [time.strftime] returns. *)
Definition generate_analysis (now : string) : M analysis_result :=
  endpoints <- discover_endpoints ;;
  if negb (nonempty endpoints) then
    ret (NoEndpoints "No endpoints discovered" (base_url g))
  else
    endpoint_analyses <-
      for_each endpoints []
        (fun analyses endpoint =>
           analysis <- analyze_endpoint endpoint ;;
           ret (dict_set endpoint analysis analyses)) ;;
    let sm := _generate_comprehensive_summary endpoints endpoint_analyses in
    ret (Analysis
           {| md_generator := "UniversalAPIGenerator";
              md_version := "1.0.0";
              md_generated_at := now;
              md_base_url := base_url g;
              md_custom_endpoints :=
                match custom_endpoints g with Some _ => true | None => false end;
              total_patterns_tested :=
                if negb is_custom then length (endpoint_patterns g) else O;
              total_parameters_tested := length (parameter_variations g) |}
           sm endpoint_analyses (parameter_variations g)).

(** ** The emitter: [SwaggerGenerator]

    The emitter reads a JSON document, so its methods take [pyval]s; they
    return [None] where the Python code raises ([.get] or [.items] on a
    value that is not a dict, an unhashable dictionary key, [len] of a
    number). *)

Definition obind {A B : Type} (m : option A) (f : A -> option B) : option B :=
  match m with
  | Some a => f a
  | None => None
  end.

Notation "x <-- m ;; k" := (obind m (fun x => k))
  (at level 100, m at next level, right associativity).

(** [v.get(k, default)] *)
Definition py_get (k : string) (default : pyval) (v : pyval) : option pyval :=
  match v with
  | PDict d => Some (dict_get_default k default d)
  | _ => None
  end.

(** [v == s] for a string literal [s] *)
Definition is_str (s : string) (v : pyval) : bool :=
  match v with
  | PStr t => String.eqb t s
  | _ => false
  end.

(** [len(v)] *)
Definition py_len (v : pyval) : option nat :=
  match v with
  | PList l => Some (length l)
  | PDict d => Some (length d)
  | PStr s => Some (String.length s)
  | _ => None
  end.

(** [_convert_parameter_type] *)
Definition type_mapping : dict string :=
  [("string", "string"); ("integer", "integer"); ("number", "number");
   ("boolean", "boolean"); ("date", "string"); ("email", "string");
   ("url", "string"); ("uuid", "string")].

Definition _convert_parameter_type (param_type : pyval) : option string :=
  match param_type with
  | PStr s => Some (dict_get_default s "string" type_mapping)
  | PList _ | PDict _ => None
  | _ => Some "string"
  end.

(** [_create_parameter_schema] *)
Definition _create_parameter_schema (param_info : pyval) : option pyval :=
  match param_info with
  | PDict info =>
      param_type <-- _convert_parameter_type
                       (dict_get_default "type" (PStr "string") info) ;;
      let name := dict_get_default "name" (PStr "parameter") info in
      let schema :=
        [("type", PStr param_type);
         ("description", PStr (py_str name +:+ " parameter"))] in
      let declared := dict_get_default "type" PNone info in
      let schema :=
        if String.eqb param_type "string" then
          if is_str "date" declared then dict_set "format" (PStr "date") schema
          else if is_str "email" declared then dict_set "format" (PStr "email") schema
          else if is_str "url" declared then dict_set "format" (PStr "uri") schema
          else if is_str "uuid" declared then dict_set "format" (PStr "uuid") schema
          else schema
        else schema in
      let schema :=
        match dict_get "default" info with
        | Some v => dict_set "default" v schema
        | None => schema
        end in
      let schema :=
        match dict_get "example" info with
        | Some v => dict_set "example" v schema
        | None => schema
        end in
      Some (PDict schema)
  | _ => None
  end.

(** [_create_response_schema] *)
Definition default_object : pyval :=
  PDict [("type", PStr "object"); ("properties", PDict [])].

Definition convert_property (prop_name : string) (prop_info : pyval) : option pyval :=
  match prop_info with
  | PDict info =>
      t <-- _convert_parameter_type (dict_get_default "type" (PStr "string") info) ;;
      let entry := [("type", PStr t);
                    ("description", PStr (prop_name +:+ " field"))] in
      let declared := dict_get_default "type" PNone info in
      Some (PDict
              (if is_str "date" declared then dict_set "format" (PStr "date") entry
               else if is_str "email" declared then dict_set "format" (PStr "email") entry
               else if is_str "url" declared then dict_set "format" (PStr "uri") entry
               else entry))
  | _ => None
  end.

Fixpoint convert_properties (props : dict pyval) (properties : dict pyval)
  : option (dict pyval) :=
  match props with
  | [] => Some properties
  | (prop_name, prop_info) :: rest =>
      entry <-- convert_property prop_name prop_info ;;
      convert_properties rest (dict_set prop_name entry properties)
  end.

Fixpoint _create_response_schema (response_schema : pyval) : option pyval :=
  if negb (truthy response_schema) then Some default_object
  else
    match response_schema with
    | PDict d =>
        let declared := dict_get_default "type" PNone d in
        if is_str "array" declared then
          (* response_schema.get('items', {}), converted *)
          items <-- (fix items_of (l : list (string * pyval)) : option pyval :=
                       match l with
                       | [] => Some default_object
                       | (k, v) :: l' =>
                           if String.eqb k "items" then _create_response_schema v
                           else items_of l'
                       end) d ;;
          Some (PDict [("type", PStr "array"); ("items", items)])
        else if is_str "object" declared then
          match dict_get_default "properties" (PDict []) d with
          | PDict props =>
              properties <-- convert_properties props [] ;;
              Some (PDict [("type", PStr "object");
                           ("properties", PDict properties)])
          | _ => None
          end
        else Some default_object
    | _ => None
    end.

(** [_create_operation] *)
Definition generic_error_schema : pyval :=
  PDict [("type", PStr "object");
         ("properties",
          PDict [("error", PDict [("type", PStr "string")]);
                 ("message", PDict [("type", PStr "string")])])].

Definition json_content (schema : pyval) : pyval :=
  PDict [("application/json", PDict [("schema", schema)])].

Definition operation_id (method_lower endpoint : string) : string :=
  method_lower +:+ "_" +:+
  PyStr.strip_char "_"%char
    (PyStr.replace_char "-"%char "_"%char
       (PyStr.replace_char "/"%char "_"%char endpoint)).

(** [endpoint.split('/')[1] if len(endpoint.split('/')) > 1 else 'default'] *)
Definition tag_of (endpoint : string) : string :=
  match PyStr.split_char "/"%char endpoint with
  | _ :: second :: _ => second
  | _ => "default"
  end.

(** [', '.join(l)]: every item has to be a string. *)
Fixpoint strings_of (l : list pyval) : option (list string) :=
  match l with
  | [] => Some []
  | PStr s :: l' => rest <-- strings_of l' ;; Some (s :: rest)
  | _ :: _ => None
  end.

(** The characters of a string, as Python iterates over it. *)
Fixpoint chars_of (s : string) : list string :=
  match s with
  | EmptyString => []
  | String c s' => String c EmptyString :: chars_of s'
  end.

(** The description that lists the first accepted values:
    [accepted_values[:3]] joined, on a list or on a string. *)
Definition accepted_description (param_name : string) (accepted : pyval)
  : option string :=
  match accepted with
  | PList l =>
      first <-- strings_of (firstn 3 l) ;;
      Some (param_name +:+ " parameter. Accepted values: "
            +:+ PyStr.join ", " first
            +:+ (if (3 <? length l)%nat then "..." else ""))
  | PStr s =>
      Some (param_name +:+ " parameter. Accepted values: "
            +:+ PyStr.join ", " (firstn 3 (chars_of s))
            +:+ (if (3 <? String.length s)%nat then "..." else ""))
  | _ => None
  end.

(** One turn of the loop over [method_params.items()]: the parameter
    object to append, if the parameter is included. *)
Definition create_parameter (parameter_validation : pyval)
    (param_name : string) (param_info : pyval) : option (option pyval) :=
  (* Check if this parameter is actually accepted by this endpoint *)
  is_accepted <-- py_get "accepted" (PBool false) param_info ;;
  (* Also check parameter validation to see if it has accepted values *)
  validation_info <-- py_get param_name (PDict []) parameter_validation ;;
  accepted <-- py_get "accepted_values" (PList []) validation_info ;;
  n <-- py_len accepted ;;
  let has_accepted_values := (0 <? n)%nat in
  if truthy is_accepted || has_accepted_values then
    required <-- py_get "required" (PBool false) param_info ;;
    schema <-- _create_parameter_schema param_info ;;
    listed <-- py_get "accepted_values" PNone validation_info ;;
    schema <--
      (if truthy listed then
         description <-- accepted_description param_name listed ;;
         match schema with
         | PDict sd => Some (PDict (dict_set "description" (PStr description) sd))
         | _ => None
         end
       else Some schema) ;;
    Some (Some (PDict [("name", PStr param_name);
                       ("in", PStr "query");
                       ("required", required);
                       ("schema", schema)]))
  else Some None.

Fixpoint create_parameters (parameter_validation : pyval)
    (method_params : dict pyval) (parameters : list pyval) : option (list pyval) :=
  match method_params with
  | [] => Some parameters
  | (param_name, param_info) :: rest =>
      p <-- create_parameter parameter_validation param_name param_info ;;
      create_parameters parameter_validation rest
        match p with
        | Some param_obj => parameters ++ [param_obj]
        | None => parameters
        end
  end.

Definition request_body (method endpoint : string) : pyval :=
  PDict [("description", PStr ("Data for " +:+ method +:+ " " +:+ endpoint));
         ("required", PBool true);
         ("content",
          json_content
            (PDict [("type", PStr "object");
                    ("properties",
                     PDict [("data",
                             PDict [("type", PStr "object");
                                    ("description", PStr "Request data")])])]))].

Definition _create_operation (endpoint method : string) (endpoint_data : pyval)
  : option pyval :=
  let method_lower := PyStr.lower method in
  by_method <-- py_get "parameters" (PDict []) endpoint_data ;;
  method_params <-- py_get method (PDict []) by_method ;;
  by_method <-- py_get "response_schema" (PDict []) endpoint_data ;;
  response_schema <-- py_get method (PDict []) by_method ;;
  by_method <-- py_get "parameter_validation" (PDict []) endpoint_data ;;
  parameter_validation <-- py_get method (PDict []) by_method ;;
  schema <-- _create_response_schema response_schema ;;
  let operation :=
    [("summary", PStr (method +:+ " " +:+ endpoint));
     ("description", PStr ("Endpoint for " +:+ endpoint));
     ("operationId", PStr (operation_id method_lower endpoint));
     ("tags", PList [PStr (tag_of endpoint)]);
     ("responses",
      PDict [("200", PDict [("description", PStr "Successful response");
                            ("content", json_content schema)]);
             ("400", PDict [("description", PStr "Bad request");
                            ("content", json_content generic_error_schema)]);
             ("404", PDict [("description", PStr "Not found");
                            ("content", json_content generic_error_schema)])])] in
  (* Add parameters only if they are actually accepted by this endpoint *)
  operation <--
    (if truthy method_params then
       match method_params with
       | PDict params =>
           parameters <-- create_parameters parameter_validation params [] ;;
           Some (dict_set "parameters" (PList parameters) operation)
       | _ => None
       end
     else Some operation) ;;
  (* Add request body for POST/PUT/PATCH *)
  let operation :=
    if PyStr.mem method ["POST"; "PUT"; "PATCH"]
    then dict_set "requestBody" (request_body method endpoint) operation
    else operation in
  Some (PDict operation).

(** [generate_swagger_spec] *)
Fixpoint create_path (endpoint : string) (endpoint_data : pyval)
    (methods : list string) (path_obj : dict pyval) : option (dict pyval) :=
  match methods with
  | [] => Some path_obj
  | method :: rest =>
      operation <-- _create_operation endpoint method endpoint_data ;;
      create_path endpoint endpoint_data rest
        (dict_set (PyStr.lower method) operation path_obj)
  end.

Definition tag_names (tags : list pyval) : list string :=
  flat_map (fun tag =>
              match tag with
              | PDict t => match dict_get "name" t with
                           | Some (PStr n) => [n]
                           | _ => []
                           end
              | _ => []
              end) tags.

Definition add_tag (tag_name : string) (tags : list pyval) : list pyval :=
  if PyStr.mem tag_name (tag_names tags) then tags
  else tags ++ [PDict [("name", PStr tag_name);
                       ("description", PStr ("Operations for " +:+ tag_name))]].

(** [for method in methods]: the items of a list, which have to be
    strings for [method.lower()], the keys of a dict, the characters of a
    string; anything else cannot be iterated. *)
Definition iterate (methods : pyval) : option (list string) :=
  match methods with
  | PList ms => strings_of ms
  | PDict d => Some (dict_keys d)
  | PStr s => Some (chars_of s)
  | _ => None
  end.

(** The loop over [endpoints.items()]: the paths and the tags so far. *)
Fixpoint create_paths (endpoints : dict pyval) (paths : dict pyval)
    (tags : list pyval) : option (dict pyval * list pyval) :=
  match endpoints with
  | [] => Some (paths, tags)
  | (endpoint, endpoint_data) :: rest =>
      status <-- py_get "status" PNone endpoint_data ;;
      if negb (is_str "success" status) then create_paths rest paths tags
      else
        methods <-- py_get "methods" (PList []) endpoint_data ;;
        names <-- iterate methods ;;
        path_obj <-- create_path endpoint endpoint_data names [] ;;
        create_paths rest (dict_set endpoint (PDict path_obj) paths)
          (add_tag (tag_of endpoint) tags)
  end.

Definition generate_swagger_spec (analysis : pyval) : option pyval :=
  if negb (truthy analysis) then Some (PDict [])
  else
    metadata <-- py_get "metadata" (PDict []) analysis ;;
    endpoints <-- py_get "endpoints" (PDict []) analysis ;;
    generator_name <-- py_get "generator" (PStr "API") metadata ;;
    generator_long <-- py_get "generator" (PStr "Universal API Generator") metadata ;;
    version <-- py_get "version" (PStr "1.0.0") metadata ;;
    url <-- py_get "base_url" (PStr "https://api.example.com") metadata ;;
    match endpoints with
    | PDict eps =>
        pt <-- create_paths eps [] [] ;;
        Some (PDict
                [("openapi", PStr "3.0.0");
                 ("info",
                  PDict [("title", PStr (py_str generator_name +:+ " Documentation"));
                         ("description",
                          PStr ("API documentation generated by "
                                +:+ py_str generator_long));
                         ("version", version)]);
                 ("servers",
                  PList [PDict [("url", url);
                                ("description", PStr "Production server")]]);
                 ("paths", PDict (fst pt));
                 ("components",
                  PDict [("schemas", PDict []); ("parameters", PDict []);
                         ("responses", PDict [])]);
                 ("tags", PList (snd pt))])
    | _ => None
    end.

(** ** The analysis document as [save_analysis] writes it

    [json.dump] of the engine's dictionaries; reading the file back gives
    the same value. *)

(** [f"{rate:.1f}%"] of the discovery rate. *)
Variable format_rate : Q -> string.

Definition dump_strings (l : list string) : pyval := PList (map PStr l).

Definition dump_dict {V : Type} (f : V -> pyval) (d : dict V) : pyval :=
  PDict (map (fun kv => (fst kv, f (snd kv))) d).

Definition dump_nat (n : nat) : pyval := PInt (Z.of_nat n).

Definition dump_parameter_info (p : parameter_info) : pyval :=
  PDict [("type", PStr (pi_type p));
         ("required", PBool (pi_required p));
         ("default", PStr (pi_default p));
         ("accepted", PBool (pi_accepted p))].

Definition dump_validation_info (v : validation_info) : pyval :=
  PDict [("accepted_values", dump_strings (accepted_values v));
         ("rejected_values", dump_strings (rejected_values v));
         ("validation_patterns", dump_strings (validation_patterns v));
         ("required", PBool (required v));
         ("type", PStr (vi_type v))].

Definition dump_crud (c : crud) : pyval :=
  PDict [("create", PBool (crud_create c));
         ("read", PBool (crud_read c));
         ("update", PBool (crud_update c));
         ("delete", PBool (crud_delete c))].

Definition dump_endpoint_analysis (a : endpoint_analysis) : pyval :=
  PDict [("endpoint", PStr (ea_endpoint a));
         ("methods", dump_strings (ea_methods a));
         ("parameters", dump_dict (dump_dict dump_parameter_info) (ea_parameters a));
         ("response_schema", dump_dict (fun schema => schema) (ea_response_schema a));
         ("error_responses", dump_dict PDict (ea_error_responses a));
         ("crud_operations", dump_crud (ea_crud_operations a));
         ("parameter_validation",
          dump_dict (dump_dict dump_validation_info) (ea_parameter_validation a));
         ("status", PStr (ea_status a))].

Definition dump_param_info (p : param_info) : pyval :=
  PDict [("default", PStr (p_default p));
         ("test_values", dump_strings (p_test_values p));
         ("error_value", PStr (p_error_value p))].

Definition dump_metadata (m : metadata) : pyval :=
  PDict [("generator", PStr (md_generator m));
         ("version", PStr (md_version m));
         ("generated_at", PStr (md_generated_at m));
         ("base_url", PStr (md_base_url m));
         ("custom_endpoints", PBool (md_custom_endpoints m));
         ("total_patterns_tested", dump_nat (total_patterns_tested m));
         ("total_parameters_tested", dump_nat (total_parameters_tested m))].

Definition dump_summary (s : summary) : pyval :=
  PDict [("total_endpoints", dump_nat (total_endpoints s));
         ("successful_analyses", dump_nat (successful_analyses s));
         ("crud_operations",
          PDict [("create", dump_nat (n_create (crud_operations s)));
                 ("read", dump_nat (n_read (crud_operations s)));
                 ("update", dump_nat (n_update (crud_operations s)));
                 ("delete", dump_nat (n_delete (crud_operations s)))]);
         ("total_parameters", dump_nat (total_parameters s));
         ("parameter_types", dump_dict dump_nat (parameter_types s));
         ("validation_patterns", dump_strings (summary_validation_patterns s));
         ("discovery_rate", PStr (format_rate (discovery_rate s)))].

Definition dump_analysis (r : analysis_result) : pyval :=
  match r with
  | NoEndpoints message url =>
      PDict [("status", PStr "error"); ("message", PStr message);
             ("base_url", PStr url)]
  | Analysis md sm endpoints variations =>
      PDict [("metadata", dump_metadata md);
             ("summary", dump_summary sm);
             ("endpoints", dump_dict dump_endpoint_analysis endpoints);
             ("parameter_variations", dump_dict dump_param_info variations)]
  end.

(** ** The rest of the engine's helpers, and its callers *)

(** [_get_endpoint_validation_reason]: the text printed beside a probe. *)
Definition _get_endpoint_validation_reason (r : response) : string :=
  let status := status_code r in
  if status =? 200 then "Endpoint exists and is accessible"
  else if status =? 404 then "Endpoint does not exist"
  else if status =? 401 then "Endpoint exists but requires authentication"
  else if status =? 403 then "Endpoint exists but access is forbidden"
  else if status =? 405 then "Endpoint exists but HTTP method not allowed"
  else if status =? 422
  then "Endpoint exists but request was malformed (e.g., too much data)"
  else if status =? 400 then "Endpoint exists but request was invalid"
  else if status =? 500 then "Endpoint exists but server encountered an error"
  else if status =? 503
  then "Endpoint exists but service is temporarily unavailable"
  else "Endpoint may exist but returned status: " +:+ py_repr (PInt status).

(** [main]: the endpoints read from the file given with [-f], one per
    line. *)
Definition load_endpoints (lines : list string) : list string :=
  map PyStr.strip
    (List.filter (fun line => negb (String.eqb (PyStr.strip line) "")) lines).

(** [main]: the custom endpoints that reach the generator.  [endpoints]
    is the list given with [-e]; [file] is what reading the [-f] file
    gave, [Some None] when it could not be read.  [None] when [main]
    returns without running the generator. *)
Definition main_custom_endpoints (endpoints : option (list string))
    (file : option (option (list string))) : option (option (list string)) :=
  match endpoints with
  | Some (e :: es) => Some (Some (e :: es))
  | _ =>
      match file with
      | Some (Some lines) => Some (Some (load_endpoints lines))
      | Some None => None
      | None => Some None
      end
  end.

(** [generate_api_docs] of the HTTP service: the endpoints it takes from
    the form's text, and the command it runs. *)
Definition form_endpoints (custom_endpoints : string) : list string :=
  if negb (String.eqb (PyStr.strip custom_endpoints) "") then
    map PyStr.strip
      (List.filter
         (fun ep => negb (String.eqb (PyStr.strip ep) "")
                    && negb (PyStr.startswith "#" ep))
         (PyStr.split_char Re.newline custom_endpoints))
  else [].

Definition generate_command (executable url custom_endpoints : string)
  : list string :=
  [executable; "universal_api_generator.py"; url; "--swagger"]
  ++ match form_endpoints custom_endpoints with
     | [] => []
     | endpoints => "-e" :: endpoints
     end.

(** ** The vocabulary of the properties *)

(** The status a probe was answered with, if it was answered at all. *)
Definition status_of (o : option outcome) : option Z :=
  match o with
  | Some (Resp r) => Some (status_code r)
  | _ => None
  end.

Definition accepted_status (s : option Z) : bool :=
  match s with
  | Some z => status_in z [200; 401; 403]
  | None => false
  end.

Definition rejected_status (s : option Z) : bool :=
  match s with
  | Some z => z =? 400
  | None => false
  end.

(** The values, in probe order, whose probe got a status that [keep]
    selects; the n-th probe is answered by the n-th outcome. *)
Fixpoint answered (keep : option Z -> bool) (values : list string)
    (script : list outcome) : list string :=
  match values with
  | [] => []
  | v :: vs =>
      (if keep (status_of (head script)) then [v] else [])
      ++ answered keep vs (tl script)
  end.

(** The three kinds of probe of one parameter, and what each does to the
    buckets. *)
Inductive probe_kind : Type := DefaultProbe | TestProbe | ErrorProbe.

Definition probe_step (kind : probe_kind) (param_name value : string)
    (r : response + string) (vi : validation_info) : validation_info :=
  match r with
  | inr _ => vi
  | inl resp =>
      match kind with
      | ErrorProbe => bucket_error_probe resp param_name value vi
      | _ => bucket_probe (status_code resp) value vi
      end
  end.

(** What [date_pattern] matches: four digits, two and two, separated by
    dashes, and then the end of the string or one last newline. *)
Definition date_text (y1 y2 y3 y4 m1 m2 d1 d2 : ascii) (tail : string) : string :=
  String y1 (String y2 (String y3 (String y4 (String dash
    (String m1 (String m2 (String dash (String d1 (String d2 tail))))))))).







(** The text before the first slash of a string, and the rest from that
    slash on. *)
Fixpoint segment (s : string) : string :=
  match s with
  | EmptyString => EmptyString
  | String c s' => if not_slash c then String c (segment s') else EmptyString
  end.

Fixpoint after_segment (s : string) : string :=
  match s with
  | EmptyString => EmptyString
  | String c s' => if not_slash c then after_segment s' else s
  end.

(** The segments of a path, and what [resource_pattern] finds in it:
    [None] when the path has no slash or nothing after its last slash,
    otherwise whether the segment before the last one is non-empty too. *)
Definition segments (endpoint : string) : list string :=
  PyStr.split_char slash endpoint.

Definition path_shape (endpoint : string) : option bool :=
  match rev (segments endpoint) with
  | last :: prev :: _ :: _ =>
      if String.eqb last "" then None else Some (negb (String.eqb prev ""))
  | [last; _] => if String.eqb last "" then None else Some false
  | _ => None
  end.

Definition has_group2 (caps : Re.captures) : bool :=
  match Re.group 2 caps with Some _ => true | None => false end.

(** What [resource_pattern] matches at one position. *)
Definition tail_shape (t : string) : option bool :=
  match segment t with
  | EmptyString => None
  | _ =>
      match after_segment t with
      | EmptyString => Some false
      | String _ u =>
          match segment u, after_segment u with
          | String _ _, EmptyString => Some true
          | _, _ => None
          end
      end
  end.

(** The leftmost match, position by position. *)
Fixpoint scan (s : string) : option bool :=
  match s with
  | EmptyString => None
  | String c t =>
      if Ascii.eqb c slash then
        match tail_shape t with
        | Some b => Some b
        | None => scan t
        end
      else scan t
  end.

(** The same decision on the list of the segments that follow a slash. *)
Fixpoint shape_after (segs : list string) : option bool :=
  match segs with
  | [] => None
  | s1 :: tl =>
      match tl with
      | [] => if String.eqb s1 "" then None else Some false
      | s2 :: more =>
          if negb (String.eqb s1 "") && negb (String.eqb s2 "") && negb (nonempty more)
          then Some true
          else shape_after tl
      end
  end.

Definition no_crud : crud :=
  {| crud_create := false; crud_read := false;
     crud_update := false; crud_delete := false |}.

Definition create_only : crud :=
  {| crud_create := true; crud_read := false;
     crud_update := false; crud_delete := false |}.

Definition read_only : crud :=
  {| crud_create := false; crud_read := true;
     crud_update := false; crud_delete := false |}.

(** The response schema of the data model: an object with its named
    fields in order, an array with the schema of its items if it is
    known, or a scalar of some kind. *)
Inductive schema : Type :=
| SObject (properties : list (string * schema))
| SArray (items : option schema)
| SScalar (kind : string).

(** The recursive mapping the specification describes: an object by its
    fields, a non-empty list by its first element, an empty list as an
    array with unconstrained items, a scalar by its kind. *)
Fixpoint reference_schema (v : pyval) : schema :=
  match v with
  | PDict d =>
      SObject ((fix fields (l : list (string * pyval)) : list (string * schema) :=
                  match l with
                  | [] => []
                  | (k, x) :: l' => (k, reference_schema x) :: fields l'
                  end) d)
  | PList [] => SArray None
  | PList (first :: _) => SArray (Some (reference_schema first))
  | _ => SScalar (_infer_type_comprehensive v)
  end.

(** The schema a dictionary of the engine denotes: its ['type'], with the
    ['properties'] of an object and the ['items'] of an array. *)
Fixpoint schema_of (v : pyval) : schema :=
  match v with
  | PDict d =>
      match dict_get "type" d with
      | Some (PStr kind) =>
          if String.eqb kind "object" then
            SObject
              ((fix find (l : list (string * pyval)) : list (string * schema) :=
                  match l with
                  | [] => []
                  | (k, x) :: l' =>
                      if String.eqb k "properties" then
                        match x with
                        | PDict props =>
                            (fix fields (ps : list (string * pyval)) :=
                               match ps with
                               | [] => []
                               | (name, p) :: ps' => (name, schema_of p) :: fields ps'
                               end) props
                        | _ => []
                        end
                      else find l'
                  end) d)
          else if String.eqb kind "array" then
            SArray
              ((fix find (l : list (string * pyval)) : option schema :=
                  match l with
                  | [] => None
                  | (k, x) :: l' =>
                      if String.eqb k "items" then Some (schema_of x) else find l'
                  end) d)
          else SScalar kind
      | _ => SScalar "unknown"
      end
  | _ => SScalar "unknown"
  end.

(** What the engine records about one field: its kind alone. *)
Definition shallow_schema (v : pyval) : schema :=
  match v with
  | PDict _ => SObject []
  | PList _ => SArray None
  | _ => SScalar (_infer_type_comprehensive v)
  end.

(** A value with nothing nested in it. *)
Definition flat (v : pyval) : bool :=
  match v with
  | PDict d => negb (nonempty d)
  | PList l => negb (nonempty l)
  | _ => true
  end.

Definition shallow_fields (d : dict pyval) : list (string * schema) :=
  map (fun kv => (fst kv, shallow_schema (snd kv))) d.


(** A property entry the emitter can convert: a dict whose ['type'], if
    any, can be a dictionary key. *)
Definition property_input (p : pyval) : bool :=
  match p with
  | PDict info =>
      match dict_get_default "type" (PStr "string") info with
      | PList _ | PDict _ => false
      | _ => true
      end
  | _ => false
  end.

(** A schema the emitter can read: a dict, or an empty value in its
    place; under an array, ['items'] that are a schema again; under an
    object, ['properties'] that are a dict of property entries. *)
Fixpoint schema_input (v : pyval) : bool :=
  match v with
  | PDict d =>
      let declared := dict_get_default "type" PNone d in
      if is_str "array" declared then
        (fix items_ok (l : list (string * pyval)) : bool :=
           match l with
           | [] => true
           | (k, x) :: l' =>
               if String.eqb k "items" then schema_input x else items_ok l'
           end) d
      else if is_str "object" declared then
        match dict_get_default "properties" (PDict []) d with
        | PDict props => forallb (fun kv => property_input (snd kv)) props
        | _ => false
        end
      else true
  | _ => negb (truthy v)
  end.

(** What the emitter relies on in a profile and its evidence: a
    parameter it will include is not required. *)
Definition consistent (p : parameter_info) (v : validation_info) : Prop :=
  pi_accepted p = true \/ accepted_values v <> [] -> pi_required p = false.

(** The parameter dictionaries of one method: every profile has its
    evidence under the same name. *)
Definition profiled (ps : dict parameter_info) (vs : dict validation_info) : Prop :=
  List.NoDup (dict_keys ps)
  /\ forall name p, dict_get name ps = Some p ->
       exists v, dict_get name vs = Some v /\ consistent p v.

(** An endpoint analysis as the engine builds it. *)
Definition profiled_analysis (a : endpoint_analysis) : Prop :=
  (forall m, match dict_get m (ea_parameters a) with
             | Some ps =>
                 exists vs, dict_get m (ea_parameter_validation a) = Some vs
                            /\ profiled ps vs
             | None => dict_get m (ea_parameter_validation a) = None
             end)
  /\ (forall m s, dict_get m (ea_response_schema a) = Some s -> schema_input s = true).

(** An emitted parameter object that is not required. *)
Definition not_required (param_obj : pyval) : Prop :=
  py_get "required" PNone param_obj = Some (PBool false).

(** The parameters of an emitted operation, [[]] when it lists none. *)
Definition operation_parameters (operation : pyval) : list pyval :=
  match operation with
  | PDict op =>
      match dict_get "parameters" op with
      | Some (PList params) => params
      | _ => []
      end
  | _ => []
  end.

(** The operations of an emitted document, path by path. *)
Definition path_operations (path_obj : pyval) : list pyval :=
  match path_obj with
  | PDict ops => dict_values ops
  | _ => []
  end.

Definition spec_operations (spec : pyval) : list pyval :=
  match spec with
  | PDict s =>
      match dict_get "paths" s with
      | Some (PDict paths) => flat_map path_operations (dict_values paths)
      | _ => []
      end
  | _ => []
  end.

Definition good_operation (operation : pyval) : Prop :=
  List.Forall not_required (operation_parameters operation).

Definition good_paths (paths : dict pyval) : Prop :=
  List.Forall good_operation (flat_map path_operations (dict_values paths)).

(** Explicit-list mode returns, in input order, the normalised inputs
    whose confirmation GET was answered with a status of the accept-set. *)
Fixpoint confirmed (endpoints : list string) (script : list outcome) : list string :=
  match endpoints with
  | [] => []
  | e :: es =>
      (match head script with
       | Some (Resp r) => if _is_valid_endpoint r then [normalize e] else []
       | _ => []
       end) ++ confirmed es (tl script)
  end.

(** The request that probes one value of a parameter. *)
Definition probe_request (method url param_name value : string) : http_request :=
  {| rq_method := method; rq_url := url; rq_params := [(param_name, value)] |}.

(** The values the profiler probes, in order. *)
Definition probed_values (info : param_info) : list string :=
  p_default info :: p_test_values info ++ [p_error_value info].

(** The number of requests of one method analysis. *)
Definition method_requests (method : string) : nat :=
  (1 + list_sum (map (fun entry => length (probed_values (snd entry)))
                   (parameter_variations g))
   + (if String.eqb method "GET" then 1 else 0))%nat.

(** Whether a probe was answered with a status of the accept-set. *)
Definition probe_valid (o : option outcome) : bool :=
  match o with
  | Some (Resp r) => _is_valid_endpoint r
  | _ => false
  end.

(** The GET to one URL. *)
Definition get_request (url : string) : http_request :=
  {| rq_method := "GET"; rq_url := url; rq_params := [] |}.

(** The GETs to the paths [paths] under the base URL. *)
Definition get_requests (paths : list string) : list http_request :=
  map (fun path => get_request (base_url g +:+ path)) paths.

(** An outcome that confirms nothing: an exception, or a status outside
    the accept-set of the classifier. *)
Definition refused (o : outcome) : bool :=
  match o with
  | Resp r => negb (_is_valid_endpoint r)
  | Raise _ => true
  end.

(** A field of an emitted document. *)
Definition spec_field (k : string) (spec : option pyval) : option pyval :=
  match spec with
  | Some (PDict d) => dict_get k d
  | _ => None
  end.

(** The paths an outcome gives to the search for an OpenAPI document:
    those of an answer 200 whose body parses, and none otherwise. *)
Definition openapi_document (o : option outcome) : option (list string) :=
  match o with
  | Some (Resp r) =>
      if status_code r =? 200 then
        match json r with
        | Some spec => _parse_openapi_spec spec
        | None => None
        end
      else None
  | _ => None
  end.

Definition quiet (w : world) : Prop :=
  List.Forall (fun o => refused o = true) (pending w).

(** The message the error probe leaves, if it leaves one. *)
Definition error_probe_message (param_name : string) (o : option outcome)
  : list string :=
  match o with
  | Some (Resp r) =>
      if status_code r =? 400 then
        match _extract_validation_error r param_name with
        | Some e => if String.eqb e "" then [] else [e]
        | None => []
        end
      else []
  | _ => []
  end.

(** A character that is neither a slash nor a hyphen. *)
Definition plain_char (c : ascii) : bool :=
  negb (Ascii.eqb c "/"%char) && negb (Ascii.eqb c "-"%char).

(** Whether the emitter takes an endpoint entry: its status is success. *)
Definition succeeded (endpoint_data : pyval) : bool :=
  match py_get "status" PNone endpoint_data with
  | Some status => is_str "success" status
  | None => false
  end.

(** The tag object of a tag name. *)
Definition tag_object (tag_name : string) : pyval :=
  PDict [("name", PStr tag_name);
         ("description", PStr ("Operations for " +:+ tag_name))].

(** The schema of an emitted parameter whose profile has the type [t],
    the default [default] and the accepted values [accepted]. *)
Definition parameter_schema (param_name t default : string) (accepted : list string)
  : pyval :=
  PDict ([("type", PStr (if String.eqb t "date" then "string" else t));
          ("description",
           PStr (param_name +:+ " parameter. Accepted values: "
                 +:+ PyStr.join ", " (firstn 3 accepted)
                 +:+ (if (3 <? length accepted)%nat then "..." else "")))]
         ++ (if String.eqb t "date" then [("format", PStr "date")] else [])
         ++ [("default", PStr default)]).

(** The methods of an analysis as method detection leaves them. *)
Definition known_methods (a : endpoint_analysis) : Prop :=
  ea_methods a <> []
  /\ forall m, In m (ea_methods a) -> m = "GET" \/ m = "POST".

(** A path object with at least one operation, under get or post. *)
Definition method_keys (path_obj : pyval) : Prop :=
  exists ops,
    path_obj = PDict ops
    /\ ops <> []
    /\ forall k, In k (dict_keys ops) -> k = "get" \/ k = "post".

(** The property the emitter writes for one field of a JSON object: the
    kind inferred for its value, turned into a type, with a format for a
    date, an e-mail address and a URL. *)
Definition emitted_property (kv : string * pyval) : string * pyval :=
  let t := _infer_type_comprehensive (snd kv) in
  (fst kv,
   PDict ([("type",
            PStr (if PyStr.mem t ["integer"; "number"; "boolean"] then t else "string"));
           ("description", PStr (fst kv +:+ " field"))]
          ++ (if String.eqb t "date" then [("format", PStr "date")]
              else if String.eqb t "email" then [("format", PStr "email")]
              else if String.eqb t "url" then [("format", PStr "uri")]
              else []))).

(** The schema the emitter writes for a JSON object. *)
Definition emitted_object (d : dict pyval) : pyval :=
  PDict [("type", PStr "object");
         ("properties", PDict (map emitted_property d))].

(** * Properties *)

(** ** The script monad *)

Lemma session_request_run method url params w :
  session_request method url params w =
  (match pending w with
   | [] => inr connection_error
   | Resp r :: _ => inl r
   | Raise e :: _ => inr e
   end,
   {| pending := tl (pending w);
      sent := sent w ++ [{| rq_method := method; rq_url := url; rq_params := params |}] |}).
Proof. unfold session_request. destruct (pending w) as [|[r|e] rest]; reflexivity. Qed.

Lemma bind_run {A B : Type} (m : M A) (f : A -> M B) w :
  bind m f w = f (fst (m w)) (snd (m w)).
Proof. unfold bind. destruct (m w); reflexivity. Qed.

(** ** Parameter profiling *)

Lemma bucket_probe_spec status value vi :
  accepted_values (bucket_probe status value vi) =
    accepted_values vi ++ (if status_in status [200; 401; 403] then [value] else [])
  /\ rejected_values (bucket_probe status value vi) =
    rejected_values vi ++ (if rejected_status (Some status) then [value] else [])
  /\ validation_patterns (bucket_probe status value vi) = validation_patterns vi
  /\ required (bucket_probe status value vi) = required vi.
Proof.
  unfold bucket_probe, rejected_status.
  destruct (status_in status [200; 401; 403]) eqn:Hacc.
  - assert ((status =? 400) = false) as ->.
    { unfold status_in in Hacc. simpl in Hacc.
      destruct (status =? 400) eqn:E; [|reflexivity].
      apply Z.eqb_eq in E. subst. discriminate. }
    simpl. rewrite app_nil_r. auto.
  - destruct (status =? 400); simpl; rewrite ?app_nil_r; auto.
Qed.

Lemma bucket_error_probe_spec r param_name value vi :
  accepted_values (bucket_error_probe r param_name value vi) = accepted_values vi
  /\ rejected_values (bucket_error_probe r param_name value vi) =
    rejected_values vi ++ (if status_code r =? 400 then [value] else [])
  /\ required (bucket_error_probe r param_name value vi) = required vi.
Proof.
  unfold bucket_error_probe.
  destruct (status_code r =? 400); simpl; rewrite ?app_nil_r; auto.
  destruct (_extract_validation_error r param_name) as [e|]; simpl; auto.
  destruct (negb (String.eqb e "")); simpl; auto.
Qed.

(** The loop over the test values: every value is probed, whatever the
    earlier probes were answered with. *)
Lemma test_values_loop url method param_name values : forall vi w,
  let res :=
    for_each values vi
      (fun vi test_value =>
         r <- session_request method url [(param_name, test_value)] ;;
         ret match r with
             | inl resp => bucket_probe (status_code resp) test_value vi
             | inr _ => vi
             end) w in
  accepted_values (fst res) =
    accepted_values vi ++ answered accepted_status values (pending w)
  /\ rejected_values (fst res) =
    rejected_values vi ++ answered rejected_status values (pending w)
  /\ required (fst res) = required vi
  /\ pending (snd res) = skipn (length values) (pending w).
Proof.
  induction values as [|v vs IH]; intros vi w; cbn zeta.
  - simpl. rewrite !app_nil_r. auto.
  - cbn [for_each]. rewrite !bind_run, session_request_run. cbn [fst snd ret].
    match goal with
    | |- context [for_each vs ?vi' _ ?w'] =>
        specialize (IH vi' w'); cbn zeta in IH;
        destruct IH as (Ha & Hr & Hq & Hp)
    end.
    rewrite Ha, Hr, Hq, Hp. cbn [pending answered length skipn].
    destruct (pending w) as [|[r|e] rest]; cbn [head tl status_of accepted_status rejected_status].
    + simpl. rewrite skipn_nil. auto.
    + destruct (bucket_probe_spec (status_code r) v vi) as (Ha' & Hr' & _ & Hq').
      rewrite Ha', Hr', Hq'. cbn [rejected_status]. rewrite <- !app_assoc. auto.
    + simpl. auto.
Qed.

Lemma decide_required_spec vi :
  required vi = false ->
  required (decide_required vi) =
    nonempty (rejected_values vi) && negb (nonempty (accepted_values vi))
  /\ accepted_values (decide_required vi) = accepted_values vi
  /\ rejected_values (decide_required vi) = rejected_values vi.
Proof.
  intros Hq. unfold decide_required.
  destruct (accepted_values vi) eqn:Ea, (rejected_values vi) eqn:Er;
    simpl; rewrite ?Hq, ?Ea, ?Er; auto.
Qed.

(** What a run of the profiler leaves in its result, for any service. *)
Lemma profile_spec url method param_name info w :
  let res := fst (_analyze_parameter_comprehensive url method param_name info w) in
  let vi := pa_validation_info res in
  accepted_values vi =
    answered accepted_status (p_default info :: p_test_values info) (pending w)
  /\ rejected_values vi =
    answered rejected_status (p_default info :: p_test_values info) (pending w)
    ++ answered rejected_status [p_error_value info]
         (skipn (S (length (p_test_values info))) (pending w))
  /\ required vi = nonempty (rejected_values vi) && negb (nonempty (accepted_values vi))
  /\ vi_type vi = _infer_parameter_type (accepted_values vi)
  /\ pa_parameter_info res =
     {| pi_type := vi_type vi; pi_required := required vi;
        pi_default := p_default info;
        pi_accepted := nonempty (accepted_values vi) |}.
Proof.
  cbn zeta. unfold _analyze_parameter_comprehensive.
  rewrite bind_run, session_request_run. cbn [fst snd].
  rewrite bind_run.
  match goal with
  | |- context [for_each (p_test_values info) ?vi0 ?body ?w0] =>
      pose proof (test_values_loop url method param_name (p_test_values info) vi0 w0) as H;
      cbn zeta in H; destruct H as (Ha & Hr & Hq & Hp);
      set (loop := for_each (p_test_values info) vi0 body w0) in *
  end.
  rewrite bind_run, session_request_run. cbn [fst snd ret pa_validation_info pa_parameter_info].
  rewrite Hp. cbn [pending tl] in *.
  set (vi2 := match match skipn _ _ with [] => _ | _ => _ end with inl _ => _ | inr _ => _ end).
  assert (accepted_values vi2 = accepted_values (fst loop)
          /\ rejected_values vi2 =
             rejected_values (fst loop)
             ++ answered rejected_status [p_error_value info]
                  (skipn (S (length (p_test_values info))) (pending w))
          /\ required vi2 = false) as (Ha2 & Hr2 & Hq2).
  { subst vi2.
    replace (skipn (S (length (p_test_values info))) (pending w))
      with (skipn (length (p_test_values info)) (tl (pending w)))
      by (destruct (pending w); [rewrite skipn_nil|]; reflexivity).
    assert (required
              match match pending w with
                    | [] => inr connection_error
                    | Resp r :: _ => inl r
                    | Raise e :: _ => inr e
                    end with
              | inl resp => bucket_probe (status_code resp) (p_default info) new_validation_info
              | inr _ => new_validation_info
              end = false) as Hq0.
    { destruct (pending w) as [|[r|e] rest]; try reflexivity.
      destruct (bucket_probe_spec (status_code r) (p_default info) new_validation_info)
        as (_ & _ & _ & ->). reflexivity. }
    destruct (skipn (length (p_test_values info)) (tl (pending w))) as [|[r|e] rest];
      cbn [answered head tl status_of rejected_status]; rewrite ?app_nil_r, ?Hq; auto.
    destruct (bucket_error_probe_spec r param_name (p_error_value info) (fst loop))
      as (-> & -> & ->). rewrite Hq. auto. }
  destruct (decide_required_spec vi2 Hq2) as (Hd & Hda & Hdr).
  cbn [accepted_values rejected_values required vi_type set_type].
  rewrite Hd, Hda, Hdr, Ha2, Hr2, Ha, Hr.
  cbn [answered].
  assert (accepted_values
            match match pending w with
                  | [] => inr connection_error
                  | Resp r :: _ => inl r
                  | Raise e :: _ => inr e
                  end with
            | inl resp => bucket_probe (status_code resp) (p_default info) new_validation_info
            | inr _ => new_validation_info
            end
          = (if accepted_status (status_of (head (pending w))) then [p_default info] else [])
          /\ rejected_values
            match match pending w with
                  | [] => inr connection_error
                  | Resp r :: _ => inl r
                  | Raise e :: _ => inr e
                  end with
            | inl resp => bucket_probe (status_code resp) (p_default info) new_validation_info
            | inr _ => new_validation_info
            end
          = (if rejected_status (status_of (head (pending w))) then [p_default info] else []))
    as (-> & ->).
  { destruct (pending w) as [|[r|e] rest]; cbn [head status_of accepted_status rejected_status]; auto.
    destruct (bucket_probe_spec (status_code r) (p_default info) new_validation_info)
      as (-> & -> & _). auto. }
  rewrite <- !app_assoc. auto.
Qed.



(** C1 (as amended).  The probes of the default value and of each test
    value put the probed value into [accepted_values] and not into
    [rejected_values] on a status in {200, 401, 403}, into
    [rejected_values] and not into [accepted_values] on status 400, and
    into neither bucket on any other status or on a failed request.  The
    probe of the error value records a 400 only: it puts the value into
    [rejected_values] then, and on every other status, 200, 401 and 403
    included, into neither bucket.  No answer aborts the probes that
    follow: after a run the buckets hold, in probe order, every probed
    value whose own answer selects it. *)
Theorem probes_fill_buckets url method param_name info script :
  (forall kind resp value vi, kind <> ErrorProbe ->
     accepted_values (probe_step kind param_name value (inl resp) vi) =
       accepted_values vi
       ++ (if accepted_status (Some (status_code resp)) then [value] else [])
     /\ rejected_values (probe_step kind param_name value (inl resp) vi) =
       rejected_values vi
       ++ (if rejected_status (Some (status_code resp)) then [value] else []))
  /\ (forall resp value vi,
     accepted_values (probe_step ErrorProbe param_name value (inl resp) vi) =
       accepted_values vi
     /\ rejected_values (probe_step ErrorProbe param_name value (inl resp) vi) =
       rejected_values vi
       ++ (if rejected_status (Some (status_code resp)) then [value] else []))
  /\ (forall kind e value vi, probe_step kind param_name value (inr e) vi = vi)
  /\ accepted_values
       (pa_validation_info
          (run (_analyze_parameter_comprehensive url method param_name info) script)) =
     answered accepted_status (p_default info :: p_test_values info) script
  /\ rejected_values
       (pa_validation_info
          (run (_analyze_parameter_comprehensive url method param_name info) script)) =
     answered rejected_status (p_default info :: p_test_values info) script
     ++ answered rejected_status [p_error_value info]
          (skipn (S (length (p_test_values info))) script).
Proof.
  split; [|split; [|split]].
  - intros kind resp value vi Hk.
    destruct (bucket_probe_spec (status_code resp) value vi) as (Ha & Hr & _).
    destruct kind; [| |congruence]; cbn [probe_step accepted_status]; auto.
  - intros resp value vi.
    destruct (bucket_error_probe_spec resp param_name value vi) as (Ha & Hr & _).
    cbn [probe_step rejected_status]. auto.
  - reflexivity.
  - unfold run.
    pose proof (profile_spec url method param_name info {| pending := script; sent := [] |}) as H.
    cbn zeta in H. destruct H as (Ha & Hr & _). cbn [pending] in *. auto.
Qed.

(** C4.  The [required] flag the profiler reports is [true] exactly when
    [rejected_values] is non-empty and [accepted_values] is empty; it is
    [false] whenever [accepted_values] is non-empty (a mixed outcome
    included) and when both buckets are empty; and the decision gives
    the same flag on buckets that hold the same values in another order. *)
Theorem required_iff_only_rejected url method param_name info script :
  let res := run (_analyze_parameter_comprehensive url method param_name info) script in
  let vi := pa_validation_info res in
  (required vi = true <-> rejected_values vi <> [] /\ accepted_values vi = [])
  /\ (accepted_values vi <> [] -> required vi = false)
  /\ (accepted_values vi <> [] -> rejected_values vi <> [] -> required vi = false)
  /\ (accepted_values vi = [] -> rejected_values vi = [] -> required vi = false)
  /\ pi_required (pa_parameter_info res) = required vi
  /\ (forall vi',
        required vi' = false ->
        Permutation (accepted_values vi) (accepted_values vi') ->
        Permutation (rejected_values vi) (rejected_values vi') ->
        required (decide_required vi') = required vi).
Proof.
  cbn zeta. unfold run.
  pose proof (profile_spec url method param_name info {| pending := script; sent := [] |}) as H.
  cbn zeta in H. destruct H as (_ & _ & Hq & _ & Hp).
  set (res := fst (_analyze_parameter_comprehensive url method param_name info _)) in *.
  rewrite Hp. cbn [pi_required]. rewrite Hq.
  repeat split.
  - destruct (rejected_values (pa_validation_info res)); [discriminate|congruence].
  - destruct (accepted_values (pa_validation_info res)),
      (rejected_values (pa_validation_info res)); simpl in *; congruence.
  - intros [Hr Ha]. rewrite Ha.
    destruct (rejected_values (pa_validation_info res)); [congruence|reflexivity].
  - intros Ha. destruct (accepted_values (pa_validation_info res)); [congruence|].
    simpl. apply andb_false_r.
  - intros Ha _. destruct (accepted_values (pa_validation_info res)); [congruence|].
    simpl. apply andb_false_r.
  - intros -> ->. reflexivity.
  - intros vi' Hq' Pa Pr.
    destruct (decide_required_spec vi' Hq') as (-> & _).
    destruct (accepted_values (pa_validation_info res)) as [|a la].
    + apply Permutation_nil in Pa. rewrite Pa.
      destruct (rejected_values (pa_validation_info res)) as [|b lb].
      * apply Permutation_nil in Pr. rewrite Pr. reflexivity.
      * destruct (rejected_values vi'); [|reflexivity].
        apply Permutation_sym, Permutation_nil in Pr. discriminate.
    + destruct (accepted_values vi').
      * apply Permutation_sym, Permutation_nil in Pa. discriminate.
      * simpl. rewrite !andb_false_r. reflexivity.
Qed.



Lemma at_end_cases s :
  Re.at_end s = true -> s = EmptyString \/ s = String Re.newline EmptyString.
Proof.
  destruct s as [|c [|c' s]]; simpl; auto; try discriminate.
  intros H. apply Ascii.eqb_eq in H. subst. auto.
Qed.

Lemma is_date_shape v :
  is_date v = true <->
  exists y1 y2 y3 y4 m1 m2 d1 d2 tail,
    v = date_text y1 y2 y3 y4 m1 m2 d1 d2 tail
    /\ forallb Re.digit [y1; y2; y3; y4; m1; m2; d1; d2] = true
    /\ (tail = EmptyString \/ tail = String Re.newline EmptyString).
Proof.
  unfold is_date, Re.re_match, date_pattern.
  cbn [Re.times Re.rmatch Re.chr Nat.eqb Re.accept].
  split.
  - destruct v as [|y1 [|y2 [|y3 [|y4 [|h1 [|m1 [|m2 [|h2 [|d1 [|d2 tail]]]]]]]]]];
      repeat match goal with
             | |- context [if Re.digit ?c then _ else _] => destruct (Re.digit c) eqn:?
             | |- context [if Ascii.eqb dash ?c then _ else _] =>
                 destruct (Ascii.eqb dash c) eqn:?
             end; try discriminate.
    destruct (Re.at_end tail) eqn:He; [|discriminate]. intros _.
    repeat match goal with
           | H : Ascii.eqb dash _ = true |- _ => apply Ascii.eqb_eq in H; subst
           end.
    exists y1, y2, y3, y4, m1, m2, d1, d2, tail.
    split; [reflexivity|]. split; [|apply at_end_cases, He].
    cbn [forallb].
    repeat match goal with H : Re.digit _ = true |- _ => rewrite H; clear H end.
    reflexivity.
  - intros (y1 & y2 & y3 & y4 & m1 & m2 & d1 & d2 & tail & -> & Hd & Ht).
    cbn [forallb] in Hd. repeat (apply andb_true_iff in Hd; destruct Hd as [? Hd]).
    unfold date_text.
    repeat match goal with H : Re.digit _ = true |- _ => rewrite H; clear H end.
    rewrite !Ascii.eqb_refl.
    destruct Ht as [-> | ->]; reflexivity.
Qed.

Lemma is_boolean_word_spec v :
  is_boolean_word v = true <-> PyStr.lower v = "true" \/ PyStr.lower v = "false".
Proof.
  unfold is_boolean_word, PyStr.mem. cbn [existsb]. rewrite orb_false_r.
  rewrite orb_true_iff, !String.eqb_eq. reflexivity.
Qed.














(** C8 (as amended).  On a response whose body does not parse as JSON,
    schema inference returns exactly [{type: str}], the type name of the
    raw text [_safe_json] falls back to, and no exception leaves it. *)
Theorem unparseable_body_schema (r : response) :
  json r = None ->
  _analyze_response_schema_comprehensive r = PDict [("type", PStr "str")].
Proof.
  intros H. unfold _analyze_response_schema_comprehensive, _safe_json.
  rewrite H. reflexivity.
Qed.



(** ** CRUD classification *)

Lemma after_segment_shape s :
  after_segment s = EmptyString \/ exists u, after_segment s = String slash u.
Proof.
  induction s as [|c s IH]; simpl; [auto|].
  unfold not_slash. destruct (Ascii.eqb c slash) eqn:E; simpl; [|exact IH].
  apply Ascii.eqb_eq in E. subst. right. eauto.
Qed.

Lemma at_end_after s :
  segment s <> EmptyString ->
  Re.at_end (after_segment s) = false -> Re.at_end s = false.
Proof.
  destruct s as [|c [|c' s]]; simpl; try congruence.
  destruct (not_slash c); simpl; congruence.
Qed.

Lemma at_end_slash u : Re.at_end (String slash u) = false.
Proof. destruct u; reflexivity. Qed.

Lemma segment_head c s :
  segment (String c s) <> EmptyString -> not_slash c = true.
Proof. simpl. destruct (not_slash c); congruence. Qed.

(** A greedy [[^/]+] ends at the next slash whenever the rest of the
    pattern cannot succeed earlier than it succeeds there. *)
Lemma plus_not_slash {R : Type} (k : nat -> string -> option R) :
  (forall pos s, segment s <> EmptyString ->
     k (pos + String.length (segment s))%nat (after_segment s) = None ->
     k pos s = None) ->
  forall t pos,
    Re.plus_class not_slash pos t k =
    match segment t with
    | EmptyString => None
    | _ => k (pos + String.length (segment t))%nat (after_segment t)
    end.
Proof.
  intros Hk. induction t as [|c t IH]; intros pos; simpl; [reflexivity|].
  destruct (not_slash c) eqn:Hc; [|reflexivity].
  rewrite IH. cbn [String.length].
  destruct (segment t) eqn:Hs.
  - destruct t as [|c' t]; simpl in *.
    + f_equal. lia.
    + destruct (not_slash c'); [discriminate|]. f_equal. lia.
  - replace (pos + S (String.length (String a s)))%nat
      with (S pos + String.length (String a s))%nat by lia.
    destruct (k (S pos + String.length (String a s))%nat (after_segment t)) eqn:E;
      [reflexivity|].
    rewrite <- Hs in E. apply Hk in E; [|rewrite Hs; discriminate].
    exact E.
Qed.

Lemma resource_pattern_at pos s :
  option_map has_group2 (Re.rmatch resource_pattern pos s [] Re.accept) =
  match s with
  | String c t => if Ascii.eqb c slash then tail_shape t else None
  | EmptyString => None
  end.
Proof.
  unfold resource_pattern.
  cbn [Re.rmatch Re.chr].
  destruct s as [|c t]; [reflexivity|].
  rewrite (Ascii.eqb_sym slash c).
  destruct (Ascii.eqb c slash) eqn:Hc; [|reflexivity].
  rewrite plus_not_slash.
  - unfold tail_shape. destruct (segment t) eqn:Hs; [reflexivity|].
    rewrite <- Hs.
    destruct (after_segment_shape t) as [Ha|[u Ha]]; rewrite Ha.
    + reflexivity.
    + cbn [Re.rmatch Re.chr]. rewrite Ascii.eqb_refl.
      rewrite plus_not_slash.
      * destruct (segment u) eqn:Hu; [rewrite at_end_slash; reflexivity|].
        destruct (after_segment_shape u) as [Hb|[v Hb]]; rewrite Hb;
          rewrite ?at_end_slash; reflexivity.
      * intros pos' s' Hs' E.
        destruct (Re.at_end (after_segment s')) eqn:Ee; [discriminate|].
        rewrite (at_end_after s' Hs' Ee). reflexivity.
  - intros pos' s' Hs' E. cbn [Re.rmatch Re.chr] in *.
    destruct s' as [|c' s']; [simpl in Hs'; congruence|].
    pose proof (segment_head c' s' Hs') as Hn. unfold not_slash in Hn.
    rewrite (Ascii.eqb_sym slash c').
    destruct (Ascii.eqb c' slash); [discriminate|].
    destruct (Re.at_end (after_segment (String c' s'))) eqn:Ee.
    + destruct (after_segment (String c' s')) as [|d [|d' r]]; try discriminate.
      destruct (Ascii.eqb slash d); simpl in E; discriminate.
    + rewrite (at_end_after _ Hs' Ee). reflexivity.
Qed.

Lemma resource_pattern_search s : forall pos,
  option_map has_group2 (Re.search_from resource_pattern pos s) = scan s.
Proof.
  induction s as [|c t IH]; intros pos; cbn [Re.search_from scan].
  - pose proof (resource_pattern_at pos EmptyString) as H.
    destruct (Re.rmatch resource_pattern pos EmptyString [] Re.accept);
      [discriminate|reflexivity].
  - pose proof (resource_pattern_at pos (String c t)) as H.
    destruct (Re.rmatch resource_pattern pos (String c t) [] Re.accept) as [caps|].
    + cbn [option_map] in *. rewrite H.
      destruct (Ascii.eqb c slash); [|discriminate].
      destruct (tail_shape t); [reflexivity|discriminate].
    + cbn [option_map] in H. rewrite IH.
      destruct (Ascii.eqb c slash); [|reflexivity].
      rewrite <- H. reflexivity.
Qed.

Lemma split_char_segment s :
  PyStr.split_char slash s =
  segment s ::
  match after_segment s with
  | EmptyString => []
  | String _ u => PyStr.split_char slash u
  end.
Proof.
  induction s as [|c s IH]; [reflexivity|].
  cbn [PyStr.split_char segment after_segment]. unfold not_slash.
  destruct (Ascii.eqb c slash); cbn [negb]; [reflexivity|].
  rewrite IH. reflexivity.
Qed.

Lemma eqb_empty s : String.eqb s "" = match s with EmptyString => true | _ => false end.
Proof. destruct s; reflexivity. Qed.

Lemma tail_shape_segments t :
  shape_after (PyStr.split_char slash t) =
  match tail_shape t with
  | Some b => Some b
  | None => shape_after (tl (PyStr.split_char slash t))
  end.
Proof.
  rewrite (split_char_segment t). unfold tail_shape. cbn [tl].
  destruct (after_segment_shape t) as [Ha|[u Ha]]; rewrite Ha.
  - cbn [shape_after]. rewrite eqb_empty. destruct (segment t); reflexivity.
  - rewrite (split_char_segment u). cbn [shape_after].
    rewrite !eqb_empty.
    destruct (segment t) eqn:Hs; cbn [negb andb].
    + reflexivity.
    + destruct (segment u) eqn:Hu; cbn [negb andb]; [reflexivity|].
      destruct (after_segment_shape u) as [Hb|[v Hb]]; rewrite Hb; [reflexivity|].
      rewrite (split_char_segment v). reflexivity.
Qed.

Lemma scan_segments s : scan s = shape_after (tl (PyStr.split_char slash s)).
Proof.
  induction s as [|c s IH]; [reflexivity|].
  cbn [scan PyStr.split_char].
  destruct (Ascii.eqb c slash).
  - cbn [tl]. rewrite tail_shape_segments, IH. reflexivity.
  - rewrite IH. rewrite (split_char_segment s). reflexivity.
Qed.

Lemma shape_after_rev segs : forall first,
  shape_after segs =
  match rev (first :: segs) with
  | last :: prev :: _ :: _ =>
      if String.eqb last "" then None else Some (negb (String.eqb prev ""))
  | [last; _] => if String.eqb last "" then None else Some false
  | _ => None
  end.
Proof.
  induction segs as [|s1 tl IH]; intros first; [reflexivity|].
  destruct tl as [|s2 more].
  - cbn. reflexivity.
  - change (shape_after (s1 :: s2 :: more))
      with (if negb (String.eqb s1 "") && negb (String.eqb s2 "") && negb (nonempty more)
            then Some true else shape_after (s2 :: more)).
    rewrite (IH s1).
    destruct more as [|s3 more].
    + cbn. destruct (String.eqb s2 ""), (String.eqb s1 ""); reflexivity.
    + cbn [nonempty negb]. rewrite andb_false_r.
      change (rev (first :: s1 :: s2 :: s3 :: more))
        with (rev (s1 :: s2 :: s3 :: more) ++ [first]).
      assert (exists a b c r, rev (s1 :: s2 :: s3 :: more) = a :: b :: c :: r)
        as (a & b & c & r & ->).
      { assert (3 <= length (rev (s1 :: s2 :: s3 :: more)))%nat as Hl
          by (rewrite length_rev; simpl; lia).
        destruct (rev (s1 :: s2 :: s3 :: more)) as [|a [|b [|c r]]]; simpl in Hl; try lia.
        eauto. }
      reflexivity.
Qed.

(** [resource_pattern] finds a match exactly in the paths that have a
    non-empty last segment after a slash, and its second group takes part
    exactly when the segment before is non-empty and follows a slash. *)
Lemma resource_pattern_shape endpoint :
  option_map has_group2 (Re.re_search resource_pattern endpoint) = path_shape endpoint.
Proof.
  unfold Re.re_search, path_shape, segments.
  rewrite resource_pattern_search, scan_segments.
  rewrite (split_char_segment endpoint). cbn [tl].
  apply shape_after_rev.
Qed.

Lemma for_each_invariant {A S : Type} (P : S -> Prop) (body : S -> A -> M S) :
  (forall acc x w, P acc -> P (fst (body acc x w))) ->
  forall l acc w, P acc -> P (fst (for_each l acc body w)).
Proof.
  intros Hbody. induction l as [|x l IH]; intros acc w Hacc; cbn [for_each].
  - exact Hacc.
  - rewrite bind_run. apply IH, Hbody, Hacc.
Qed.

Lemma analyze_endpoint_crud endpoint w :
  ea_crud_operations (fst (analyze_endpoint endpoint w)) =
  _identify_crud_operations endpoint.
Proof.
  unfold analyze_endpoint. rewrite bind_run.
  apply (for_each_invariant
           (fun a => ea_crud_operations a = _identify_crud_operations endpoint)).
  - intros acc x w' H. rewrite bind_run. exact H.
  - reflexivity.
Qed.

(** C6 (as amended).  The CRUD classification is a function of the path
    string alone, whatever the service answers and whichever methods were
    found.  A path with no slash, or with nothing after its last slash,
    is classified all-false, read included.  For any other path: one
    that contains "auth" or "login" in any letter case is create-only;
    else one that contains "search" or "find" is read-only; else read is
    true, and the path is update- and delete-capable and not
    create-capable when the segment before its last one is non-empty and
    follows a slash, create-capable and not update- or delete-capable
    otherwise.  So [/users] is {create, read}, [/users/42] is
    {read, update, delete} and [/auth/login] is {create}. *)
Theorem crud_classification (endpoint : string) :
  _identify_crud_operations endpoint =
    match path_shape endpoint with
    | None => no_crud
    | Some has_id =>
        if PyStr.contains "auth" (PyStr.lower endpoint)
           || PyStr.contains "login" (PyStr.lower endpoint)
        then create_only
        else if PyStr.contains "search" (PyStr.lower endpoint)
                || PyStr.contains "find" (PyStr.lower endpoint)
        then read_only
        else {| crud_create := negb has_id; crud_read := true;
                crud_update := has_id; crud_delete := has_id |}
    end
  /\ (forall w,
        ea_crud_operations (fst (analyze_endpoint endpoint w)) =
        _identify_crud_operations endpoint)
  /\ _identify_crud_operations "/users" =
       {| crud_create := true; crud_read := true;
          crud_update := false; crud_delete := false |}
  /\ _identify_crud_operations "/users/42" =
       {| crud_create := false; crud_read := true;
          crud_update := true; crud_delete := true |}
  /\ _identify_crud_operations "/auth/login" = create_only.
Proof.
  split; [|split; [|repeat split]].
  - rewrite <- resource_pattern_shape. unfold _identify_crud_operations, has_group2.
    destruct (Re.re_search resource_pattern endpoint) as [caps|]; reflexivity.
  - intros w. apply analyze_endpoint_crud.
Qed.



(** ** Schema inference *)

Lemma reference_schema_dict d :
  reference_schema (PDict d) =
  SObject (map (fun kv => (fst kv, reference_schema (snd kv))) d).
Proof.
  cbn [reference_schema]. f_equal.
  induction d as [|[k x] d IH]; [reflexivity|]. cbn [map fst snd]. rewrite <- IH. reflexivity.
Qed.

Lemma schema_of_entry v :
  schema_of (PDict [("type", PStr (_infer_type_comprehensive v)); ("example", v)])
  = shallow_schema v.
Proof.
  destruct v as [| | | |s| |]; try reflexivity.
  cbn [_infer_type_comprehensive shallow_schema].
  destruct (matches date_prefix_pattern s); [reflexivity|].
  destruct (matches uuid_pattern s); [reflexivity|].
  destruct (PyStr.contains "@" s && PyStr.contains "." s); [reflexivity|].
  destruct (PyStr.startswith "http" s); reflexivity.
Qed.

Lemma dict_set_fresh {V : Type} (k : string) (v : V) (d : dict V) :
  ~ In k (dict_keys d) -> dict_set k v d = d ++ [(k, v)].
Proof.
  induction d as [|[k' v'] d IH]; intros Hk; [reflexivity|].
  cbn [dict_set]. destruct (String.eqb k' k) eqn:E.
  - apply String.eqb_eq in E. subst. exfalso. apply Hk. left. reflexivity.
  - cbn [app]. rewrite IH; [reflexivity|]. intros H. apply Hk. right. exact H.
Qed.

(** Filling a dictionary key by key from a dictionary with distinct keys
    keeps the entries in order. *)
Lemma fold_dict_set {V W : Type} (f : string * V -> W) (d : dict V) :
  forall acc,
    List.NoDup (dict_keys acc ++ dict_keys d) ->
    fold_left (fun props kv => dict_set (fst kv) (f kv) props) d acc =
    acc ++ map (fun kv => (fst kv, f kv)) d.
Proof.
  induction d as [|[k v] d IH]; intros acc Hnd; cbn [fold_left map].
  - rewrite app_nil_r. reflexivity.
  - cbn [fst dict_keys map] in *.
    rewrite dict_set_fresh.
    + rewrite IH.
      * rewrite <- app_assoc. reflexivity.
      * unfold dict_keys in *. rewrite map_app. cbn [map fst].
        rewrite <- app_assoc. exact Hnd.
    + intros Hin. apply NoDup_remove_2 in Hnd. apply Hnd.
      apply in_or_app. left. exact Hin.
Qed.

Lemma schema_of_properties (props : dict pyval) :
  (fix fields (ps : list (string * pyval)) : list (string * schema) :=
     match ps with
     | [] => []
     | (name, p) :: ps' => (name, schema_of p) :: fields ps'
     end) props
  = map (fun kv => (fst kv, schema_of (snd kv))) props.
Proof.
  induction props as [|[k x] d IH]; [reflexivity|]. rewrite IH. reflexivity.
Qed.

Lemma infer_object_schema d :
  List.NoDup (dict_keys d) ->
  exists s, _infer_object_schema_comprehensive (PDict d) = Some s
            /\ schema_of s = SObject (shallow_fields d).
Proof.
  intros Hnd. eexists. split; [reflexivity|].
  rewrite (fold_dict_set
             (fun kv => PDict [("type", PStr (_infer_type_comprehensive (snd kv)));
                               ("example", snd kv)]) d [] Hnd).
  cbn [app]. cbn -[schema_of map]. cbn [schema_of dict_get String.eqb Ascii.eqb Bool.eqb].
  cbn -[schema_of map].
  rewrite schema_of_properties. f_equal. unfold shallow_fields.
  rewrite map_map. apply map_ext. intros [k v]. cbn [fst snd].
  rewrite schema_of_entry. reflexivity.
Qed.

Lemma shallow_flat v : flat v = true -> shallow_schema v = reference_schema v.
Proof.
  destruct v as [| | | | |l|d]; try reflexivity; cbn [flat].
  - destruct l; [reflexivity|discriminate].
  - destruct d; [reflexivity|discriminate].
Qed.

Lemma shallow_fields_flat d :
  forallb flat (dict_values d) = true ->
  SObject (shallow_fields d) = reference_schema (PDict d).
Proof.
  intros H. rewrite reference_schema_dict. f_equal. unfold shallow_fields.
  induction d as [|[k v] d IH]; [reflexivity|].
  cbn [dict_values map forallb fst snd] in *.
  apply andb_true_iff in H. destruct H as [Hv Hd].
  rewrite (shallow_flat v Hv), (IH Hd). reflexivity.
Qed.

(** C3 (as amended).  Schema inference on a JSON body is one level deep.
    An object maps to [{type: object, properties}] where each field has
    the kind of its value and nothing more: a nested object or list is
    recorded as kind [object] or [array], without properties or items.
    A non-empty list whose first element is an object maps to
    [{type: array, items}] with that one-level object schema as items.
    On these bodies the result is the recursive reference mapping
    whenever no field holds a non-empty object or list.  An empty list
    maps to [{type: list}] and a scalar to its Python type name. *)
Theorem schema_inference_one_level (r : response) :
  (forall d, json r = Some (PDict d) -> List.NoDup (dict_keys d) ->
     schema_of (_analyze_response_schema_comprehensive r) = SObject (shallow_fields d)
     /\ (forallb flat (dict_values d) = true ->
         schema_of (_analyze_response_schema_comprehensive r)
         = reference_schema (PDict d)))
  /\ (forall d rest, json r = Some (PList (PDict d :: rest)) ->
      List.NoDup (dict_keys d) ->
      schema_of (_analyze_response_schema_comprehensive r)
      = SArray (Some (SObject (shallow_fields d)))
      /\ (forallb flat (dict_values d) = true ->
          schema_of (_analyze_response_schema_comprehensive r)
          = reference_schema (PList (PDict d :: rest))))
  /\ (json r = Some (PList []) ->
      _analyze_response_schema_comprehensive r = PDict [("type", PStr "list")])
  /\ (forall v, json r = Some v ->
      match v with PDict _ | PList _ => False | _ => True end ->
      _analyze_response_schema_comprehensive r = PDict [("type", PStr (type_name v))]).
Proof.
  unfold _analyze_response_schema_comprehensive, _safe_json.
  split; [|split; [|split]].
  - intros d -> Hnd.
    destruct (infer_object_schema d Hnd) as (s & -> & Hs).
    split; [exact Hs|]. intros Hf. rewrite Hs. apply shallow_fields_flat, Hf.
  - intros d rest -> Hnd.
    destruct (infer_object_schema d Hnd) as (s & -> & Hs).
    assert (schema_of
              (PDict [("type", PStr "array"); ("items", s);
                      ("count", PInt (Z.of_nat (length (PDict d :: rest))))])
            = SArray (Some (schema_of s))) as -> by reflexivity.
    rewrite Hs. split; [reflexivity|]. intros Hf.
    change (reference_schema (PList (PDict d :: rest)))
      with (SArray (Some (reference_schema (PDict d)))).
    rewrite <- (shallow_fields_flat d Hf). reflexivity.
  - intros ->. reflexivity.
  - intros v -> Hv. destruct v; try reflexivity; contradiction.
Qed.



(** ** The emitter's response schema *)

(** Induction on a Python value, with the hypothesis for every item of a
    list and every value of a dictionary. *)
Lemma pyval_nested_ind (P : pyval -> Prop) :
  P PNone -> (forall b, P (PBool b)) -> (forall z, P (PInt z)) ->
  (forall q, P (PFloat q)) -> (forall s, P (PStr s)) ->
  (forall l, Forall P l -> P (PList l)) ->
  (forall d, Forall (fun kv => P (snd kv)) d -> P (PDict d)) ->
  forall v, P v.
Proof.
  intros HN HB HI HF HS HL HD.
  fix IH 1. intros [| b | z | q | s | l | d].
  - exact HN.
  - apply HB.
  - apply HI.
  - apply HF.
  - apply HS.
  - apply HL. induction l as [|x l IHl]; constructor; [apply IH|exact IHl].
  - apply HD. induction d as [|[k x] d IHd]; constructor; [apply IH|exact IHd].
Qed.

Lemma create_response_schema_dict d :
  _create_response_schema (PDict d) =
  if negb (nonempty d) then Some default_object
  else
    let declared := dict_get_default "type" PNone d in
    if is_str "array" declared then
      items <-- match dict_get "items" d with
                | Some x => _create_response_schema x
                | None => Some default_object
                end ;;
      Some (PDict [("type", PStr "array"); ("items", items)])
    else if is_str "object" declared then
      match dict_get_default "properties" (PDict []) d with
      | PDict props =>
          properties <-- convert_properties props [] ;;
          Some (PDict [("type", PStr "object"); ("properties", PDict properties)])
      | _ => None
      end
    else Some default_object.
Proof.
  cbn [_create_response_schema].
  replace (negb (truthy (PDict d))) with (negb (nonempty d))
    by (destruct d; reflexivity).
  destruct (negb (nonempty d)); [reflexivity|]. cbv zeta.
  destruct (is_str "array" (dict_get_default "type" PNone d)); [|reflexivity].
  f_equal.
  induction d as [|[k x] d IH]; [reflexivity|].
  cbn [dict_get]. destruct (String.eqb k "items"); [reflexivity|exact IH].
Qed.

Lemma schema_input_dict d :
  schema_input (PDict d) =
  let declared := dict_get_default "type" PNone d in
  if is_str "array" declared then
    match dict_get "items" d with
    | Some x => schema_input x
    | None => true
    end
  else if is_str "object" declared then
    match dict_get_default "properties" (PDict []) d with
    | PDict props => forallb (fun kv => property_input (snd kv)) props
    | _ => false
    end
  else true.
Proof.
  cbn [schema_input]. cbv zeta.
  destruct (is_str "array" (dict_get_default "type" PNone d)); [|reflexivity].
  induction d as [|[k x] d IH]; [reflexivity|].
  cbn [dict_get]. destruct (String.eqb k "items"); [reflexivity|exact IH].
Qed.

Lemma dict_get_in {V : Type} (k : string) (d : dict V) (v : V) :
  dict_get k d = Some v -> In (k, v) d.
Proof.
  induction d as [|[k' v'] d IH]; cbn [dict_get]; [discriminate|].
  destruct (String.eqb k' k) eqn:E.
  - intros [= ->]. apply String.eqb_eq in E. subst. left. reflexivity.
  - intros H. right. apply IH, H.
Qed.

Lemma convert_property_total name p :
  property_input p = true -> exists e, convert_property name p = Some e.
Proof.
  destruct p as [| | | | | |info]; try discriminate. cbn [property_input convert_property].
  destruct (dict_get_default "type" (PStr "string") info); try discriminate;
    intros _; cbn [_convert_parameter_type obind]; eauto.
Qed.

Lemma convert_properties_total props : forall acc,
  forallb (fun kv => property_input (snd kv)) props = true ->
  exists properties, convert_properties props acc = Some properties.
Proof.
  induction props as [|[name p] props IH]; intros acc H; cbn [convert_properties].
  - eauto.
  - cbn [forallb snd] in H. apply andb_true_iff in H. destruct H as [Hp Hr].
    destruct (convert_property_total name p Hp) as [e ->]. cbn [obind].
    apply IH, Hr.
Qed.

Lemma create_response_schema_total : forall v,
  schema_input v = true -> exists out, _create_response_schema v = Some out.
Proof.
  induction v as [| b | z | q | s | l _ | d IH] using pyval_nested_ind;
    try (cbn [schema_input _create_response_schema]; intros ->; eauto; fail).
  rewrite schema_input_dict, create_response_schema_dict. cbv zeta.
  destruct (negb (nonempty d)); [eauto|].
  destruct (is_str "array" (dict_get_default "type" PNone d)).
  - destruct (dict_get "items" d) as [x|] eqn:Hx; [|cbn [obind]; eauto].
    intros Hin. apply dict_get_in in Hx.
    rewrite List.Forall_forall in IH. specialize (IH _ Hx Hin). cbn [snd] in IH.
    destruct IH as [out ->]. cbn [obind]. eauto.
  - destruct (is_str "object" (dict_get_default "type" PNone d)); [|eauto].
    destruct (dict_get_default "properties" (PDict []) d); try discriminate.
    intros H. destruct (convert_properties_total _ [] H) as [ps ->].
    cbn [obind]. eauto.
Qed.


Lemma dict_set_forallb {V : Type} (p : string * V -> bool) k (v : V) (d : dict V) :
  (forall k', p (k', v) = true) ->
  (forall k1 k2 x, p (k1, x) = p (k2, x)) ->
  forallb p d = true -> forallb p (dict_set k v d) = true.
Proof.
  intros Hv Hk. induction d as [|[k' v'] d IH]; cbn [dict_set forallb].
  - intros _. rewrite Hv. reflexivity.
  - intros H. apply andb_true_iff in H. destruct H as [H1 H2].
    destruct (String.eqb k' k); cbn [forallb].
    + rewrite Hv, H2. reflexivity.
    + rewrite H1, (IH H2). reflexivity.
Qed.

Lemma inferred_properties_input (d : dict pyval) : forall acc,
  forallb (fun kv => property_input (snd kv)) acc = true ->
  forallb (fun kv => property_input (snd kv))
    (fold_left
       (fun props kv =>
          dict_set (fst kv)
            (PDict [("type", PStr (_infer_type_comprehensive (snd kv)));
                    ("example", snd kv)])
            props)
       d acc) = true.
Proof.
  induction d as [|[k v] d IH]; intros acc H; cbn [fold_left]; [exact H|].
  apply IH. apply dict_set_forallb; auto.
Qed.

Lemma inferred_object_input obj s :
  _infer_object_schema_comprehensive obj = Some s -> schema_input s = true.
Proof.
  destruct obj as [| | | | | |d]; try discriminate.
  intros [= <-]. rewrite schema_input_dict.
  cbn -[fold_left forallb]. apply inferred_properties_input. reflexivity.
Qed.

Lemma analyzed_schema_input r :
  schema_input (_analyze_response_schema_comprehensive r) = true.
Proof.
  unfold _analyze_response_schema_comprehensive.
  destruct (_safe_json r) as [| b | z | q | s | [|first rest] | d] eqn:E;
    try reflexivity.
  - destruct (_infer_object_schema_comprehensive first) as [items|] eqn:Hi;
      [|reflexivity].
    rewrite schema_input_dict. cbn -[schema_input].
    apply (inferred_object_input _ _ Hi).
  - destruct (_infer_object_schema_comprehensive (PDict d)) as [s|] eqn:Hs;
      [|reflexivity].
    apply (inferred_object_input _ _ Hs).
Qed.







(** ** From the profiler to the emitted parameters *)

Lemma dict_get_set {V : Type} (k n : string) (x : V) (d : dict V) :
  dict_get n (dict_set k x d) = if String.eqb k n then Some x else dict_get n d.
Proof.
  induction d as [|[k' v'] d IH]; cbn [dict_set dict_get].
  - destruct (String.eqb k n); reflexivity.
  - destruct (String.eqb k' k) eqn:E; cbn [dict_get].
    + apply String.eqb_eq in E. subst k'. destruct (String.eqb k n); reflexivity.
    + rewrite IH. destruct (String.eqb k' n) eqn:E'; [|reflexivity].
      apply String.eqb_eq in E'. subst k'.
      rewrite String.eqb_sym in E. rewrite E. reflexivity.
Qed.

Lemma dict_set_keys_in {V : Type} (k n : string) (x : V) (d : dict V) :
  In n (dict_keys (dict_set k x d)) -> n = k \/ In n (dict_keys d).
Proof.
  induction d as [|[k' v'] d IH]; cbn [dict_set dict_keys map fst In].
  - intros [<-|[]]. left. reflexivity.
  - destruct (String.eqb k' k) eqn:E; cbn [map fst In].
    + intros [H|H]; right; [left|right]; assumption.
    + intros [H|H]; [right; left; exact H|].
      destruct (IH H) as [->|H']; [left; reflexivity|right; right; exact H'].
Qed.

Lemma dict_set_nodup {V : Type} (k : string) (x : V) (d : dict V) :
  List.NoDup (dict_keys d) -> List.NoDup (dict_keys (dict_set k x d)).
Proof.
  induction d as [|[k' v'] d IH]; cbn [dict_set dict_keys map fst]; intros Hnd.
  - constructor; [intros []|constructor].
  - destruct (String.eqb k' k) eqn:E; cbn [map fst]; [exact Hnd|].
    inversion Hnd as [|? ? Hnotin Hnd']; subst.
    constructor; [|apply IH, Hnd'].
    intros Hin. apply dict_set_keys_in in Hin. destruct Hin as [->|Hin].
    + rewrite String.eqb_refl in E. discriminate.
    + apply Hnotin, Hin.
Qed.

Lemma profile_consistent url method param_name info w :
  consistent
    (pa_parameter_info (fst (_analyze_parameter_comprehensive url method param_name info w)))
    (pa_validation_info (fst (_analyze_parameter_comprehensive url method param_name info w))).
Proof.
  pose proof (profile_spec url method param_name info w) as H. cbn zeta in H.
  destruct H as (_ & _ & Hq & _ & Hp). unfold consistent.
  rewrite Hp. cbn [pi_accepted pi_required]. rewrite Hq.
  destruct (accepted_values _); [|intros _; apply andb_false_r].
  intros [H|H]; [discriminate|congruence].
Qed.

Lemma profiled_set name p v ps vs :
  consistent p v -> profiled ps vs ->
  profiled (dict_set name p ps) (dict_set name v vs).
Proof.
  intros Hc [Hnd Hall]. split; [apply dict_set_nodup, Hnd|].
  intros n q. rewrite !dict_get_set. destruct (String.eqb name n).
  - intros [= <-]. eauto.
  - apply Hall.
Qed.

Lemma analyze_method_profiled endpoint method w :
  let m := fst (_analyze_method_comprehensive endpoint method w) in
  profiled (ma_parameters m) (ma_parameter_validation m)
  /\ schema_input (ma_response_schema m) = true.
Proof.
  cbn zeta. unfold _analyze_method_comprehensive.
  rewrite bind_run. cbn [fst snd]. rewrite bind_run.
  match goal with
  | |- context [for_each (parameter_variations g) ?acc0 ?body ?w0] =>
      assert (profiled (fst (fst (for_each (parameter_variations g) acc0 body w0)))
                (snd (fst (for_each (parameter_variations g) acc0 body w0)))) as Hpv;
      [|set (loop := for_each (parameter_variations g) acc0 body w0) in *]
  end.
  { apply (for_each_invariant (fun acc => profiled (fst acc) (snd acc))).
    - intros acc [name info] w' Hacc. rewrite bind_run. cbn [ret fst snd].
      apply profiled_set; [apply profile_consistent|exact Hacc].
    - split; [constructor|]. intros n q. discriminate. }
  rewrite bind_run. cbn [ret fst snd ma_parameters ma_parameter_validation ma_response_schema].
  split; [exact Hpv|].
  destruct (String.eqb method "GET"); [|reflexivity].
  rewrite bind_run. cbn [ret fst].
  destruct (fst (session_get _ _)) as [resp|e]; [|reflexivity].
  destruct (status_code resp =? 200); [|reflexivity].
  apply analyzed_schema_input.
Qed.

Lemma analyze_endpoint_profiled endpoint w :
  profiled_analysis (fst (analyze_endpoint endpoint w)).
Proof.
  unfold analyze_endpoint. rewrite bind_run.
  apply (for_each_invariant profiled_analysis).
  - intros a method w' [Hp Hs]. rewrite bind_run. cbn [ret fst].
    destruct (analyze_method_profiled endpoint method w') as [Hm Hi].
    cbn zeta in Hm, Hi.
    set (m := fst (_analyze_method_comprehensive endpoint method w')) in *.
    split.
    + intros n. cbn [store_method ea_parameters ea_parameter_validation].
      rewrite !dict_get_set. destruct (String.eqb method n); [eauto|apply Hp].
    + intros n s. cbn [store_method ea_response_schema].
      rewrite dict_get_set. destruct (String.eqb method n); [|apply Hs].
      intros [= <-]. exact Hi.
  - split; [intros m; reflexivity|]. intros m s. discriminate.
Qed.

Lemma dict_get_dump {V : Type} (f : V -> pyval) (k : string) (d : dict V) :
  dict_get k (map (fun kv => (fst kv, f (snd kv))) d) = option_map f (dict_get k d).
Proof.
  induction d as [|[k' v] d IH]; [reflexivity|].
  cbn [map dict_get fst snd]. destruct (String.eqb k' k); [reflexivity|exact IH].
Qed.

Lemma py_get_dump {V : Type} (f : V -> pyval) (k : string) (d : dict V) :
  py_get k (PDict []) (dump_dict f d) =
  Some match dict_get k d with Some x => f x | None => PDict [] end.
Proof.
  unfold dump_dict, py_get, dict_get_default. rewrite dict_get_dump.
  destruct (dict_get k d); reflexivity.
Qed.

Lemma in_dict_get {V : Type} (k : string) (v : V) (d : dict V) :
  List.NoDup (dict_keys d) -> In (k, v) d -> dict_get k d = Some v.
Proof.
  induction d as [|[k' v'] d IH]; intros Hnd Hin; [destruct Hin|].
  cbn [dict_keys map fst] in Hnd. inversion Hnd as [|? ? Hnotin Hnd']; subst.
  cbn [dict_get]. destruct Hin as [[= -> ->]|Hin].
  - rewrite String.eqb_refl. reflexivity.
  - destruct (String.eqb k' k) eqn:E; [|apply IH; assumption].
    apply String.eqb_eq in E. subst k'. exfalso. apply Hnotin.
    apply (in_map fst) in Hin. exact Hin.
Qed.

Lemma strings_of_dump (l : list string) : strings_of (map PStr l) = Some l.
Proof.
  induction l as [|s l IH]; [reflexivity|]. cbn [map strings_of]. rewrite IH. reflexivity.
Qed.

Lemma truthy_dump {V : Type} (f : V -> pyval) (d : dict V) :
  truthy (dump_dict f d) = nonempty d.
Proof. destruct d; reflexivity. Qed.

Lemma create_parameter_schema_dump p :
  exists sd, _create_parameter_schema (dump_parameter_info p) = Some (PDict sd).
Proof. eexists. reflexivity. Qed.

Lemma create_parameter_dump vs name p v :
  dict_get name vs = Some v -> consistent p v ->
  create_parameter (dump_dict dump_validation_info vs) name (dump_parameter_info p)
  = Some None
  \/ exists param_obj,
       create_parameter (dump_dict dump_validation_info vs) name (dump_parameter_info p)
       = Some (Some param_obj)
       /\ not_required param_obj.
Proof.
  intros Hv Hc. unfold create_parameter.
  change (py_get "accepted" (PBool false) (dump_parameter_info p))
    with (Some (PBool (pi_accepted p))).
  cbn [obind]. rewrite py_get_dump, Hv. cbn [obind].
  change (py_get "accepted_values" (PList []) (dump_validation_info v))
    with (Some (dump_strings (accepted_values v))).
  cbn [obind dump_strings py_len truthy]. rewrite length_map.
  destruct (pi_accepted p || (0 <? length (accepted_values v))%nat) eqn:Hincl;
    [right|left; reflexivity].
  assert (pi_required p = false) as Hreq.
  { apply Hc. apply orb_true_iff in Hincl. destruct Hincl as [H|H]; [left; exact H|].
    right. destruct (accepted_values v); [discriminate|congruence]. }
  change (py_get "required" (PBool false) (dump_parameter_info p))
    with (Some (PBool (pi_required p))).
  rewrite Hreq. cbn [obind].
  destruct (create_parameter_schema_dump p) as [sd ->]. cbn [obind].
  change (py_get "accepted_values" PNone (dump_validation_info v))
    with (Some (dump_strings (accepted_values v))).
  cbn [obind dump_strings truthy].
  destruct (accepted_values v) as [|x l] eqn:Hl.
  - cbn [map obind]. eexists. split; reflexivity.
  - rewrite <- Hl. unfold accepted_description, dump_strings.
    rewrite firstn_map, strings_of_dump.
    replace (match map PStr (accepted_values v) with [] => false | _ :: _ => true end)
      with true by (rewrite Hl; reflexivity).
    cbn [obind]. eexists. split; reflexivity.
Qed.

Lemma create_parameters_dump vs ps : forall acc,
  (forall name p, In (name, p) ps ->
     exists v, dict_get name vs = Some v /\ consistent p v) ->
  List.Forall not_required acc ->
  exists params,
    create_parameters (dump_dict dump_validation_info vs)
      (map (fun kv => (fst kv, dump_parameter_info (snd kv))) ps) acc = Some params
    /\ List.Forall not_required params.
Proof.
  induction ps as [|[name p] ps IH]; intros acc Hall Hacc; cbn [map create_parameters fst snd].
  - eauto.
  - destruct (Hall name p (or_introl eq_refl)) as (v & Hv & Hc).
    destruct (create_parameter_dump vs name p v Hv Hc) as [->|(obj & -> & Hobj)];
      cbn [obind]; apply IH; auto.
    + intros n q Hin. apply Hall. right. exact Hin.
    + intros n q Hin. apply Hall. right. exact Hin.
    + apply List.Forall_app. split; [exact Hacc|]. constructor; [exact Hobj|constructor].
Qed.

Lemma create_operation_dump endpoint method a :
  profiled_analysis a ->
  exists operation,
    _create_operation endpoint method (dump_endpoint_analysis a) = Some operation
    /\ List.Forall not_required (operation_parameters operation).
Proof.
  intros [Hp Hs]. unfold _create_operation.
  change (py_get "parameters" (PDict []) (dump_endpoint_analysis a))
    with (Some (dump_dict (dump_dict dump_parameter_info) (ea_parameters a))).
  change (py_get "response_schema" (PDict []) (dump_endpoint_analysis a))
    with (Some (dump_dict (fun schema => schema) (ea_response_schema a))).
  change (py_get "parameter_validation" (PDict []) (dump_endpoint_analysis a))
    with (Some (dump_dict (dump_dict dump_validation_info) (ea_parameter_validation a))).
  cbn [obind]. rewrite !py_get_dump. cbn [obind].
  assert (exists schema,
            _create_response_schema
              match dict_get method (ea_response_schema a) with
              | Some x => x
              | None => PDict []
              end = Some schema) as [schema ->].
  { apply create_response_schema_total.
    destruct (dict_get method (ea_response_schema a)) as [s|] eqn:E; [|reflexivity].
    apply (Hs _ _ E). }
  cbn [obind].
  set (base := [("summary", _); ("description", _); ("operationId", _);
                ("tags", _); ("responses", _)]).
  specialize (Hp method).
  destruct (dict_get method (ea_parameters a)) as [ps|].
  - destruct Hp as (vs & -> & Hnd & Hall).
    rewrite truthy_dump.
    destruct (create_parameters_dump vs ps []) as (params & Hc & Hf).
    { intros name p Hin. apply Hall. apply in_dict_get; assumption. }
    { constructor. }
    destruct (nonempty ps).
    + unfold dump_dict at 1. rewrite Hc. cbn [obind].
      destruct (PyStr.mem method ["POST"; "PUT"; "PATCH"]);
        eexists; (split; [reflexivity|]); exact Hf.
    + cbn [obind].
      destruct (PyStr.mem method ["POST"; "PUT"; "PATCH"]);
        eexists; (split; [reflexivity|]); constructor.
  - rewrite Hp. cbn [truthy obind].
    destruct (PyStr.mem method ["POST"; "PUT"; "PATCH"]);
      eexists; (split; [reflexivity|]); constructor.
Qed.

Lemma dict_set_Forall {V : Type} (P : V -> Prop) k (v : V) (d : dict V) :
  P v -> List.Forall P (dict_values d) -> List.Forall P (dict_values (dict_set k v d)).
Proof.
  intros Hv. induction d as [|[k' v'] d IH]; cbn [dict_set dict_values map snd]; intros H.
  - constructor; [exact Hv|constructor].
  - inversion H as [|? ? H1 H2]; subst.
    destruct (String.eqb k' k); cbn [map snd]; constructor; auto.
Qed.

Lemma create_path_dump endpoint a : profiled_analysis a ->
  forall methods path_obj,
    List.Forall good_operation (dict_values path_obj) ->
    exists path_obj',
      create_path endpoint (dump_endpoint_analysis a) methods path_obj = Some path_obj'
      /\ List.Forall good_operation (dict_values path_obj').
Proof.
  intros Ha. induction methods as [|method methods IH]; intros path_obj Hp;
    cbn [create_path].
  - eauto.
  - destruct (create_operation_dump endpoint method a Ha) as (op & -> & Hop).
    cbn [obind]. apply IH. apply dict_set_Forall; assumption.
Qed.

Lemma good_paths_set endpoint path_obj paths :
  List.Forall good_operation (dict_values path_obj) ->
  good_paths paths -> good_paths (dict_set endpoint (PDict path_obj) paths).
Proof.
  unfold good_paths. intros Hp.
  induction paths as [|[k v] paths IH]; cbn [dict_set dict_values map snd flat_map]; intros H.
  - rewrite app_nil_r. exact Hp.
  - apply List.Forall_app in H. destruct H as [H1 H2].
    destruct (String.eqb k endpoint); cbn [map snd flat_map];
      apply List.Forall_app; split; auto.
Qed.

Lemma create_paths_dump (endpoints : dict endpoint_analysis) :
  List.Forall profiled_analysis (dict_values endpoints) ->
  forall paths tags,
    good_paths paths ->
    exists paths' tags',
      create_paths (map (fun kv => (fst kv, dump_endpoint_analysis (snd kv))) endpoints)
        paths tags = Some (paths', tags')
      /\ good_paths paths'.
Proof.
  induction endpoints as [|[endpoint a] endpoints IH]; intros Hall paths tags Hp;
    cbn [map fst snd create_paths].
  - eauto.
  - cbn [dict_values map snd] in Hall. inversion Hall as [|? ? Ha Hrest]; subst.
    change (py_get "status" PNone (dump_endpoint_analysis a))
      with (Some (PStr (ea_status a))).
    cbn [obind]. destruct (negb (is_str "success" (PStr (ea_status a)))).
    + apply IH; assumption.
    + change (py_get "methods" (PList []) (dump_endpoint_analysis a))
        with (Some (dump_strings (ea_methods a))).
      cbn [obind dump_strings iterate]. rewrite strings_of_dump. cbn [obind].
      destruct (create_path_dump endpoint a Ha (ea_methods a) [])
        as (path_obj & -> & Hpo); [constructor|].
      cbn [obind]. apply IH; [assumption|]. apply good_paths_set; assumption.
Qed.

Lemma analyses_profiled endpoints : forall analyses w,
  List.Forall profiled_analysis (dict_values analyses) ->
  List.Forall profiled_analysis
    (dict_values
       (fst (for_each endpoints analyses
               (fun analyses endpoint =>
                  analysis <- analyze_endpoint endpoint ;;
                  ret (dict_set endpoint analysis analyses)) w))).
Proof.
  intros analyses w H.
  apply (for_each_invariant
           (fun acc => List.Forall profiled_analysis (dict_values acc))); [|exact H].
  intros acc e w' Hacc. rewrite bind_run. cbn [ret fst].
  apply dict_set_Forall; [apply analyze_endpoint_profiled|exact Hacc].
Qed.

(** C9.  From the analysis the engine produces, for any service, the
    emitter produces a document, and every query parameter object of
    every operation in it has [required: false]. *)
Theorem emitted_parameters_not_required (now : string) (script : list outcome) :
  exists spec,
    generate_swagger_spec (dump_analysis (run (generate_analysis now) script)) = Some spec
    /\ List.Forall
         (fun operation => List.Forall not_required (operation_parameters operation))
         (spec_operations spec).
Proof.
  unfold run, generate_analysis. rewrite bind_run.
  destruct (negb (nonempty (fst (discover_endpoints _)))).
  - cbn [ret fst dump_analysis]. eexists. split; [reflexivity|]. constructor.
  - rewrite bind_run. cbn [ret fst dump_analysis].
    match goal with
    | |- context [for_each ?eps [] ?body ?w] =>
        pose proof (analyses_profiled eps [] w (List.Forall_nil _)) as Hall;
        set (analyses := fst (for_each eps [] body w)) in *
    end.
    unfold generate_swagger_spec. cbn [truthy negb].
    cbn [py_get dict_get_default dict_get String.eqb Ascii.eqb Bool.eqb obind dump_metadata].
    unfold dump_dict at 1.
    destruct (create_paths_dump analyses Hall [] []) as (paths & tags & -> & Hp);
      [constructor|].
    cbn [obind fst snd]. eexists. split; [reflexivity|]. exact Hp.
Qed.



(** ** Discovery and the summary *)

Lemma list_set_nodup (l : list string) : List.NoDup (list_set l).
Proof. unfold list_set. apply NoDup_ListNoDup, NoDup_elements. Qed.

(** Catalog mode returns a de-duplicated list. *)
Lemma discover_endpoints_catalog_nodup w :
  is_custom = false -> List.NoDup (fst (discover_endpoints w)).
Proof.
  unfold is_custom, discover_endpoints.
  destruct (custom_endpoints g) as [[|e es]|]; try discriminate; intros _;
    rewrite !bind_run; cbn [ret fst]; apply list_set_nodup.
Qed.

Lemma confirm_run acc endpoint w :
  confirm acc endpoint w =
  (acc ++ match head (pending w) with
          | Some (Resp r) => if _is_valid_endpoint r then [endpoint] else []
          | _ => []
          end,
   {| pending := tl (pending w);
      sent := sent w ++ [{| rq_method := "GET";
                            rq_url := base_url g +:+ endpoint;
                            rq_params := [] |}] |}).
Proof.
  unfold confirm, session_get. rewrite bind_run, session_request_run.
  cbn [ret fst snd].
  destruct (pending w) as [|[r|err] rest]; cbn [head]; rewrite ?app_nil_r;
    try reflexivity.
  destruct (_is_valid_endpoint r); rewrite ?app_nil_r; reflexivity.
Qed.

Lemma confirm_loop endpoints : forall acc w,
  fst (for_each endpoints acc
         (fun discovered endpoint => confirm discovered (normalize endpoint)) w)
  = acc ++ confirmed endpoints (pending w).
Proof.
  induction endpoints as [|e es IH]; intros acc w; cbn [for_each confirmed].
  - cbn [ret fst]. rewrite app_nil_r. reflexivity.
  - rewrite bind_run, confirm_run. cbn [fst snd]. rewrite IH. cbn [pending].
    rewrite <- app_assoc. reflexivity.
Qed.

Lemma discover_endpoints_explicit e es script :
  custom_endpoints g = Some (e :: es) ->
  run discover_endpoints script = confirmed (e :: es) script.
Proof.
  intros H. unfold run, discover_endpoints. rewrite H.
  rewrite confirm_loop. reflexivity.
Qed.

(** The discovery rate is computed against the pattern catalog whatever
    the mode. *)
Lemma summary_discovery_rate_catalog endpoints analyses :
  endpoint_patterns g <> [] ->
  discovery_rate (_generate_comprehensive_summary endpoints analyses)
  = percent (length endpoints) (length (endpoint_patterns g)).
Proof.
  intros H. cbn [_generate_comprehensive_summary discovery_rate].
  unfold summary_discovery_rate.
  destruct (endpoint_patterns g); [congruence|reflexivity].
Qed.



(** ** The requests a run issues *)

Lemma test_values_loop_sent url method param_name values : forall vi w,
  sent (snd (for_each values vi
               (fun vi test_value =>
                  r <- session_request method url [(param_name, test_value)] ;;
                  ret match r with
                      | inl resp => bucket_probe (status_code resp) test_value vi
                      | inr _ => vi
                      end) w))
  = sent w ++ map (probe_request method url param_name) values.
Proof.
  induction values as [|v vs IH]; intros vi w; cbn [for_each map].
  - cbn [ret snd]. rewrite app_nil_r. reflexivity.
  - rewrite !bind_run, session_request_run. cbn [fst snd ret].
    rewrite IH. cbn [sent]. rewrite <- app_assoc. reflexivity.
Qed.

Lemma skipn_tl {A : Type} n (l : list A) : skipn n (tl l) = skipn (S n) l.
Proof. destruct l; simpl; [rewrite skipn_nil|]; reflexivity. Qed.

Lemma tl_skipn {A : Type} n : forall l : list A, tl (skipn n l) = skipn (S n) l.
Proof.
  induction n as [|n IH]; intros [|a l]; try reflexivity.
  cbn [skipn]. rewrite IH. reflexivity.
Qed.

Lemma profile_run url method param_name info w :
  sent (snd (_analyze_parameter_comprehensive url method param_name info w))
  = sent w ++ map (probe_request method url param_name) (probed_values info)
  /\ pending (snd (_analyze_parameter_comprehensive url method param_name info w))
     = skipn (length (probed_values info)) (pending w).
Proof.
  unfold _analyze_parameter_comprehensive, probed_values.
  rewrite bind_run, session_request_run. cbn [fst snd].
  rewrite bind_run.
  match goal with
  | |- context [for_each (p_test_values info) ?vi0 ?body ?w0] =>
      pose proof (test_values_loop_sent url method param_name (p_test_values info) vi0 w0) as Hs;
      pose proof (test_values_loop url method param_name (p_test_values info) vi0 w0) as Hp;
      cbn zeta in Hp; destruct Hp as (_ & _ & _ & Hp);
      set (loop := for_each (p_test_values info) vi0 body w0) in *
  end.
  rewrite bind_run, session_request_run. cbn [fst snd ret].
  rewrite Hs, Hp. cbn [sent pending]. split.
  - cbn [map]. rewrite map_app. cbn [map app].
    rewrite <- !app_assoc. reflexivity.
  - cbn [length]. rewrite length_app. cbn [length].
    replace (S (length (p_test_values info) + 1))
      with (S (S (length (p_test_values info)))) by lia.
    rewrite skipn_tl, tl_skipn. reflexivity.
Qed.

(** X1.  The profiler issues exactly one request per value, in the order
    default value, test values, error value, each carrying the parameter
    alone, whatever the service answers: two requests more than the
    entry has test values. *)
Theorem profiler_requests url method param_name info w :
  sent (snd (_analyze_parameter_comprehensive url method param_name info w))
  = sent w ++ map (probe_request method url param_name) (probed_values info)
  /\ pending (snd (_analyze_parameter_comprehensive url method param_name info w))
     = skipn (length (probed_values info)) (pending w)
  /\ length (sent (snd (_analyze_parameter_comprehensive url method param_name info w)))
     = (length (sent w) + 2 + length (p_test_values info))%nat.
Proof.
  destruct (profile_run url method param_name info w) as [Hs Hp].
  split; [exact Hs|]. split; [exact Hp|].
  rewrite Hs, length_app, length_map. unfold probed_values.
  cbn [length]. rewrite length_app. cbn [length]. lia.
Qed.

Lemma for_each_count {A S : Type} (cost : A -> nat) (body : S -> A -> M S) :
  (forall acc x w,
     length (sent (snd (body acc x w))) = (length (sent w) + cost x)%nat) ->
  forall l acc w,
    length (sent (snd (for_each l acc body w)))
    = (length (sent w) + list_sum (map cost l))%nat.
Proof.
  intros Hbody. induction l as [|x l IH]; intros acc w; cbn [for_each map].
  - cbn [ret snd]. simpl. lia.
  - rewrite bind_run, IH, Hbody. simpl. lia.
Qed.

Lemma session_request_count method url params w :
  length (sent (snd (session_request method url params w))) = S (length (sent w)).
Proof. rewrite session_request_run. cbn [snd sent]. rewrite length_app. simpl. lia. Qed.

Lemma method_run_count endpoint method w :
  length (sent (snd (_analyze_method_comprehensive endpoint method w)))
  = (length (sent w) + method_requests method)%nat.
Proof.
  unfold _analyze_method_comprehensive, method_requests.
  rewrite bind_run, bind_run. cbn [fst snd].
  match goal with
  | |- context [for_each (parameter_variations g) ?acc0 ?body ?w0] =>
      assert (forall acc x w',
                length (sent (snd (body acc x w')))
                = (length (sent w') + length (probed_values (snd x)))%nat) as Hbody;
      [|pose proof (for_each_count
                      (fun entry => length (probed_values (snd entry))) body Hbody
                      (parameter_variations g) acc0 w0) as Hc;
        set (loop := for_each (parameter_variations g) acc0 body w0) in *]
  end.
  { intros acc x w'. cbv beta. rewrite bind_run. cbn [ret snd].
    rewrite (proj1 (profile_run _ _ _ _ _)), length_app, length_map.
    reflexivity. }
  rewrite session_request_count in Hc.
  rewrite bind_run. cbn [ret snd].
  destruct (String.eqb method "GET").
  - rewrite bind_run. cbn [ret snd]. unfold session_get.
    rewrite session_request_count, Hc. lia.
  - cbn [ret snd]. rewrite Hc. lia.
Qed.



(** ** Method detection and the printed reasons *)

Lemma discover_methods_run endpoint w :
  fst (_discover_methods endpoint w) =
  match probe_valid (head (pending w)), probe_valid (head (tl (pending w))) with
  | true, true => ["GET"; "POST"]
  | true, false => ["GET"]
  | false, true => ["POST"]
  | false, false => ["GET"]
  end.
Proof.
  unfold _discover_methods, test_methods. cbn [for_each].
  rewrite !bind_run, !session_request_run. cbn [fst snd ret pending].
  destruct (pending w) as [|[r1|e1] [|[r2|e2] rest]]; cbn [head tl probe_valid];
    repeat match goal with
           | |- context [_is_valid_endpoint ?r] => destruct (_is_valid_endpoint r)
           end; reflexivity.
Qed.

Lemma discover_methods_count endpoint w :
  length (sent (snd (_discover_methods endpoint w))) = (length (sent w) + 2)%nat.
Proof.
  unfold _discover_methods, test_methods. cbn [for_each].
  rewrite !bind_run, !session_request_run. cbn [fst snd ret sent].
  rewrite !length_app. simpl. lia.
Qed.

(** X3.  Method detection asks GET and then POST, once each, and
    returns the methods whose probe was accepted, in that order: GET,
    POST or both, never an empty list and never a repetition.  POST is
    in the result exactly when its probe was accepted; GET is in it when
    its probe was accepted and also when no probe was, so a result of
    GET alone does not tell that GET was confirmed. *)
Theorem discover_methods_result endpoint w :
  fst (_discover_methods endpoint w)
  = match (if probe_valid (head (pending w)) then ["GET"] else [])
          ++ (if probe_valid (head (tl (pending w))) then ["POST"] else []) with
    | [] => ["GET"]
    | found => found
    end
  /\ sent (snd (_discover_methods endpoint w))
     = sent w ++ [{| rq_method := "GET"; rq_url := base_url g +:+ endpoint;
                     rq_params := [] |};
                  {| rq_method := "POST"; rq_url := base_url g +:+ endpoint;
                     rq_params := [] |}]
  /\ fst (_discover_methods endpoint w) <> []
  /\ List.NoDup (fst (_discover_methods endpoint w))
  /\ (forall m, In m (fst (_discover_methods endpoint w)) -> m = "GET" \/ m = "POST")
  /\ (In "POST" (fst (_discover_methods endpoint w))
      <-> probe_valid (head (tl (pending w))) = true)
  /\ (In "GET" (fst (_discover_methods endpoint w))
      <-> probe_valid (head (pending w)) = true
          \/ probe_valid (head (tl (pending w))) = false)
  /\ length (sent (snd (_discover_methods endpoint w))) = (length (sent w) + 2)%nat.
Proof.
  assert (sent (snd (_discover_methods endpoint w))
          = sent w ++ [{| rq_method := "GET"; rq_url := base_url g +:+ endpoint;
                          rq_params := [] |};
                       {| rq_method := "POST"; rq_url := base_url g +:+ endpoint;
                          rq_params := [] |}]) as Hsent.
  { unfold _discover_methods, test_methods. cbn [for_each].
    rewrite !bind_run, !session_request_run. cbn [fst snd ret sent].
    rewrite <- app_assoc. reflexivity. }
  rewrite discover_methods_run.
  pose proof (discover_methods_count endpoint w) as Hlen.
  destruct (probe_valid (head (pending w))), (probe_valid (head (tl (pending w))));
    (split; [reflexivity|]);
    (split; [exact Hsent|]);
    (split; [discriminate|]);
    (split; [repeat constructor; simpl; intuition discriminate|]);
    (split; [simpl; intuition auto|]);
    (split; [simpl; intuition (discriminate || auto)|]);
    (split; [simpl; intuition (discriminate || auto)|exact Hlen]).
Qed.

(** X4.  The accept-set of the classifier and the wording of the reasons
    do not coincide: the classifier accepts exactly the statuses of
    [valid_status_codes]; the reason says "Endpoint exists" exactly for
    200, 401, 403, 405, 422, 400, 500 and 503, so for three statuses the
    classifier refuses and not for 201, 202, 204 and 429 that it accepts;
    and it says "Endpoint does not exist" for 404 only. *)
Theorem validation_reason_and_classifier (r : response) :
  (_is_valid_endpoint r = true <-> In (status_code r) valid_status_codes)
  /\ (PyStr.startswith "Endpoint exists" (_get_endpoint_validation_reason r) = true
      <-> In (status_code r) [200; 401; 403; 405; 422; 400; 500; 503])
  /\ (_get_endpoint_validation_reason r = "Endpoint does not exist"
      <-> status_code r = 404).
Proof.
  unfold _is_valid_endpoint, _get_endpoint_validation_reason, valid_status_codes,
    status_in.
  cbv zeta. generalize (status_code r) as s. intros s.
  split; [|split].
  - cbn [existsb In].
    repeat match goal with
           | |- context [s =? ?k] =>
               destruct (Z.eqb_spec s k); [subst; simpl; intuition (lia || auto)|]
           end.
    simpl. intuition (lia || discriminate).
  - cbn [In]. unfold PyStr.startswith.
    repeat match goal with
           | |- context [s =? ?k] =>
               destruct (Z.eqb_spec s k);
               [subst; simpl; split; intros H;
                first [discriminate | reflexivity | lia | auto 10] |]
           end.
    simpl. split; [discriminate|lia].
  - repeat match goal with
           | |- context [s =? ?k] =>
               destruct (Z.eqb_spec s k);
               [subst; split; intros H; first [discriminate | reflexivity | lia] |]
           end.
    simpl. split; [discriminate|lia].
Qed.



(** ** Endpoint lists: stripping and normalisation *)

Lemma rstrip_cons c s :
  PyStr.rstrip (String c s)
  = match PyStr.rstrip s with
    | EmptyString => if PyStr.isspace c then EmptyString else String c EmptyString
    | r => String c r
    end.
Proof. reflexivity. Qed.

Lemma rstrip_idempotent s : PyStr.rstrip (PyStr.rstrip s) = PyStr.rstrip s.
Proof.
  induction s as [|c s IH]; [reflexivity|].
  rewrite rstrip_cons. destruct (PyStr.rstrip s) as [|a r] eqn:E.
  - destruct (PyStr.isspace c) eqn:Hc; [reflexivity|].
    rewrite rstrip_cons. cbn [PyStr.rstrip]. rewrite Hc. reflexivity.
  - rewrite rstrip_cons, IH. reflexivity.
Qed.

Lemma lstrip_head s :
  PyStr.lstrip s = EmptyString
  \/ exists c t, PyStr.lstrip s = String c t /\ PyStr.isspace c = false.
Proof.
  induction s as [|c s IH]; [left; reflexivity|].
  cbn [PyStr.lstrip]. destruct (PyStr.isspace c) eqn:Hc; [exact IH|].
  right. eauto.
Qed.

Lemma rstrip_head c t :
  PyStr.isspace c = false -> exists r, PyStr.rstrip (String c t) = String c r.
Proof.
  intros Hc. rewrite rstrip_cons. destruct (PyStr.rstrip t); [rewrite Hc|]; eauto.
Qed.

Lemma strip_idempotent s : PyStr.strip (PyStr.strip s) = PyStr.strip s.
Proof.
  unfold PyStr.strip.
  destruct (lstrip_head s) as [->|(c & t & -> & Hc)]; [reflexivity|].
  destruct (rstrip_head c t Hc) as [r Hr].
  assert (PyStr.lstrip (PyStr.rstrip (String c t)) = PyStr.rstrip (String c t)) as ->.
  { rewrite Hr. cbn [PyStr.lstrip]. rewrite Hc. reflexivity. }
  apply rstrip_idempotent.
Qed.

Lemma strip_slash t :
  PyStr.strip t = t -> PyStr.strip ("/" +:+ t) = "/" +:+ t.
Proof.
  intros Ht. change ("/" +:+ t) with (String "/"%char t).
  unfold PyStr.strip in *.
  change (PyStr.lstrip (String "/" t)) with (String "/"%char t).
  assert (PyStr.rstrip t = t) as Hr.
  { rewrite <- Ht at 1. rewrite rstrip_idempotent. exact Ht. }
  rewrite rstrip_cons, Hr. destruct t; reflexivity.
Qed.

Lemma startswith_slash t : PyStr.startswith "/" ("/" +:+ t) = true.
Proof.
  change ("/" +:+ t) with (String "/"%char t). unfold PyStr.startswith.
  cbn. destruct t; reflexivity.
Qed.

Lemma normalize_stripped e :
  PyStr.strip e = e ->
  normalize e = if PyStr.startswith "/" e then e else "/" +:+ e.
Proof.
  intros H. unfold normalize. rewrite H.
  destruct (PyStr.startswith "/" e); reflexivity.
Qed.

Lemma normalize_shape endpoint :
  PyStr.startswith "/" (normalize endpoint) = true
  /\ PyStr.strip (normalize endpoint) = normalize endpoint.
Proof.
  unfold normalize.
  destruct (PyStr.startswith "/" (PyStr.strip endpoint)) eqn:E; cbn [negb].
  - split; [exact E|apply strip_idempotent].
  - split; [apply startswith_slash|apply strip_slash, strip_idempotent].
Qed.

Lemma normalize_fixed x :
  PyStr.startswith "/" x = true -> PyStr.strip x = x -> normalize x = x.
Proof. intros Hs Ht. rewrite (normalize_stripped _ Ht), Hs. reflexivity. Qed.

(** X5.  Normalisation of a caller-supplied endpoint gives a path that
    begins with a slash and has no white space around it, and it leaves
    such a path as it is: normalising twice is normalising once. *)
Theorem normalize_idempotent (endpoint : string) :
  PyStr.startswith "/" (normalize endpoint) = true
  /\ PyStr.strip (normalize endpoint) = normalize endpoint
  /\ normalize (normalize endpoint) = normalize endpoint.
Proof.
  destruct (normalize_shape endpoint) as [Hs Ht].
  split; [exact Hs|]. split; [exact Ht|]. apply normalize_fixed; assumption.
Qed.

Lemma confirmed_members endpoints : forall script x,
  In x (confirmed endpoints script) ->
  exists e, In e endpoints /\ x = normalize e.
Proof.
  induction endpoints as [|e es IH]; intros script x; cbn [confirmed]; [intros H; destruct H|].
  intros H. apply in_app_or in H. destruct H as [H|H].
  - destruct (head script) as [[r|?]|]; try destruct H.
    destruct (_is_valid_endpoint r); [destruct H as [<-|[]]|destruct H].
    exists e. split; [left|]; reflexivity.
  - destruct (IH _ _ H) as (e' & He & ->). exists e'. split; [right; exact He|reflexivity].
Qed.

Lemma confirmed_length endpoints : forall script,
  (length (confirmed endpoints script) <= length endpoints)%nat.
Proof.
  induction endpoints as [|e es IH]; intros script; cbn [confirmed length]; [lia|].
  rewrite length_app. specialize (IH (tl script)).
  destruct (head script) as [[r|?]|]; cbn [length]; try lia.
  destruct (_is_valid_endpoint r); cbn [length]; lia.
Qed.

(** X6.  In explicit-list mode every returned path is the normalised
    form of a caller-supplied endpoint, so it begins with a slash and
    normalisation leaves it unchanged; and the result is never longer
    than the caller's list. *)
Theorem explicit_paths_normalised e es script :
  custom_endpoints g = Some (e :: es) ->
  (forall x, In x (run discover_endpoints script) ->
     PyStr.startswith "/" x = true
     /\ normalize x = x
     /\ exists e', In e' (e :: es) /\ x = normalize e')
  /\ (length (run discover_endpoints script) <= length (e :: es))%nat.
Proof.
  intros H. rewrite (discover_endpoints_explicit e es script H). split.
  - intros x Hx. destruct (confirmed_members _ _ _ Hx) as (e' & He & ->).
    destruct (normalize_shape e') as [Hs Ht].
    split; [exact Hs|]. split; [apply normalize_fixed; assumption|eauto].
  - apply confirmed_length.
Qed.

Lemma load_endpoints_member lines e :
  In e (load_endpoints lines) <->
  exists line, In line lines /\ PyStr.strip line <> EmptyString /\ e = PyStr.strip line.
Proof.
  unfold load_endpoints. rewrite in_map_iff. split.
  - intros (line & <- & Hin). apply List.filter_In in Hin. destruct Hin as [Hin Hne].
    exists line. split; [exact Hin|]. split; [|reflexivity].
    intros E. rewrite E in Hne. discriminate.
  - intros (line & Hin & Hne & ->). exists line. split; [reflexivity|].
    apply List.filter_In. split; [exact Hin|].
    destruct (String.eqb_spec (PyStr.strip line) ""); [contradiction|reflexivity].
Qed.

(** X7.  The endpoints read from an endpoints file are the non-blank
    lines without the white space around them, in file order: none is
    empty, and the generator's normalisation adds at most the leading
    slash to each. *)
Theorem load_endpoints_stripped (lines : list string) :
  List.Forall
       (fun e => e <> EmptyString
                 /\ PyStr.strip e = e
                 /\ normalize e = if PyStr.startswith "/" e then e else "/" +:+ e)
       (load_endpoints lines)
  /\ (length (load_endpoints lines) <= length lines)%nat.
Proof.
  split.
  - apply List.Forall_forall. intros e He.
    apply load_endpoints_member in He. destruct He as (line & _ & Hne & ->).
    split; [exact Hne|]. split; [apply strip_idempotent|].
    apply normalize_stripped, strip_idempotent.
  - unfold load_endpoints. rewrite length_map. apply List.filter_length_le.
Qed.

Lemma lstrip_empty_all s :
  PyStr.lstrip s = EmptyString -> PyStr.all_chars PyStr.isspace s = true.
Proof.
  induction s as [|c s IH]; [reflexivity|].
  cbn [PyStr.lstrip PyStr.all_chars]. destruct (PyStr.isspace c); [exact IH|discriminate].
Qed.

Lemma strip_empty_all s :
  PyStr.strip s = EmptyString <-> PyStr.all_chars PyStr.isspace s = true.
Proof.
  unfold PyStr.strip. split.
  - intros H. apply lstrip_empty_all.
    destruct (lstrip_head s) as [E|(c & t & E & Hc)]; [exact E|].
    rewrite E in H. destruct (rstrip_head c t Hc) as [r Hr].
    rewrite Hr in H. discriminate.
  - intros H. assert (PyStr.lstrip s = EmptyString) as ->; [|reflexivity].
    induction s as [|c s IH]; [reflexivity|].
    cbn [PyStr.all_chars] in H. apply andb_prop in H. destruct H as [Hc Hs].
    cbn [PyStr.lstrip]. rewrite Hc. exact (IH Hs).
Qed.

Lemma split_char_all_space sep s :
  PyStr.all_chars PyStr.isspace s = true ->
  forall x, In x (PyStr.split_char sep s) -> PyStr.all_chars PyStr.isspace x = true.
Proof.
  induction s as [|c s IH]; cbn [PyStr.split_char PyStr.all_chars].
  - intros _ x [<-|[]]. reflexivity.
  - intros H. apply andb_prop in H. destruct H as [Hc Hs]. specialize (IH Hs).
    destruct (Ascii.eqb c sep).
    + intros x [<-|Hx]; [reflexivity|exact (IH x Hx)].
    + destruct (PyStr.split_char sep s) as [|y ys].
      * intros x [<-|[]]. cbn [PyStr.all_chars]. rewrite Hc. reflexivity.
      * intros x [<-|Hx].
        -- cbn [PyStr.all_chars]. rewrite Hc. exact (IH y (or_introl eq_refl)).
        -- exact (IH x (or_intror Hx)).
Qed.

Lemma split_char_nonempty sep s : PyStr.split_char sep s <> [].
Proof.
  destruct s as [|c s]; cbn [PyStr.split_char]; [discriminate|].
  destruct (Ascii.eqb c sep); [discriminate|].
  destruct (PyStr.split_char sep s); discriminate.
Qed.

Lemma split_char_app sep a b :
  PyStr.split_char sep (a +:+ String sep b)
  = PyStr.split_char sep a ++ PyStr.split_char sep b.
Proof.
  induction a as [|c a IH].
  - change ("" +:+ String sep b) with (String sep b).
    cbn [PyStr.split_char]. rewrite Ascii.eqb_refl. reflexivity.
  - change (String c a +:+ String sep b) with (String c (a +:+ String sep b)).
    cbn [PyStr.split_char]. rewrite IH.
    destruct (Ascii.eqb c sep); [reflexivity|].
    pose proof (split_char_nonempty sep a) as Hne.
    destruct (PyStr.split_char sep a); [contradiction|reflexivity].
Qed.

Lemma form_endpoints_unguarded text :
  form_endpoints text
  = map PyStr.strip
      (List.filter (fun ep => negb (String.eqb (PyStr.strip ep) "")
                         && negb (PyStr.startswith "#" ep))
         (PyStr.split_char Re.newline text)).
Proof.
  unfold form_endpoints.
  destruct (String.eqb_spec (PyStr.strip text) "") as [E|E]; [|reflexivity].
  cbn [negb]. apply strip_empty_all in E.
  pose proof (split_char_all_space Re.newline text E) as Hall.
  induction (PyStr.split_char Re.newline text) as [|x xs IH]; [reflexivity|].
  cbn [List.filter].
  assert (PyStr.strip x = EmptyString) as ->.
  { apply strip_empty_all, Hall. left. reflexivity. }
  cbn. apply IH. intros y Hy. apply Hall. right. exact Hy.
Qed.

(** X8.  The endpoints the HTTP service takes from the form are the
    lines that are not blank and do not begin with [#], each without
    the white space around it.  The [#] test reads the line before it
    is stripped, so it spares an indented comment line.  The guard on
    the whole text changes nothing: the endpoints of two texts joined
    by a line break are those of the first followed by those of the
    second. *)
Theorem form_endpoints_lines (text : string) :
  (forall e, In e (form_endpoints text) <->
     exists line, In line (PyStr.split_char Re.newline text)
                  /\ PyStr.strip line <> EmptyString
                  /\ PyStr.startswith "#" line = false
                  /\ e = PyStr.strip line)
  /\ (forall e, In e (form_endpoints text) ->
        e <> EmptyString /\ PyStr.strip e = e)
  /\ (forall more, form_endpoints (text +:+ String Re.newline more)
                   = form_endpoints text ++ form_endpoints more).
Proof.
  assert (forall e, In e (form_endpoints text) <->
     exists line, In line (PyStr.split_char Re.newline text)
                  /\ PyStr.strip line <> EmptyString
                  /\ PyStr.startswith "#" line = false
                  /\ e = PyStr.strip line) as Hmem.
  { intros e. rewrite form_endpoints_unguarded, in_map_iff. split.
    - intros (line & <- & Hin). apply List.filter_In in Hin. destruct Hin as [Hin Hk].
      apply andb_prop in Hk. destruct Hk as [Hne Hc].
      exists line. split; [exact Hin|]. split.
      + intros E. rewrite E in Hne. discriminate.
      + split; [|reflexivity]. destruct (PyStr.startswith "#" line); [discriminate|reflexivity].
    - intros (line & Hin & Hne & Hc & ->). exists line. split; [reflexivity|].
      apply List.filter_In. split; [exact Hin|]. rewrite Hc.
      destruct (String.eqb_spec (PyStr.strip line) ""); [contradiction|reflexivity]. }
  split; [exact Hmem|]. split.
  - intros e He. apply Hmem in He. destruct He as (line & _ & Hne & _ & ->).
    split; [exact Hne|apply strip_idempotent].
  - intros more. rewrite !form_endpoints_unguarded, split_char_app, List.filter_app, List.map_app.
    reflexivity.
Qed.



(** ** Discovery from the catalog *)

Lemma session_get_run url w :
  session_get url w =
  (match pending w with
   | [] => inr connection_error
   | Resp r :: _ => inl r
   | Raise e :: _ => inr e
   end,
   {| pending := tl (pending w); sent := sent w ++ [get_request url] |}).
Proof. unfold session_get. apply session_request_run. Qed.

Lemma for_each_sent {A S : Type} (rq : A -> http_request) (body : S -> A -> M S) :
  (forall acc x w,
     sent (snd (body acc x w)) = sent w ++ [rq x]
     /\ pending (snd (body acc x w)) = tl (pending w)) ->
  forall l acc w,
    sent (snd (for_each l acc body w)) = sent w ++ map rq l
    /\ pending (snd (for_each l acc body w)) = skipn (length l) (pending w).
Proof.
  intros Hbody. induction l as [|x l IH]; intros acc w; cbn [for_each map length].
  - cbn [ret snd skipn]. rewrite app_nil_r. auto.
  - rewrite bind_run. destruct (IH (fst (body acc x w)) (snd (body acc x w))) as [Hs Hp].
    destruct (Hbody acc x w) as [Hs' Hp'].
    rewrite Hs, Hp, Hs', Hp', skipn_tl, <- app_assoc. auto.
Qed.

Lemma parse_openapi_slash spec eps :
  _parse_openapi_spec spec = Some eps ->
  List.Forall (fun x => PyStr.startswith "/" x = true) eps.
Proof.
  unfold _parse_openapi_spec. intros H.
  destruct spec as [| | | |s|l|d]; try discriminate.
  - destruct (PyStr.contains "paths" s); [discriminate|].
    injection H as <-. constructor.
  - destruct (existsb is_paths l); [discriminate|].
    injection H as <-. constructor.
  - destruct (dict_get "paths" d) as [[| | | | | |paths]|]; try discriminate;
      injection H as <-; [|constructor].
    apply List.Forall_forall. intros x Hx.
    apply list_elem_of_In, list_elem_of_filter in Hx.
    destruct Hx as [Hx _]. apply Is_true_true. exact Hx.
Qed.

Lemma nth_error_head {A : Type} (l : list A) : nth_error l 0 = head l.
Proof. destruct l; reflexivity. Qed.

Lemma nth_error_tl {A : Type} (l : list A) i : nth_error (tl l) i = nth_error l (S i).
Proof. destruct l; [destruct i|]; reflexivity. Qed.

Lemma openapi_step u urls w :
  discover_with_openapi_from (u :: urls) w
  = match openapi_document (head (pending w)) with
    | Some eps =>
        (eps, {| pending := tl (pending w);
                 sent := sent w ++ [get_request (base_url g +:+ u)] |})
    | None =>
        discover_with_openapi_from urls
          {| pending := tl (pending w);
             sent := sent w ++ [get_request (base_url g +:+ u)] |}
    end.
Proof.
  cbn [discover_with_openapi_from]. rewrite bind_run, session_get_run. cbn [fst snd].
  destruct (pending w) as [|[r|e] rest]; cbn [head openapi_document]; try reflexivity.
  destruct (status_code r =? 200); [|reflexivity].
  destruct (json r) as [spec|]; [|reflexivity].
  destruct (_parse_openapi_spec spec); reflexivity.
Qed.

Lemma openapi_from_run urls : forall w,
  exists n,
    (n <= length urls)%nat
    /\ sent (snd (discover_with_openapi_from urls w))
       = sent w ++ get_requests (firstn n urls)
    /\ pending (snd (discover_with_openapi_from urls w)) = skipn n (pending w)
    /\ ((n = length urls
         /\ fst (discover_with_openapi_from urls w) = []
         /\ forall i, (i < n)%nat ->
              openapi_document (nth_error (pending w) i) = None)
        \/ exists m eps,
             n = S m
             /\ (forall i, (i < m)%nat ->
                   openapi_document (nth_error (pending w) i) = None)
             /\ openapi_document (nth_error (pending w) m) = Some eps
             /\ fst (discover_with_openapi_from urls w) = eps).
Proof.
  induction urls as [|u urls IH]; intros w.
  - exists O. cbn [discover_with_openapi_from ret fst snd length firstn skipn].
    unfold get_requests. cbn [map]. rewrite app_nil_r.
    split; [lia|]. split; [reflexivity|]. split; [reflexivity|].
    left. split; [reflexivity|]. split; [reflexivity|]. intros i Hi. lia.
  - rewrite openapi_step.
    destruct (openapi_document (head (pending w))) as [eps|] eqn:E.
    + exists 1%nat. cbn [fst snd sent pending length firstn skipn].
      unfold get_requests. cbn [map].
      split; [lia|]. split; [reflexivity|].
      split; [destruct (pending w); reflexivity|].
      right. exists O, eps. split; [reflexivity|].
      split; [intros i Hi; lia|]. split; [|reflexivity].
      rewrite nth_error_head. exact E.
    + destruct (IH {| pending := tl (pending w);
                      sent := sent w ++ [get_request (base_url g +:+ u)] |})
        as (n & Hn & Hs & Hp & Hr).
      cbn [pending sent] in Hs, Hp, Hr.
      exists (S n). cbn [length firstn]. unfold get_requests in *. cbn [map].
      rewrite Hs, Hp, skipn_tl, <- app_assoc.
      split; [lia|]. split; [reflexivity|]. split; [reflexivity|].
      destruct Hr as [(-> & Hres & Hall)|(m & eps & -> & Hall & Hm & Hres)].
      * left. split; [reflexivity|]. split; [exact Hres|].
        intros [|i] Hi; [rewrite nth_error_head; exact E|].
        rewrite <- nth_error_tl. apply Hall. lia.
      * right. exists (S m), eps. split; [reflexivity|]. split; [|split].
        -- intros [|i] Hi; [rewrite nth_error_head; exact E|].
           rewrite <- nth_error_tl. apply Hall. lia.
        -- rewrite <- nth_error_tl. exact Hm.
        -- exact Hres.
Qed.

Lemma openapi_document_slash o eps :
  openapi_document o = Some eps ->
  List.Forall (fun x => PyStr.startswith "/" x = true) eps.
Proof.
  destruct o as [[r|e]|]; cbn [openapi_document]; try discriminate.
  destruct (status_code r =? 200); [|discriminate].
  destruct (json r) as [spec|]; [|discriminate].
  apply parse_openapi_slash.
Qed.

Lemma openapi_run w :
  exists n,
    (1 <= n <= 9)%nat
    /\ sent (snd (_discover_with_openapi w))
       = sent w ++ get_requests (firstn n openapi_urls)
    /\ pending (snd (_discover_with_openapi w)) = skipn n (pending w)
    /\ (forall i, (S i < n)%nat ->
          openapi_document (nth_error (pending w) i) = None)
    /\ match openapi_document (nth_error (pending w) (n - 1)) with
       | Some eps => fst (_discover_with_openapi w) = eps
       | None => n = 9%nat /\ fst (_discover_with_openapi w) = []
       end.
Proof.
  unfold _discover_with_openapi.
  destruct (openapi_from_run openapi_urls w) as (n & Hn & Hs & Hp & Hr).
  change (length openapi_urls) with 9%nat in *.
  exists n.
  destruct Hr as [(-> & Hres & Hall)|(m & eps & -> & Hall & Hm & Hres)].
  - split; [lia|]. split; [exact Hs|]. split; [exact Hp|].
    split; [intros i Hi; apply Hall; lia|].
    change (9 - 1)%nat with 8%nat. rewrite (Hall 8%nat ltac:(lia)). auto.
  - split; [lia|]. split; [exact Hs|]. split; [exact Hp|].
    split; [intros i Hi; apply Hall; lia|].
    replace (S m - 1)%nat with m by lia. rewrite Hm. exact Hres.
Qed.

Lemma openapi_slash w :
  List.Forall (fun x => PyStr.startswith "/" x = true) (fst (_discover_with_openapi w)).
Proof.
  destruct (openapi_run w) as (n & _ & _ & _ & _ & Hr).
  destruct (openapi_document (nth_error (pending w) (n - 1))) as [eps|] eqn:E.
  - rewrite Hr. exact (openapi_document_slash _ _ E).
  - destruct Hr as [_ ->]. constructor.
Qed.

Lemma openapi_first u urls w resp spec eps rest :
  pending w = Resp resp :: rest ->
  status_code resp = 200 ->
  json resp = Some spec ->
  _parse_openapi_spec spec = Some eps ->
  fst (discover_with_openapi_from (u :: urls) w) = eps
  /\ sent (snd (discover_with_openapi_from (u :: urls) w))
     = sent w ++ get_requests [u].
Proof.
  intros Hw Hst Hj He. rewrite openapi_step, Hw. cbn [head openapi_document].
  rewrite Hst, Hj, He. cbn [fst snd sent]. auto.
Qed.

(** X9.  The search for an OpenAPI document asks for the nine well-known
    locations in order and stops at the first one answered 200 with a
    body it can read, whichever location that is and also when that body
    lists no path: it returns the paths of that document, those keys of
    its paths that begin with a slash, and asks for no later location.
    When no location gives such a document it has asked for all nine and
    returns nothing. *)
Theorem openapi_discovery (w : world) :
  List.Forall (fun x => PyStr.startswith "/" x = true) (fst (_discover_with_openapi w))
  /\ (exists n,
        (1 <= n <= 9)%nat
        /\ sent (snd (_discover_with_openapi w))
           = sent w ++ get_requests (firstn n openapi_urls)
        /\ pending (snd (_discover_with_openapi w)) = skipn n (pending w)
        /\ (forall i, (S i < n)%nat ->
              openapi_document (nth_error (pending w) i) = None)
        /\ match openapi_document (nth_error (pending w) (n - 1)) with
           | Some eps => fst (_discover_with_openapi w) = eps
           | None => n = 9%nat /\ fst (_discover_with_openapi w) = []
           end)
  /\ (forall resp spec eps rest,
        pending w = Resp resp :: rest ->
        status_code resp = 200 ->
        json resp = Some spec ->
        _parse_openapi_spec spec = Some eps ->
        fst (_discover_with_openapi w) = eps
        /\ sent (snd (_discover_with_openapi w))
           = sent w ++ get_requests ["/openapi.json"])
  /\ (forall d paths x,
        dict_get "paths" d = Some (PDict paths) ->
        exists eps,
          _parse_openapi_spec (PDict d) = Some eps
          /\ (In x eps <-> In x (dict_keys paths) /\ PyStr.startswith "/" x = true)).
Proof.
  split; [apply openapi_slash|]. split; [apply openapi_run|]. split.
  - intros resp spec eps rest Hw Hst Hj He.
    exact (openapi_first _ _ w resp spec eps rest Hw Hst Hj He).
  - intros d paths x Hd. cbn [_parse_openapi_spec]. rewrite Hd.
    eexists. split; [reflexivity|].
    rewrite <- !list_elem_of_In, list_elem_of_filter. split.
    + intros [Hs Hin]. split; [exact Hin|apply Is_true_true, Hs].
    + intros [Hin Hs]. split; [apply Is_true_true, Hs|exact Hin].
Qed.

(** *** A service that confirms nothing *)

Lemma for_each_world_invariant {A S : Type} (P : S -> world -> Prop)
    (body : S -> A -> M S) :
  (forall acc x w, P acc w -> P (fst (body acc x w)) (snd (body acc x w))) ->
  forall l acc w, P acc w -> P (fst (for_each l acc body w)) (snd (for_each l acc body w)).
Proof.
  intros Hbody. induction l as [|x l IH]; intros acc w H; cbn [for_each].
  - exact H.
  - rewrite bind_run. apply IH, Hbody, H.
Qed.

Lemma quiet_get url w :
  quiet w ->
  quiet (snd (session_get url w))
  /\ match fst (session_get url w) with
     | inl resp => _is_valid_endpoint resp = false
     | inr _ => True
     end.
Proof.
  unfold quiet. intros H. rewrite session_get_run. cbn [fst snd pending].
  destruct (pending w) as [|[r|e] rest]; cbn [tl].
  - auto.
  - inversion H as [|? ? Hr Hrest]; subst. cbn [refused] in Hr.
    split; [exact Hrest|]. destruct (_is_valid_endpoint r); [discriminate|reflexivity].
  - inversion H; subst. auto.
Qed.

Lemma invalid_not_200 resp :
  _is_valid_endpoint resp = false -> (status_code resp =? 200) = false.
Proof.
  unfold _is_valid_endpoint. destruct (status_code resp =? 200); [discriminate|reflexivity].
Qed.

Lemma quiet_confirm acc endpoint w :
  quiet w ->
  fst (confirm acc endpoint w) = acc /\ quiet (snd (confirm acc endpoint w)).
Proof.
  intros H. unfold confirm. rewrite bind_run. cbn [ret fst snd].
  destruct (quiet_get (base_url g +:+ endpoint) w H) as [Hq Hr].
  split; [|exact Hq].
  destruct (fst (session_get (base_url g +:+ endpoint) w)) as [resp|e]; [|reflexivity].
  rewrite Hr. reflexivity.
Qed.

Lemma quiet_openapi urls : forall w,
  quiet w ->
  fst (discover_with_openapi_from urls w) = []
  /\ quiet (snd (discover_with_openapi_from urls w)).
Proof.
  induction urls as [|u urls IH]; intros w H; cbn [discover_with_openapi_from].
  - cbn [ret fst snd]. auto.
  - rewrite bind_run.
    destruct (quiet_get (base_url g +:+ u) w H) as [Hq Hr].
    destruct (fst (session_get (base_url g +:+ u) w)) as [resp|e]; [|apply IH, Hq].
    rewrite (invalid_not_200 _ Hr). apply IH, Hq.
Qed.

Lemma quiet_documentation w :
  quiet w ->
  fst (_discover_from_documentation w) = []
  /\ quiet (snd (_discover_from_documentation w)).
Proof.
  intros H. unfold _discover_from_documentation.
  apply (for_each_world_invariant (fun acc w => acc = [] /\ quiet w)); [|auto].
  intros acc x w' [-> Hw']. rewrite bind_run. cbn [ret fst snd].
  destruct (quiet_get (base_url g +:+ x) w' Hw') as [Hq Hr].
  split; [|exact Hq].
  destruct (fst (session_get (base_url g +:+ x) w')) as [resp|e]; [|reflexivity].
  rewrite (invalid_not_200 _ Hr). reflexivity.
Qed.

Lemma list_set_nil : list_set [] = [].
Proof. unfold list_set. cbn [list_to_set foldr]. apply elements_empty. Qed.

Lemma quiet_discover w : quiet w -> fst (discover_endpoints w) = [].
Proof.
  intros H. unfold discover_endpoints.
  assert (forall (f : string -> string) l,
            fst (for_each l [] (fun d e => confirm d (f e)) w) = []
            /\ quiet (snd (for_each l [] (fun d e => confirm d (f e)) w))) as Hloop.
  { intros f l.
    apply (for_each_world_invariant (fun acc w => acc = [] /\ quiet w)); [|auto].
    intros acc x w' [-> Hw']. apply quiet_confirm, Hw'. }
  destruct (custom_endpoints g) as [[|e es]|];
    try exact (proj1 (Hloop normalize (e :: es)));
    rewrite !bind_run; cbn [ret fst];
    (assert (fst (for_each (endpoint_patterns g) [] confirm w) = []
             /\ quiet (snd (for_each (endpoint_patterns g) [] confirm w)))
       as [-> Hq] by exact (Hloop (fun e => e) (endpoint_patterns g)));
    destruct (quiet_openapi openapi_urls _ Hq) as [Ho Hq'];
    unfold _discover_with_openapi; rewrite Ho;
    destruct (quiet_documentation _ Hq') as [-> _];
    apply list_set_nil.
Qed.

(** X10.  When no probe is confirmed - every request fails or is answered
    with a status outside the accept-set - discovery returns no
    endpoint in either mode, the analysis is the error document, and the
    emitter still produces a document from it: one without paths, whose
    server is the placeholder address and not the base URL. *)
Theorem nothing_confirmed (now : string) (script : list outcome) :
  List.Forall (fun o => refused o = true) script ->
  run discover_endpoints script = []
  /\ run (generate_analysis now) script
     = NoEndpoints "No endpoints discovered" (base_url g)
  /\ spec_field "paths"
       (generate_swagger_spec (dump_analysis (run (generate_analysis now) script)))
     = Some (PDict [])
  /\ spec_field "servers"
       (generate_swagger_spec (dump_analysis (run (generate_analysis now) script)))
     = Some (PList [PDict [("url", PStr "https://api.example.com");
                           ("description", PStr "Production server")]]).
Proof.
  intros H.
  assert (run discover_endpoints script = []) as Hd.
  { unfold run. apply quiet_discover. exact H. }
  assert (run (generate_analysis now) script
          = NoEndpoints "No endpoints discovered" (base_url g)) as Ha.
  { unfold run in *. unfold generate_analysis. rewrite bind_run, Hd. reflexivity. }
  split; [exact Hd|]. split; [exact Ha|]. rewrite Ha. split; reflexivity.
Qed.

(** *** What catalog mode returns and asks *)

Lemma list_set_in (l : list string) (x : string) : In x (list_set l) <-> In x l.
Proof.
  unfold list_set. split; intros H.
  - apply list_elem_of_In. apply list_elem_of_In in H.
    apply elem_of_elements in H. apply elem_of_list_to_set in H. exact H.
  - apply list_elem_of_In. apply list_elem_of_In in H.
    apply elem_of_elements. apply elem_of_list_to_set. exact H.
Qed.

Lemma confirm_requests acc endpoint w :
  sent (snd (confirm acc endpoint w)) = sent w ++ [get_request (base_url g +:+ endpoint)]
  /\ pending (snd (confirm acc endpoint w)) = tl (pending w).
Proof. rewrite confirm_run. cbn [snd sent pending]. auto. Qed.

Lemma confirm_members endpoints : forall acc w x,
  In x (fst (for_each endpoints acc confirm w))
  <-> In x acc
      \/ exists i,
           nth_error endpoints i = Some x
           /\ probe_valid (nth_error (pending w) i) = true.
Proof.
  induction endpoints as [|e es IH]; intros acc w x; cbn [for_each].
  - cbn [ret fst]. split; [auto|].
    intros [H|(i & Hi & _)]; [exact H|]. destruct i; discriminate.
  - rewrite bind_run, confirm_run. cbn [fst snd]. rewrite IH. cbn [pending].
    rewrite in_app_iff. split.
    + intros [[H|H]|(i & Hi & Hv)].
      * left. exact H.
      * right. exists O.
        destruct (pending w) as [|[r|?] rest]; cbn [head] in H; try destruct H.
        cbn [nth_error probe_valid].
        destruct (_is_valid_endpoint r); [|destruct H].
        destruct H as [<-|[]]. auto.
      * right. exists (S i). split; [exact Hi|].
        rewrite <- nth_error_tl. exact Hv.
    + intros [H|([|i] & Hi & Hv)].
      * left. left. exact H.
      * left. right. cbn [nth_error] in Hi. injection Hi as <-.
        destruct (pending w) as [|[r|?] rest]; cbn [nth_error probe_valid] in Hv;
          try discriminate.
        cbn [head]. rewrite Hv. left. reflexivity.
      * right. exists i. split; [exact Hi|].
        rewrite nth_error_tl. exact Hv.
Qed.

Lemma documentation_members urls : forall acc w x,
  In x (fst (for_each urls acc
               (fun discovered doc_url =>
                  r <- session_get (base_url g +:+ doc_url) ;;
                  ret match r with
                      | inl resp =>
                          if status_code resp =? 200 then
                            let endpoints := _extract_endpoints_from_html (text resp) in
                            if nonempty endpoints then discovered ++ endpoints
                            else discovered
                          else discovered
                      | inr _ => discovered
                      end) w))
  <-> In x acc
      \/ exists j resp,
           (j < length urls)%nat
           /\ nth_error (pending w) j = Some (Resp resp)
           /\ status_code resp = 200
           /\ In x (_extract_endpoints_from_html (text resp)).
Proof.
  induction urls as [|u urls IH]; intros acc w x; cbn [for_each length].
  - cbn [ret fst]. split; [auto|]. intros [H|(j & resp & Hj & _)]; [exact H|lia].
  - rewrite !bind_run, session_get_run. cbn [ret fst snd]. rewrite IH. cbn [pending].
    assert (forall found : list string,
              In x (if nonempty found then acc ++ found else acc)
              <-> In x acc \/ In x found) as Hf.
    { intros [|y found]; cbn [nonempty]; [cbn [In]; tauto|apply in_app_iff]. }
    split.
    + intros [H|(j & resp & Hj & Hn & Hs & Hx)].
      * destruct (pending w) as [|[r|e] rest]; try (left; exact H).
        destruct (status_code r =? 200) eqn:Es; [|left; exact H].
        cbv zeta in H. apply Hf in H. destruct H as [H|H]; [left; exact H|].
        right. exists O, r. cbn [nth_error].
        split; [lia|]. split; [reflexivity|]. split; [apply Z.eqb_eq, Es|exact H].
      * right. exists (S j), resp. rewrite <- nth_error_tl.
        split; [lia|]. auto.
    + intros [H|([|j] & resp & Hj & Hn & Hs & Hx)].
      * left. destruct (pending w) as [|[r|e] rest]; try exact H.
        destruct (status_code r =? 200); [|exact H].
        cbv zeta. apply Hf. left. exact H.
      * left. destruct (pending w) as [|[r|e] rest]; try discriminate.
        cbn [nth_error] in Hn. injection Hn as ->.
        rewrite Hs. cbn [Z.eqb Pos.eqb]. cbv zeta. apply Hf. right. exact Hx.
      * right. exists j, resp. rewrite nth_error_tl.
        split; [lia|]. auto.
Qed.

Lemma extracted_members html x :
  In x (_extract_endpoints_from_html html)
  <-> exists pattern, In x (re_findall pattern html).
Proof.
  unfold _extract_endpoints_from_html. rewrite list_set_in, in_flat_map. split.
  - intros (pattern & _ & H). eauto.
  - intros (pattern & H). exists pattern. split; [|exact H].
    destruct pattern; cbn; auto 10.
Qed.

Lemma documentation_run w :
  (forall x,
     In x (fst (_discover_from_documentation w))
     <-> exists j resp pattern,
           (j < 8)%nat
           /\ nth_error (pending w) j = Some (Resp resp)
           /\ status_code resp = 200
           /\ In x (re_findall pattern (text resp)))
  /\ sent (snd (_discover_from_documentation w)) = sent w ++ get_requests doc_urls
  /\ pending (snd (_discover_from_documentation w))
     = skipn (length doc_urls) (pending w).
Proof.
  unfold _discover_from_documentation. split.
  - intros x. rewrite documentation_members. change (length doc_urls) with 8%nat.
    split.
    + intros [[]|(j & resp & Hj & Hn & Hs & Hx)].
      apply extracted_members in Hx. destruct Hx as [pattern Hx].
      exists j, resp, pattern. auto.
    + intros (j & resp & pattern & Hj & Hn & Hs & Hx). right.
      exists j, resp. split; [exact Hj|]. split; [exact Hn|]. split; [exact Hs|].
      apply extracted_members. eauto.
  - apply (for_each_sent (fun u => get_request (base_url g +:+ u))).
    intros acc u w'. rewrite bind_run, session_get_run. cbn [ret snd sent pending]. auto.
Qed.

(** X11.  What catalog mode returns and asks.  Its requests are the
    confirmation GETs of the catalog, the GETs for an OpenAPI document,
    up to the first that is found, and the eight GETs for a
    documentation page.  The result has no repetition, and its members
    are exactly: the patterns of the catalog whose confirmation was
    accepted, the paths of the OpenAPI document found, and the matches
    of the page patterns in the documentation pages answered 200.  A
    path found in a document or on a page is returned without a
    confirmation request of its own. *)
Theorem catalog_discovery (w : world) :
  is_custom = false ->
  List.NoDup (fst (discover_endpoints w))
  /\ exists n,
       (1 <= n <= 9)%nat
       /\ sent (snd (discover_endpoints w))
          = sent w ++ get_requests (endpoint_patterns g)
                   ++ get_requests (firstn n openapi_urls)
                   ++ get_requests doc_urls
       /\ (forall i, (S i < n)%nat ->
             openapi_document
               (nth_error (pending w) (length (endpoint_patterns g) + i)) = None)
       /\ (openapi_document
             (nth_error (pending w) (length (endpoint_patterns g) + (n - 1))) = None ->
           n = 9%nat)
       /\ forall x,
            In x (fst (discover_endpoints w))
            <-> (exists i,
                   nth_error (endpoint_patterns g) i = Some x
                   /\ probe_valid (nth_error (pending w) i) = true)
                \/ (exists eps,
                      openapi_document
                        (nth_error (pending w)
                           (length (endpoint_patterns g) + (n - 1))) = Some eps
                      /\ In x eps)
                \/ (exists j resp pattern,
                      (j < 8)%nat
                      /\ nth_error (pending w)
                           (length (endpoint_patterns g) + n + j) = Some (Resp resp)
                      /\ status_code resp = 200
                      /\ In x (re_findall pattern (text resp))).
Proof.
  intros Hc. split; [exact (discover_endpoints_catalog_nodup w Hc)|].
  assert (discover_endpoints
          = (discovered <- for_each (endpoint_patterns g) [] confirm ;;
             openapi_endpoints <- _discover_with_openapi ;;
             doc_endpoints <- _discover_from_documentation ;;
             ret (list_set ((discovered ++ openapi_endpoints) ++ doc_endpoints)))) as ->.
  { unfold is_custom in Hc. unfold discover_endpoints.
    destruct (custom_endpoints g) as [[|e es]|]; [reflexivity|discriminate|reflexivity]. }
  rewrite !bind_run. cbn [ret fst snd].
  destruct (for_each_sent (fun e => get_request (base_url g +:+ e)) confirm
              confirm_requests (endpoint_patterns g) [] w) as [Hsc Hpc].
  pose proof (confirm_members (endpoint_patterns g) [] w) as Hmc.
  destruct (for_each (endpoint_patterns g) [] confirm w) as [found w1].
  cbn [fst snd] in *.
  destruct (openapi_run w1) as (n & Hn & Hs & Hp & Hstop & Hr).
  destruct (_discover_with_openapi w1) as [listed w2]. cbn [fst snd] in *.
  destruct (documentation_run w2) as (Hdoc & Hsd & _).
  destruct (_discover_from_documentation w2) as [linked w3]. cbn [fst snd] in *.
  assert (forall i, nth_error (pending w1) i
                    = nth_error (pending w) (length (endpoint_patterns g) + i)) as Hw1.
  { intros i. rewrite Hpc. apply nth_error_skipn. }
  assert (forall j, nth_error (pending w2) j
                    = nth_error (pending w) (length (endpoint_patterns g) + n + j)) as Hw2.
  { intros j. rewrite Hp, nth_error_skipn, Hw1. f_equal. lia. }
  rewrite Hw1 in Hr.
  exists n. split; [exact Hn|]. split.
  { rewrite Hsd, Hs, Hsc. unfold get_requests. rewrite <- !app_assoc. reflexivity. }
  split; [intros i Hi; rewrite <- Hw1; apply Hstop, Hi|].
  split.
  { intros E. rewrite E in Hr. apply Hr. }
  intros x. rewrite list_set_in, !in_app_iff, Hmc, Hdoc. cbn [In].
  split.
  - intros [[[[]|H]|H]|(j & resp & pattern & Hj & Hnj & Hx)].
    + left. exact H.
    + right. left.
      destruct (openapi_document
                  (nth_error (pending w) (length (endpoint_patterns g) + (n - 1))))
        as [eps|]; [subst listed; eauto|].
      destruct Hr as [_ ->]. destruct H.
    + right. right. exists j, resp, pattern. rewrite <- Hw2. auto.
  - intros [H|[(eps & E & H)|(j & resp & pattern & Hj & Hnj & Hx)]].
    + left. left. right. exact H.
    + left. right. rewrite E in Hr. subst listed. exact H.
    + right. exists j, resp, pattern. rewrite Hw2. auto.
Qed.



(** ** Validation messages *)

Lemma first_error_field_spec error_data param_name fields :
  match first_error_field error_data param_name fields with
  | Some msg =>
      exists field v,
        In field fields
        /\ dict_get field error_data = Some v
        /\ msg = py_str v
        /\ PyStr.contains (PyStr.lower param_name) (PyStr.lower msg) = true
  | None =>
      forall field v,
        In field fields ->
        dict_get field error_data = Some v ->
        PyStr.contains (PyStr.lower param_name) (PyStr.lower (py_str v)) = false
  end.
Proof.
  induction fields as [|field rest IH]; cbn [first_error_field].
  - intros field v [].
  - destruct (dict_get field error_data) as [v|] eqn:E.
    + destruct (PyStr.contains (PyStr.lower param_name) (PyStr.lower (py_str v))) eqn:C.
      * exists field, v. split; [left; reflexivity|auto].
      * destruct (first_error_field error_data param_name rest) as [msg|].
        -- destruct IH as (f' & v' & Hin & H). exists f', v'. split; [right; exact Hin|exact H].
        -- intros f' v' [<-|Hin] H'; [|exact (IH f' v' Hin H')].
           rewrite E in H'. injection H' as <-. exact C.
    + destruct (first_error_field error_data param_name rest) as [msg|].
      * destruct IH as (f' & v' & Hin & H). exists f', v'. split; [right; exact Hin|exact H].
      * intros f' v' [<-|Hin] H'; [|exact (IH f' v' Hin H')].
        rewrite E in H'. discriminate.
Qed.

(** X12.  The validation message taken from a response is the text of
    one of the fields error, message, detail and description of a JSON
    object body, and it mentions the parameter name, letter case apart.
    There is none exactly when the body is no JSON object or none of
    these fields mentions the name. *)
Theorem extract_validation_error_spec (r : response) (param_name : string) :
  match _extract_validation_error r param_name with
  | Some msg =>
      exists error_data field v,
        _safe_json r = PDict error_data
        /\ In field error_fields
        /\ dict_get field error_data = Some v
        /\ msg = py_str v
        /\ PyStr.contains (PyStr.lower param_name) (PyStr.lower msg) = true
  | None =>
      forall error_data field v,
        _safe_json r = PDict error_data ->
        In field error_fields ->
        dict_get field error_data = Some v ->
        PyStr.contains (PyStr.lower param_name) (PyStr.lower (py_str v)) = false
  end.
Proof.
  unfold _extract_validation_error.
  destruct (_safe_json r) as [| | | | | |d]; try (intros ? ? ? ?; discriminate).
  pose proof (first_error_field_spec d param_name error_fields) as H.
  destruct (first_error_field d param_name error_fields) as [msg|].
  - destruct H as (field & v & H). exists d, field, v. split; [reflexivity|exact H].
  - intros d' field v [= <-]. apply H.
Qed.

Lemma extract_mentions r param_name e :
  _extract_validation_error r param_name = Some e ->
  PyStr.contains (PyStr.lower param_name) (PyStr.lower e) = true.
Proof.
  unfold _extract_validation_error.
  destruct (_safe_json r) as [| | | | | |d]; try discriminate.
  pose proof (first_error_field_spec d param_name error_fields) as H.
  destruct (first_error_field d param_name error_fields) as [msg|]; [|discriminate].
  intros [= <-]. destruct H as (field & v & _ & _ & _ & H). exact H.
Qed.

Lemma decide_required_lists vi :
  accepted_values (decide_required vi) = accepted_values vi
  /\ rejected_values (decide_required vi) = rejected_values vi
  /\ validation_patterns (decide_required vi) = validation_patterns vi.
Proof.
  unfold decide_required.
  destruct (nonempty (accepted_values vi) && negb (nonempty (rejected_values vi)));
    [auto|].
  destruct (nonempty (rejected_values vi) && negb (nonempty (accepted_values vi))); auto.
Qed.

Lemma profile_patterns url method param_name info w :
  validation_patterns
    (pa_validation_info
       (fst (_analyze_parameter_comprehensive url method param_name info w)))
  = error_probe_message param_name
      (head (skipn (S (length (p_test_values info))) (pending w))).
Proof.
  unfold _analyze_parameter_comprehensive.
  rewrite bind_run, session_request_run. cbn [fst snd].
  rewrite bind_run.
  match goal with
  | |- context [for_each (p_test_values info) ?vi0 ?body ?w0] =>
      pose proof (test_values_loop url method param_name (p_test_values info) vi0 w0) as Hp;
      cbn zeta in Hp; destruct Hp as (_ & _ & _ & Hp);
      assert (validation_patterns (fst (for_each (p_test_values info) vi0 body w0)) = [])
        as Hv;
      [|set (loop := for_each (p_test_values info) vi0 body w0) in *]
  end.
  { apply (for_each_invariant (fun vi => validation_patterns vi = [])).
    - intros acc x w' Hacc. rewrite bind_run, session_request_run. cbn [ret fst].
      destruct (pending w') as [|[r|e] rest]; try exact Hacc.
      destruct (bucket_probe_spec (status_code r) x acc) as (_ & _ & -> & _). exact Hacc.
    - destruct (pending w) as [|[r|e] rest]; try reflexivity.
      destruct (bucket_probe_spec (status_code r) (p_default info) new_validation_info)
        as (_ & _ & -> & _). reflexivity. }
  rewrite bind_run, session_request_run. cbn [fst snd ret pa_validation_info].
  cbn [validation_patterns set_type].
  rewrite (proj2 (proj2 (decide_required_lists _))).
  rewrite Hp. cbn [pending]. rewrite skipn_tl.
  destruct (skipn (S (length (p_test_values info))) (pending w)) as [|[r|e] rest];
    cbn [head error_probe_message]; try exact Hv.
  unfold bucket_error_probe. destruct (status_code r =? 400); [|exact Hv].
  destruct (_extract_validation_error r param_name) as [e|]; [|exact Hv].
  destruct (String.eqb e ""); cbn [negb validation_patterns add_pattern add_rejected];
    rewrite ?Hv; reflexivity.
Qed.

(** X13.  A profile holds at most one validation message.  It holds one
    only when the probe of the error value was answered 400 with a
    message that is not empty: then the error value is among the
    rejected values, and the message mentions the parameter name. *)
Theorem validation_patterns_invariant url method param_name info w :
  let vi :=
    pa_validation_info
      (fst (_analyze_parameter_comprehensive url method param_name info w)) in
  (length (validation_patterns vi) <= 1)%nat
  /\ forall e, In e (validation_patterns vi) ->
       e <> EmptyString
       /\ In (p_error_value info) (rejected_values vi)
       /\ PyStr.contains (PyStr.lower param_name) (PyStr.lower e) = true
       /\ exists r,
            head (skipn (S (length (p_test_values info))) (pending w)) = Some (Resp r)
            /\ status_code r = 400
            /\ _extract_validation_error r param_name = Some e.
Proof.
  cbn zeta. rewrite profile_patterns.
  destruct (profile_spec url method param_name info w) as (_ & Hr & _).
  cbn zeta in Hr. rewrite Hr. clear Hr.
  destruct (head (skipn (S (length (p_test_values info))) (pending w)))
    as [[r|x]|] eqn:E; cbn [error_probe_message length]; try (split; [lia|intros ? []]).
  destruct (status_code r =? 400) eqn:Hs; [|split; [cbn [length]; lia|intros ? []]].
  destruct (_extract_validation_error r param_name) as [e|] eqn:Hx;
    [|split; [cbn [length]; lia|intros ? []]].
  destruct (String.eqb_spec e ""); [split; [cbn [length]; lia|intros ? []]|].
  split; [cbn [length]; lia|].
  intros e' [<-|[]]. split; [assumption|]. split.
  - apply in_or_app. right. cbn [answered status_of rejected_status].
    rewrite E. cbn [status_of rejected_status]. rewrite Hs. left. reflexivity.
  - split; [exact (extract_mentions r param_name e Hx)|].
    exists r. split; [reflexivity|]. split; [apply Z.eqb_eq, Hs|exact Hx].
Qed.



(** ** The summary and the analysis document *)

Lemma list_sum_cons n l : list_sum (n :: l) = (n + list_sum l)%nat.
Proof. reflexivity. Qed.

Lemma count_type_sum (param_types : dict nat) (info : parameter_info) :
  list_sum (dict_values (count_type param_types info))
  = S (list_sum (dict_values param_types)).
Proof.
  unfold count_type, dict_get_default.
  induction param_types as [|[k v] d IH]; cbn [dict_get dict_set]; [reflexivity|].
  destruct (String.eqb k (pi_type info)); unfold dict_values in *;
    cbn [map snd]; rewrite !list_sum_cons.
  - lia.
  - rewrite IH. lia.
Qed.

Lemma count_types_sum (infos : list parameter_info) : forall param_types,
  list_sum (dict_values (fold_left count_type infos param_types))
  = (list_sum (dict_values param_types) + length infos)%nat.
Proof.
  induction infos as [|i infos IH]; intros d; cbn [fold_left length]; [lia|].
  rewrite IH, count_type_sum. lia.
Qed.

Lemma count_types_nodup (infos : list parameter_info) : forall param_types,
  List.NoDup (dict_keys param_types) ->
  List.NoDup (dict_keys (fold_left count_type infos param_types)).
Proof.
  induction infos as [|i infos IH]; intros d H; cbn [fold_left]; [exact H|].
  apply IH. unfold count_type. apply dict_set_nodup, H.
Qed.

Lemma total_params_sum {V : Type} (method_params : list (dict V)) : forall n,
  fold_left (fun n params => (n + length params)%nat) method_params n
  = (n + length (flat_map dict_values method_params))%nat.
Proof.
  induction method_params as [|d ds IH]; intros n; cbn [fold_left flat_map]; [simpl; lia|].
  rewrite IH, length_app. unfold dict_values at 2. rewrite length_map. lia.
Qed.

Lemma count_crud_step (c : crud) (n : crud_counts) :
  (n_create (count_crud c n) <= S (n_create n))%nat
  /\ (n_read (count_crud c n) <= S (n_read n))%nat
  /\ (n_update (count_crud c n) <= S (n_update n))%nat
  /\ (n_delete (count_crud c n) <= S (n_delete n))%nat.
Proof.
  unfold count_crud. cbn [n_create n_read n_update n_delete].
  destruct (crud_create c), (crud_read c), (crud_update c), (crud_delete c); lia.
Qed.

Lemma count_crud_bound (all : list endpoint_analysis) : forall n,
  let n' := fold_left (fun n a => count_crud (ea_crud_operations a) n) all n in
  (n_create n' <= n_create n + length all)%nat
  /\ (n_read n' <= n_read n + length all)%nat
  /\ (n_update n' <= n_update n + length all)%nat
  /\ (n_delete n' <= n_delete n + length all)%nat.
Proof.
  induction all as [|a all IH]; intros n; cbn zeta; cbn [fold_left length].
  - lia.
  - specialize (IH (count_crud (ea_crud_operations a) n)). cbn zeta in IH.
    destruct IH as (H1 & H2 & H3 & H4).
    destruct (count_crud_step (ea_crud_operations a) n) as (S1 & S2 & S3 & S4).
    lia.
Qed.

(** X14.  The figures of the summary agree with one another, whatever
    the analyses are: the histogram of parameter types has one entry per
    type and adds up to the number of parameters, no count of analyses
    exceeds the number of analyses, and no validation message is listed
    twice. *)
Theorem summary_counts (endpoints : list string) (analyses : dict endpoint_analysis) :
  let sm := _generate_comprehensive_summary endpoints analyses in
  total_endpoints sm = length endpoints
  /\ (successful_analyses sm <= length analyses)%nat
  /\ (n_create (crud_operations sm) <= length analyses)%nat
  /\ (n_read (crud_operations sm) <= length analyses)%nat
  /\ (n_update (crud_operations sm) <= length analyses)%nat
  /\ (n_delete (crud_operations sm) <= length analyses)%nat
  /\ list_sum (dict_values (parameter_types sm)) = total_parameters sm
  /\ List.NoDup (dict_keys (parameter_types sm))
  /\ List.NoDup (summary_validation_patterns sm).
Proof.
  cbn zeta. unfold _generate_comprehensive_summary.
  cbn [total_endpoints successful_analyses crud_operations total_parameters
       parameter_types summary_validation_patterns].
  assert (length (dict_values analyses) = length analyses) as Hl.
  { unfold dict_values. apply length_map. }
  split; [reflexivity|]. split.
  { rewrite <- Hl. apply length_filter. }
  pose proof (count_crud_bound (dict_values analyses)
                {| n_create := O; n_read := O; n_update := O; n_delete := O |}) as Hc.
  cbn zeta in Hc. cbn [n_create n_read n_update n_delete] in Hc. rewrite Hl in Hc.
  destruct Hc as (H1 & H2 & H3 & H4).
  repeat (split; [assumption|]).
  split; [|split].
  - rewrite count_types_sum, total_params_sum. reflexivity.
  - apply count_types_nodup. constructor.
  - apply list_set_nodup.
Qed.

(** *** One endpoint *)

Lemma method_schema_get_only endpoint method w :
  String.eqb method "GET" = false ->
  ma_response_schema (fst (_analyze_method_comprehensive endpoint method w)) = PDict [].
Proof.
  intros H. unfold _analyze_method_comprehensive.
  rewrite !bind_run, H. reflexivity.
Qed.

Lemma analyze_endpoint_count endpoint w :
  length (sent (snd (analyze_endpoint endpoint w)))
  = (length (sent w) + 2
     + list_sum (map method_requests (fst (_discover_methods endpoint w))))%nat.
Proof.
  unfold analyze_endpoint. rewrite bind_run.
  rewrite (for_each_count method_requests).
  - rewrite discover_methods_count. lia.
  - intros acc m w'. rewrite bind_run. cbn [ret snd]. apply method_run_count.
Qed.

(** X2.  One method analysis issues one request without parameters, one
    per probed value of every catalog entry, and one more for the schema
    when the method is GET: a number fixed by the catalog, whatever the
    service answers.  The analysis of an endpoint issues the two method
    probes and then one method analysis per method found. *)
Theorem method_analysis_requests endpoint method w :
  length (sent (snd (_analyze_method_comprehensive endpoint method w)))
  = (length (sent w) + method_requests method)%nat
  /\ length (sent (snd (analyze_endpoint endpoint w)))
     = (length (sent w) + 2
        + list_sum (map method_requests (fst (_discover_methods endpoint w))))%nat.
Proof. split; [apply method_run_count|apply analyze_endpoint_count]. Qed.

Lemma analyze_endpoint_run endpoint w :
  let a := fst (analyze_endpoint endpoint w) in
  let methods := fst (_discover_methods endpoint w) in
  ea_endpoint a = endpoint
  /\ ea_status a = "success"
  /\ ea_methods a = methods
  /\ dict_keys (ea_parameters a) = methods
  /\ dict_keys (ea_response_schema a) = methods
  /\ dict_keys (ea_error_responses a) = methods
  /\ dict_keys (ea_parameter_validation a) = methods
  /\ (In "POST" methods -> dict_get "POST" (ea_response_schema a) = Some (PDict [])).
Proof.
  cbn zeta. unfold analyze_endpoint. rewrite bind_run.
  rewrite discover_methods_run.
  destruct (probe_valid (head (pending w))), (probe_valid (head (tl (pending w))));
    cbn [for_each]; rewrite ?bind_run; cbn [ret fst store_method
      ea_endpoint ea_status ea_methods ea_parameters ea_response_schema
      ea_error_responses ea_parameter_validation dict_set dict_keys map
      String.eqb Ascii.eqb Bool.eqb dict_get];
    repeat (split; [reflexivity|]);
    try (intros _; rewrite method_schema_get_only; reflexivity);
    intros [H|[]]; discriminate.
Qed.

(** X15.  The analysis of an endpoint records the endpoint, the status
    success and the methods found, and under each of its four per-method
    headings exactly those methods, in that order.  A response schema is
    inferred for GET only: the schema recorded for POST is the empty
    dictionary. *)
Theorem analyze_endpoint_shape endpoint w :
  let a := fst (analyze_endpoint endpoint w) in
  ea_endpoint a = endpoint
  /\ ea_status a = "success"
  /\ ea_methods a = fst (_discover_methods endpoint w)
  /\ dict_keys (ea_parameters a) = ea_methods a
  /\ dict_keys (ea_response_schema a) = ea_methods a
  /\ dict_keys (ea_error_responses a) = ea_methods a
  /\ dict_keys (ea_parameter_validation a) = ea_methods a
  /\ (In "POST" (ea_methods a) ->
      dict_get "POST" (ea_response_schema a) = Some (PDict [])).
Proof.
  cbn zeta. destruct (analyze_endpoint_run endpoint w)
    as (H1 & H2 & H3 & H4 & H5 & H6 & H7 & H8).
  rewrite H3. auto 10.
Qed.

(** *** The whole run *)

Lemma dict_set_keys {V : Type} (k n : string) (x : V) (d : dict V) :
  In n (dict_keys (dict_set k x d)) <-> n = k \/ In n (dict_keys d).
Proof.
  split; [apply dict_set_keys_in|].
  induction d as [|[k' v'] d IH]; cbn [dict_set dict_keys map fst In].
  - intros [->|[]]. left. reflexivity.
  - destruct (String.eqb_spec k' k) as [->|Hne]; cbn [map fst In].
    + intros [->|[H|H]]; auto.
    + intros [->|[H|H]]; auto.
Qed.

Lemma analyses_run endpoints : forall analyses w,
  let res :=
    fst (for_each endpoints analyses
           (fun analyses endpoint =>
              analysis <- analyze_endpoint endpoint ;;
              ret (dict_set endpoint analysis analyses)) w) in
  (forall e, In e (dict_keys res) <-> In e (dict_keys analyses) \/ In e endpoints)
  /\ (List.NoDup (dict_keys analyses) -> List.NoDup (dict_keys res))
  /\ (List.Forall (fun a => ea_status a = "success") (dict_values analyses) ->
      List.Forall (fun a => ea_status a = "success") (dict_values res)).
Proof.
  induction endpoints as [|e es IH]; intros analyses w; cbn zeta; cbn [for_each].
  - cbn [ret fst]. split; [|auto]. intros x. cbn [In]. tauto.
  - rewrite !bind_run. cbn [ret fst snd].
    match goal with
    | |- context [for_each es ?acc _ ?w'] =>
        specialize (IH acc w'); cbn zeta in IH; destruct IH as (Hk & Hn & Hs)
    end.
    split; [|split].
    + intros x. rewrite Hk, dict_set_keys. cbn [In]. split.
      * intros [[->|H]|H]; auto.
      * intros [H|[<-|H]]; auto.
    + intros H. apply Hn, dict_set_nodup, H.
    + intros H. apply Hs, dict_set_Forall; [|exact H].
      exact (proj1 (proj2 (analyze_endpoint_run e w))).
Qed.

Lemma filter_success (all : list endpoint_analysis) :
  List.Forall (fun a => ea_status a = "success") all ->
  length (filter (fun a => String.eqb (ea_status a) "success") all) = length all.
Proof.
  induction 1 as [|a all Ha Hall IH]; [reflexivity|].
  rewrite filter_cons_True; [cbn [length]; rewrite IH; reflexivity|].
  rewrite Ha. exact I.
Qed.

(** X16.  A run ends in the error document exactly when discovery
    returns nothing.  Otherwise the document has one analysis per
    distinct endpoint discovered, each with the status success, and
    [total_endpoints] is the length of the discovered list: it exceeds
    the number of analyses when the list repeats an endpoint, which
    catalog mode excludes. *)
Theorem analysis_document (now : string) (script : list outcome) :
  match run (generate_analysis now) script with
  | NoEndpoints message url =>
      run discover_endpoints script = []
      /\ message = "No endpoints discovered"
      /\ url = base_url g
  | Analysis md sm endpoints variations =>
      run discover_endpoints script <> []
      /\ (forall e, In e (dict_keys endpoints) <-> In e (run discover_endpoints script))
      /\ List.NoDup (dict_keys endpoints)
      /\ List.Forall (fun a => ea_status a = "success") (dict_values endpoints)
      /\ total_endpoints sm = length (run discover_endpoints script)
      /\ successful_analyses sm = length endpoints
      /\ (successful_analyses sm <= total_endpoints sm)%nat
      /\ (is_custom = false -> successful_analyses sm = total_endpoints sm)
      /\ variations = parameter_variations g
  end.
Proof.
  unfold run, generate_analysis. rewrite bind_run.
  pose proof (discover_endpoints_catalog_nodup {| pending := script; sent := [] |}) as Hcat.
  destruct (discover_endpoints {| pending := script; sent := [] |}) as [found w1].
  cbn [fst snd] in *.
  destruct found as [|e found]; cbn [nonempty negb ret fst]; [auto|].
  rewrite bind_run. cbn [ret fst].
  match goal with
  | |- context [for_each (e :: found) [] ?body w1] =>
      pose proof (analyses_run (e :: found) [] w1) as H; cbn zeta in H;
      match type of H with
      | (forall x, In x (dict_keys ?t) <-> _) /\ _ =>
          change (fst (for_each (e :: found) [] body w1)) with t;
          remember t as analyses eqn:Ean in *; clear Ean
      end;
      destruct H as (Hk & Hn & Hs)
  end.
  specialize (Hn (List.NoDup_nil _)). specialize (Hs (List.Forall_nil _)).
  assert (forall x, In x (dict_keys analyses) <-> In x (e :: found)) as Hk'.
  { intros x. destruct (Hk x) as [A B]. split.
    - intros H. destruct (A H) as [[]|H']. exact H'.
    - intros H. apply B. right. exact H. }
  assert (length analyses = length (dict_keys analyses)) as Hlen.
  { unfold dict_keys. rewrite length_map. reflexivity. }
  assert (length (filter (fun a => String.eqb (ea_status a) "success")
                    (dict_values analyses)) = length analyses) as Hsucc.
  { rewrite (filter_success _ Hs). unfold dict_values. apply length_map. }
  unfold _generate_comprehensive_summary. cbn [total_endpoints successful_analyses].
  rewrite Hsucc.
  split; [discriminate|]. split; [exact Hk'|]. split; [exact Hn|]. split; [exact Hs|].
  split; [reflexivity|]. split; [reflexivity|]. split; [|split; [|reflexivity]].
  - rewrite Hlen. apply NoDup_incl_length; [exact Hn|]. intros x Hx. apply Hk', Hx.
  - intros Hc. specialize (Hcat Hc). apply Nat.le_antisymm.
    + rewrite Hlen. apply NoDup_incl_length; [exact Hn|]. intros x Hx. apply Hk', Hx.
    + rewrite Hlen. apply NoDup_incl_length; [exact Hcat|]. intros x Hx. apply Hk', Hx.
Qed.



(** ** The emitter's names *)

(** X17.  The type conversion of the emitter lands in the four
    primitive types of OpenAPI and leaves each of them as it is; it
    fails only on a value that cannot be a dictionary key. *)
Theorem convert_parameter_type_range (param_type : pyval) :
  match _convert_parameter_type param_type with
  | Some t =>
      In t ["string"; "integer"; "number"; "boolean"]
      /\ _convert_parameter_type (PStr t) = Some t
  | None =>
      match param_type with
      | PList _ | PDict _ => True
      | _ => False
      end
  end.
Proof.
  destruct param_type as [| | | |s| |]; cbn [_convert_parameter_type];
    try exact I; try (split; [simpl; auto 10|reflexivity]).
  unfold dict_get_default, type_mapping. cbn [dict_get].
  repeat match goal with
         | |- context [String.eqb ?a s] => destruct (String.eqb a s)
         end; (split; [simpl; auto 10|reflexivity]).
Qed.

Lemma replace_char_absorbs a c s :
  PyStr.replace_char a c (PyStr.replace_char a c s) = PyStr.replace_char a c s.
Proof.
  induction s as [|x s IH]; [reflexivity|].
  cbn [PyStr.replace_char]. rewrite IH. f_equal.
  destruct (Ascii.eqb_spec x a) as [->|Hxa].
  - destruct (Ascii.eqb c a); reflexivity.
  - destruct (Ascii.eqb_spec x a); [contradiction|reflexivity].
Qed.

Lemma replace_slash_hyphen s :
  PyStr.replace_char "-"%char "_"%char
    (PyStr.replace_char "/"%char "_"%char (PyStr.replace_char "-"%char "/"%char s))
  = PyStr.replace_char "-"%char "_"%char (PyStr.replace_char "/"%char "_"%char s).
Proof.
  induction s as [|x s IH]; [reflexivity|].
  cbn [PyStr.replace_char]. rewrite IH. f_equal.
  destruct (Ascii.eqb_spec x "-"%char) as [->|H2]; [reflexivity|].
  destruct (Ascii.eqb_spec x "/"%char) as [->|H1]; reflexivity.
Qed.

Lemma replaced_plain s :
  PyStr.all_chars plain_char
    (PyStr.replace_char "-"%char "_"%char (PyStr.replace_char "/"%char "_"%char s))
  = true.
Proof.
  induction s as [|x s IH]; [reflexivity|].
  cbn [PyStr.replace_char PyStr.all_chars]. rewrite IH, andb_true_r.
  unfold plain_char.
  destruct (Ascii.eqb_spec x "/"%char) as [->|H1]; [reflexivity|].
  destruct (Ascii.eqb_spec x "-"%char) as [->|H2]; [reflexivity|].
  destruct (Ascii.eqb_spec x "/"%char); [contradiction|].
  destruct (Ascii.eqb_spec x "-"%char); [contradiction|reflexivity].
Qed.

Lemma lstrip_char_all p c s :
  PyStr.all_chars p s = true -> PyStr.all_chars p (PyStr.lstrip_char c s) = true.
Proof.
  induction s as [|x s IH]; [reflexivity|]. intros H. cbn [PyStr.lstrip_char].
  destruct (Ascii.eqb x c); [|exact H].
  cbn [PyStr.all_chars] in H. apply andb_prop in H. apply IH, H.
Qed.

Lemma rstrip_char_cons c a s :
  PyStr.rstrip_char c (String a s)
  = match PyStr.rstrip_char c s with
    | EmptyString => if Ascii.eqb a c then EmptyString else String a EmptyString
    | r => String a r
    end.
Proof. reflexivity. Qed.

Lemma rstrip_char_all p c s :
  PyStr.all_chars p s = true -> PyStr.all_chars p (PyStr.rstrip_char c s) = true.
Proof.
  induction s as [|x s IH]; [reflexivity|]. intros H.
  cbn [PyStr.all_chars] in H. apply andb_prop in H. destruct H as [Hx Hs].
  rewrite rstrip_char_cons. specialize (IH Hs).
  destruct (PyStr.rstrip_char c s) as [|y r].
  - destruct (Ascii.eqb x c); [reflexivity|]. cbn [PyStr.all_chars]. rewrite Hx. reflexivity.
  - cbn [PyStr.all_chars] in *. rewrite Hx. exact IH.
Qed.

Lemma lstrip_char_head c s :
  PyStr.lstrip_char c s = EmptyString
  \/ exists a t, PyStr.lstrip_char c s = String a t /\ Ascii.eqb a c = false.
Proof.
  induction s as [|x s IH]; [left; reflexivity|].
  cbn [PyStr.lstrip_char]. destruct (Ascii.eqb x c) eqn:E; [exact IH|]. right. eauto.
Qed.

Lemma strip_char_head c s :
  PyStr.startswith (String c EmptyString) (PyStr.strip_char c s) = false.
Proof.
  unfold PyStr.strip_char, PyStr.startswith.
  destruct (lstrip_char_head c s) as [->|(a & t & -> & Ha)]; [reflexivity|].
  rewrite rstrip_char_cons.
  assert (forall r, String.prefix (String c EmptyString) (String a r) = false) as Hp.
  { intros r. cbn [String.prefix]. destruct (ascii_dec c a) as [->|]; [|reflexivity].
    rewrite Ascii.eqb_refl in Ha. discriminate. }
  destruct (PyStr.rstrip_char c t); [rewrite Ha|]; apply Hp.
Qed.

(** X18.  The operation identifier is the lower-case method, an
    underscore, and the path with every slash and hyphen turned into an
    underscore and the underscores at both ends removed: it holds no
    slash and no hyphen after the method, and paths that differ only in
    a slash, a hyphen or an underscore at some place get the same
    identifier. *)
Theorem operation_id_collisions (method_lower endpoint : string) :
  operation_id method_lower (PyStr.replace_char "-"%char "/"%char endpoint)
  = operation_id method_lower endpoint
  /\ operation_id method_lower (PyStr.replace_char "/"%char "_"%char endpoint)
     = operation_id method_lower endpoint
  /\ exists body,
       operation_id method_lower endpoint = method_lower +:+ "_" +:+ body
       /\ PyStr.all_chars plain_char body = true
       /\ PyStr.startswith "_" body = false.
Proof.
  unfold operation_id. split; [|split].
  - rewrite replace_slash_hyphen. reflexivity.
  - rewrite replace_char_absorbs. reflexivity.
  - eexists. split; [reflexivity|]. split; [|apply strip_char_head].
    unfold PyStr.strip_char. apply rstrip_char_all, lstrip_char_all, replaced_plain.
Qed.

Lemma tag_of_segments e :
  tag_of e = match after_segment e with
             | EmptyString => "default"
             | String _ u => segment u
             end.
Proof.
  unfold tag_of. fold slash. rewrite (split_char_segment e).
  destruct (after_segment e) as [|c u]; [reflexivity|].
  rewrite (split_char_segment u). reflexivity.
Qed.

(** X19.  The tag of a path is the text between its first slash and the
    next one.  For a path that begins with a slash this is its first
    segment, which is empty for the root path; the tag is the word
    default only for a text without a slash. *)
Theorem tag_of_first_segment (endpoint : string) :
  tag_of endpoint = match after_segment endpoint with
                    | EmptyString => "default"
                    | String _ u => segment u
                    end
  /\ tag_of ("/" +:+ endpoint) = segment endpoint
  /\ (PyStr.all_chars not_slash endpoint = true -> tag_of endpoint = "default").
Proof.
  split; [apply tag_of_segments|]. split.
  - rewrite tag_of_segments. change ("/" +:+ endpoint) with (String slash endpoint).
    cbn [after_segment]. unfold not_slash. rewrite Ascii.eqb_refl. reflexivity.
  - intros H. rewrite tag_of_segments.
    assert (after_segment endpoint = EmptyString) as ->; [|reflexivity].
    induction endpoint as [|c s IH]; [reflexivity|].
    cbn [PyStr.all_chars] in H. apply andb_prop in H. destruct H as [Hc Hs].
    cbn [after_segment]. rewrite Hc. exact (IH Hs).
Qed.



(** ** The paths and the tags of the emitted document *)

Lemma tag_names_objects names : tag_names (map tag_object names) = names.
Proof.
  induction names as [|n names IH]; [reflexivity|].
  cbn [map]. unfold tag_names. cbn [flat_map].
  fold (tag_names (map tag_object names)). rewrite IH. reflexivity.
Qed.

Lemma mem_in x l : PyStr.mem x l = true <-> In x l.
Proof.
  unfold PyStr.mem. rewrite existsb_exists. split.
  - intros (y & Hy & E). apply String.eqb_eq in E. subst. exact Hy.
  - intros H. exists x. split; [exact H|apply String.eqb_refl].
Qed.

Lemma add_tag_objects n names :
  List.NoDup names ->
  exists names',
    add_tag n (map tag_object names) = map tag_object names'
    /\ List.NoDup names'
    /\ forall x, In x names' <-> In x names \/ x = n.
Proof.
  intros Hnd. unfold add_tag. rewrite tag_names_objects.
  destruct (PyStr.mem n names) eqn:E.
  - exists names. split; [reflexivity|]. split; [exact Hnd|].
    intros x. split; [auto|]. intros [H| ->]; [exact H|]. apply mem_in, E.
  - exists (names ++ [n]). split; [rewrite map_app; reflexivity|]. split.
    + apply List.NoDup_app; [exact Hnd| |].
      * constructor; [intros []|constructor].
      * intros x Hx [<-|[]]. apply mem_in in Hx. congruence.
    + intros x. rewrite in_app_iff. cbn [In]. intuition auto.
Qed.

Lemma create_paths_run eps : forall paths names paths' tags',
  create_paths eps paths (map tag_object names) = Some (paths', tags') ->
  List.NoDup names ->
  exists names',
    tags' = map tag_object names'
    /\ List.NoDup names'
    /\ (forall n, In n names' <->
          In n names
          \/ exists e data, In (e, data) eps /\ succeeded data = true /\ n = tag_of e)
    /\ (forall k, In k (dict_keys paths') <->
          In k (dict_keys paths)
          \/ exists data, In (k, data) eps /\ succeeded data = true).
Proof.
  induction eps as [|[endpoint data] eps IH]; intros paths names paths' tags' H Hnd;
    cbn [create_paths] in H.
  - injection H as <- <-. exists names. split; [reflexivity|]. split; [exact Hnd|].
    split; intros x; (split; [auto|]).
    + intros [Hx|(e & d & [] & _)]. exact Hx.
    + intros [Hx|(d & [] & _)]. exact Hx.
  - destruct (py_get "status" PNone data) as [status|] eqn:Est;
      cbn [obind] in H; [|discriminate].
    assert (succeeded data = is_str "success" status) as Hsucc.
    { unfold succeeded. rewrite Est. reflexivity. }
    destruct (is_str "success" status); cbn [negb] in H.
    + destruct (py_get "methods" (PList []) data) as [methods|];
        cbn [obind] in H; [|discriminate].
      destruct (iterate methods) as [ms|]; cbn [obind] in H; [|discriminate].
      destruct (create_path endpoint data ms []) as [path_obj|];
        cbn [obind] in H; [|discriminate].
      destruct (add_tag_objects (tag_of endpoint) names Hnd) as (names1 & E1 & Hnd1 & Hin1).
      rewrite E1 in H.
      destruct (IH _ _ _ _ H Hnd1) as (names' & -> & Hnd' & Hn & Hk).
      exists names'. split; [reflexivity|]. split; [exact Hnd'|]. split.
      * intros n. rewrite Hn, Hin1. split.
        -- intros [[Hx| ->]|(e & d & Hin & Hs & ->)]; [left; exact Hx| |].
           ++ right. exists endpoint, data. split; [left; reflexivity|]. split; [exact Hsucc|reflexivity].
           ++ right. exists e, d. split; [right; exact Hin|]. split; [exact Hs|reflexivity].
        -- intros [Hx|(e & d & [[= <- <-]|Hin] & Hs & ->)].
           ++ left. left. exact Hx.
           ++ left. right. reflexivity.
           ++ right. exists e, d. split; [exact Hin|]. split; [exact Hs|reflexivity].
      * intros k. rewrite Hk, dict_set_keys. split.
        -- intros [[->|Hx]|(d & Hin & Hs)]; [|left; exact Hx|].
           ++ right. exists data. split; [left; reflexivity|exact Hsucc].
           ++ right. exists d. split; [right; exact Hin|exact Hs].
        -- intros [Hx|(d & [[= <- <-]|Hin] & Hs)].
           ++ left. right. exact Hx.
           ++ left. left. reflexivity.
           ++ right. exists d. split; [exact Hin|exact Hs].
    + destruct (IH _ _ _ _ H Hnd) as (names' & -> & Hnd' & Hn & Hk).
      exists names'. split; [reflexivity|]. split; [exact Hnd'|]. split.
      * intros n. rewrite Hn. split.
        -- intros [Hx|(e & d & Hin & Hs & ->)]; [left; exact Hx|].
           right. exists e, d. split; [right; exact Hin|]. split; [exact Hs|reflexivity].
        -- intros [Hx|(e & d & [[= <- <-]|Hin] & Hs & ->)]; [left; exact Hx| |].
           ++ rewrite Hsucc in Hs. discriminate.
           ++ right. exists e, d. split; [exact Hin|]. split; [exact Hs|reflexivity].
      * intros k. rewrite Hk. split.
        -- intros [Hx|(d & Hin & Hs)]; [left; exact Hx|].
           right. exists d. split; [right; exact Hin|exact Hs].
        -- intros [Hx|(d & [[= <- <-]|Hin] & Hs)]; [left; exact Hx| |].
           ++ rewrite Hsucc in Hs. discriminate.
           ++ right. exists d. split; [exact Hin|exact Hs].
Qed.

(** X20.  When the emitter gets through the endpoint entries, the paths
    of the document are the endpoints whose status is success, and its
    tags are the tag objects of their tags, each tag once: two endpoints
    under the same first segment share one tag. *)
Theorem paths_and_tags (endpoints : dict pyval) (paths : dict pyval) (tags : list pyval) :
  create_paths endpoints [] [] = Some (paths, tags) ->
  exists names,
    tags = map tag_object names
    /\ List.NoDup names
    /\ (forall n, In n names <->
          exists e data, In (e, data) endpoints /\ succeeded data = true /\ n = tag_of e)
    /\ (forall k, In k (dict_keys paths) <->
          exists data, In (k, data) endpoints /\ succeeded data = true).
Proof.
  intros H.
  destruct (create_paths_run endpoints [] [] paths tags H (List.NoDup_nil _))
    as (names & -> & Hnd & Hn & Hk).
  exists names. split; [reflexivity|]. split; [exact Hnd|]. split.
  - intros n. rewrite Hn. cbn [In]. tauto.
  - intros k. rewrite Hk. cbn [dict_keys map In]. tauto.
Qed.



(** ** From a profile to the emitted parameter *)

Lemma infer_parameter_type_range accepted :
  In (_infer_parameter_type accepted) ["string"; "integer"; "boolean"; "date"].
Proof.
  unfold _infer_parameter_type.
  destruct (negb (nonempty accepted)); [simpl; auto|].
  destruct (forallb is_digits accepted); [simpl; auto|].
  destruct (forallb is_boolean_word accepted); [simpl; auto|].
  destruct (forallb is_date accepted); simpl; auto.
Qed.

(** X21.  A profiled parameter reaches the document exactly when at
    least one probed value was accepted.  Its object then gives the
    name, the place query, required false, and a schema with the type
    (a date is a string with the format date), the default value of the
    catalog entry, and a description that lists the first three accepted
    values, with an ellipsis when there are more. *)
Theorem profiled_parameter_object url method param_name info
    (vs : dict validation_info) (w : world) :
  let pa := fst (_analyze_parameter_comprehensive url method param_name info w) in
  let v := pa_validation_info pa in
  create_parameter (dump_dict dump_validation_info (dict_set param_name v vs))
    param_name (dump_parameter_info (pa_parameter_info pa))
  = Some (if nonempty (accepted_values v)
          then Some (PDict [("name", PStr param_name);
                            ("in", PStr "query");
                            ("required", PBool false);
                            ("schema",
                             parameter_schema param_name (vi_type v)
                               (p_default info) (accepted_values v))])
          else None).
Proof.
  cbn zeta.
  destruct (profile_spec url method param_name info w) as (_ & _ & Hq & Ht & Hp).
  cbn zeta in Hq, Ht, Hp. rewrite Hp.
  remember (pa_validation_info
              (fst (_analyze_parameter_comprehensive url method param_name info w)))
    as v eqn:Ev. clear Ev Hp.
  pose proof (infer_parameter_type_range (accepted_values v)) as Hrange.
  rewrite <- Ht in Hrange. clear Ht.
  unfold create_parameter.
  change (py_get "accepted" (PBool false) (dump_parameter_info _))
    with (Some (PBool (nonempty (accepted_values v)))).
  cbn [obind]. rewrite py_get_dump, dict_get_set, String.eqb_refl. cbn [obind].
  change (py_get "accepted_values" (PList []) (dump_validation_info v))
    with (Some (dump_strings (accepted_values v))).
  cbn [obind dump_strings py_len truthy]. rewrite length_map.
  destruct (accepted_values v) as [|x l] eqn:Hl; [reflexivity|].
  cbn [nonempty orb].
  change (py_get "required" (PBool false) (dump_parameter_info _))
    with (Some (PBool (required v))).
  rewrite Hq. cbn [nonempty negb]. rewrite andb_false_r. cbn [obind].
  change (py_get "accepted_values" PNone (dump_validation_info v))
    with (Some (dump_strings (accepted_values v))).
  rewrite Hl. cbn [obind dump_strings map truthy].
  assert (accepted_description param_name (dump_strings (x :: l))
          = Some (param_name +:+ " parameter. Accepted values: "
                  +:+ PyStr.join ", " (firstn 3 (x :: l))
                  +:+ (if (3 <? length (x :: l))%nat then "..." else ""))) as ->.
  { unfold accepted_description, dump_strings.
    rewrite firstn_map, strings_of_dump, length_map. reflexivity. }
  unfold parameter_schema.
  destruct Hrange as [<-|[<-|[<-|[<-|[]]]]]; reflexivity.
Qed.



(** ** From the analysis to the emitted document *)

Lemma create_path_keys endpoint data ms : forall acc p,
  create_path endpoint data ms acc = Some p ->
  forall k, In k (dict_keys p) <-> In k (dict_keys acc) \/ In k (map PyStr.lower ms).
Proof.
  induction ms as [|m ms IH]; intros acc p H; cbn [create_path] in H.
  - injection H as <-. intros k. cbn [map In]. tauto.
  - destruct (_create_operation endpoint m data) as [op|]; cbn [obind] in H; [|discriminate].
    intros k. rewrite (IH _ _ H k), dict_set_keys. cbn [map In].
    split; [intros [[->|Hk]|Hk]|intros [Hk|[<-|Hk]]]; auto.
Qed.

Lemma analyze_endpoint_methods endpoint w :
  known_methods (fst (analyze_endpoint endpoint w)).
Proof.
  unfold known_methods.
  rewrite (proj1 (proj2 (proj2 (analyze_endpoint_run endpoint w)))).
  rewrite discover_methods_run.
  destruct (probe_valid (head (pending w))), (probe_valid (head (tl (pending w))));
    (split; [discriminate|]); cbn [In]; intros m H; intuition auto.
Qed.

Lemma analyses_methods endpoints : forall analyses w,
  List.Forall known_methods (dict_values analyses) ->
  List.Forall known_methods
    (dict_values
       (fst (for_each endpoints analyses
               (fun analyses endpoint =>
                  analysis <- analyze_endpoint endpoint ;;
                  ret (dict_set endpoint analysis analyses)) w))).
Proof.
  intros analyses w H.
  apply (for_each_invariant
           (fun acc => List.Forall known_methods (dict_values acc))); [|exact H].
  intros acc e w' Hacc. rewrite bind_run. cbn [ret fst].
  apply dict_set_Forall; [apply analyze_endpoint_methods|exact Hacc].
Qed.

Lemma create_paths_methods (endpoints : dict endpoint_analysis) :
  List.Forall known_methods (dict_values endpoints) ->
  forall paths tags paths' tags',
    List.Forall method_keys (dict_values paths) ->
    create_paths (map (fun kv => (fst kv, dump_endpoint_analysis (snd kv))) endpoints)
      paths tags = Some (paths', tags') ->
    List.Forall method_keys (dict_values paths').
Proof.
  induction endpoints as [|[endpoint a] endpoints IH];
    intros Hall paths tags paths' tags' Hp H; cbn [map fst snd create_paths] in H.
  - injection H as <- <-. exact Hp.
  - cbn [dict_values map snd] in Hall. inversion Hall as [|? ? Ha Hrest]; subst.
    change (py_get "status" PNone (dump_endpoint_analysis a))
      with (Some (PStr (ea_status a))) in H.
    cbn [obind] in H. destruct (negb (is_str "success" (PStr (ea_status a)))).
    + exact (IH Hrest _ _ _ _ Hp H).
    + change (py_get "methods" (PList []) (dump_endpoint_analysis a))
        with (Some (dump_strings (ea_methods a))) in H.
      cbn [obind dump_strings iterate] in H. rewrite strings_of_dump in H.
      cbn [obind] in H.
      destruct (create_path endpoint (dump_endpoint_analysis a) (ea_methods a) [])
        as [path_obj|] eqn:E; cbn [obind] in H; [|discriminate].
      refine (IH Hrest _ _ _ _ _ H). apply dict_set_Forall; [|exact Hp].
      pose proof (create_path_keys _ _ _ _ _ E) as Hk.
      destruct Ha as [Hne Hm]. exists path_obj. split; [reflexivity|]. split.
      * intros ->. destruct (ea_methods a) as [|m ms]; [contradiction|].
        destruct (proj2 (Hk (PyStr.lower m))) as [].
        right. left. reflexivity.
      * intros k Hin. apply Hk in Hin. destruct Hin as [[]|Hin].
        apply in_map_iff in Hin. destruct Hin as (m & <- & Hin).
        destruct (Hm m Hin) as [->| ->]; [left|right]; reflexivity.
Qed.

Lemma dumped_succeeded (analyses : dict endpoint_analysis) :
  List.Forall (fun a => ea_status a = "success") (dict_values analyses) ->
  forall k,
    (exists data,
       In (k, data) (map (fun kv => (fst kv, dump_endpoint_analysis (snd kv))) analyses)
       /\ succeeded data = true)
    <-> In k (dict_keys analyses).
Proof.
  intros Hall k. rewrite List.Forall_forall in Hall. split.
  - intros (data & Hin & _). apply in_map_iff in Hin.
    destruct Hin as ([k' a] & [= <- _] & Hin). apply (in_map fst) in Hin. exact Hin.
  - intros Hin. apply in_map_iff in Hin. destruct Hin as ([k' a] & <- & Hin).
    exists (dump_endpoint_analysis a). split.
    + apply in_map_iff. exists (k', a). split; [reflexivity|exact Hin].
    + unfold succeeded.
      change (py_get "status" PNone (dump_endpoint_analysis a))
        with (Some (PStr (ea_status a))).
      rewrite (Hall a); [reflexivity|]. apply (in_map snd) in Hin. exact Hin.
Qed.

(** X22.  From the analysis of a run the emitter produces a document
    whose paths are the endpoints discovery returned, each with at least
    one operation, under get or post, and whose tags are the tags of
    these endpoints, each once.  When an endpoint was discovered the
    server of the document is the base URL. *)
Theorem emitted_paths (now : string) (script : list outcome) :
  exists spec paths names,
    generate_swagger_spec (dump_analysis (run (generate_analysis now) script)) = Some spec
    /\ spec_field "paths" (Some spec) = Some (PDict paths)
    /\ spec_field "tags" (Some spec) = Some (PList (map tag_object names))
    /\ (forall e, In e (dict_keys paths) <-> In e (run discover_endpoints script))
    /\ List.Forall method_keys (dict_values paths)
    /\ List.NoDup names
    /\ (forall n, In n names <->
          exists e, In e (run discover_endpoints script) /\ n = tag_of e)
    /\ (run discover_endpoints script <> [] ->
        spec_field "servers" (Some spec)
        = Some (PList [PDict [("url", PStr (base_url g));
                              ("description", PStr "Production server")]])).
Proof.
  unfold run, generate_analysis. rewrite bind_run.
  destruct (discover_endpoints {| pending := script; sent := [] |}) as [found w1].
  cbn [fst snd].
  destruct found as [|e found]; cbn [nonempty negb ret fst].
  - eexists. exists [], []. split; [reflexivity|].
    split; [reflexivity|]. split; [reflexivity|]. split; [tauto|].
    split; [constructor|]. split; [constructor|]. split; [|congruence].
    intros n. split; [intros []|intros (x & [] & _)].
  - rewrite bind_run. cbn [ret fst dump_analysis].
    match goal with
    | |- context [for_each (e :: found) [] ?body w1] =>
        pose proof (analyses_run (e :: found) [] w1) as H; cbn zeta in H;
        pose proof (analyses_profiled (e :: found) [] w1 (List.Forall_nil _)) as Hprof;
        pose proof (analyses_methods (e :: found) [] w1 (List.Forall_nil _)) as Hmeth;
        match type of H with
        | (forall x, In x (dict_keys ?t) <-> _) /\ _ =>
            change (fst (for_each (e :: found) [] body w1)) with t;
            change (fst (for_each (e :: found) [] body w1)) with t in Hprof;
            change (fst (for_each (e :: found) [] body w1)) with t in Hmeth;
            remember t as analyses eqn:Ean in *; clear Ean
        end;
        destruct H as (Hk & _ & Hs)
    end.
    specialize (Hs (List.Forall_nil _)).
    unfold generate_swagger_spec. cbn [truthy negb].
    cbn [py_get dict_get_default dict_get String.eqb Ascii.eqb Bool.eqb obind dump_metadata].
    unfold dump_dict at 1.
    destruct (create_paths_dump analyses Hprof [] []) as (paths & tags & Hc & _);
      [constructor|].
    rewrite Hc. cbn [obind fst snd].
    destruct (create_paths_run _ [] [] paths tags Hc (List.NoDup_nil _))
      as (names & -> & Hnd & Hn & Hp).
    pose proof (create_paths_methods analyses Hmeth [] (map tag_object []) paths _
                  (List.Forall_nil _) Hc) as Hm.
    eexists. exists paths, names. split; [reflexivity|].
    split; [reflexivity|]. split; [reflexivity|].
    assert (forall k, In k (dict_keys paths) <-> In k (e :: found)) as Hpaths.
    { intros k. rewrite Hp, (dumped_succeeded analyses Hs k), Hk.
      cbn [dict_keys map In]. tauto. }
    split; [exact Hpaths|]. split; [exact Hm|]. split; [exact Hnd|]. split.
    + intros n. rewrite Hn. split.
      * intros [[]|(x & data & Hin & Hsd & ->)]. exists x. split; [|reflexivity].
        apply Hpaths, Hp. right. exists data. auto.
      * intros (x & Hx & ->). right.
        apply Hpaths, Hp in Hx. destruct Hx as [[]|(data & Hin & Hsd)].
        exists x, data. auto.
    + intros _. reflexivity.
Qed.



(** ** From a response body to the emitted schema *)

Lemma convert_inferred k v :
  convert_property k
    (PDict [("type", PStr (_infer_type_comprehensive v)); ("example", v)])
  = Some (snd (emitted_property (k, v))).
Proof.
  unfold emitted_property. cbn [fst snd].
  destruct v as [| | | |s| |]; try reflexivity.
  cbn [_infer_type_comprehensive].
  destruct (matches date_prefix_pattern s); [reflexivity|].
  destruct (matches uuid_pattern s); [reflexivity|].
  destruct (PyStr.contains "@" s && PyStr.contains "." s); [reflexivity|].
  destruct (PyStr.startswith "http" s); reflexivity.
Qed.

Lemma convert_inferred_properties (d : dict pyval) : forall acc,
  List.NoDup (dict_keys acc ++ dict_keys d) ->
  convert_properties
    (map (fun kv => (fst kv,
                     PDict [("type", PStr (_infer_type_comprehensive (snd kv)));
                            ("example", snd kv)])) d) acc
  = Some (acc ++ map emitted_property d).
Proof.
  induction d as [|[k v] d IH]; intros acc Hnd; cbn [map convert_properties fst snd].
  - rewrite app_nil_r. reflexivity.
  - rewrite convert_inferred. cbn [obind].
    cbn [dict_keys map fst] in Hnd.
    rewrite dict_set_fresh.
    + rewrite IH.
      * rewrite <- app_assoc. reflexivity.
      * unfold dict_keys in *. rewrite map_app. cbn [map fst emitted_property].
        rewrite <- app_assoc. exact Hnd.
    + intros Hin. apply NoDup_remove_2 in Hnd. apply Hnd.
      apply in_or_app. left. exact Hin.
Qed.

Lemma emitted_inferred_object d :
  List.NoDup (dict_keys d) ->
  exists s,
    _infer_object_schema_comprehensive (PDict d) = Some s
    /\ _create_response_schema s = Some (emitted_object d).
Proof.
  intros Hnd. eexists. split; [reflexivity|].
  rewrite (fold_dict_set
             (fun kv => PDict [("type", PStr (_infer_type_comprehensive (snd kv)));
                               ("example", snd kv)]) d [] Hnd).
  cbn [app]. rewrite create_response_schema_dict.
  cbn [nonempty negb]. cbv zeta.
  cbn [dict_get_default dict_get String.eqb Ascii.eqb Bool.eqb is_str].
  rewrite (convert_inferred_properties d [] Hnd). reflexivity.
Qed.

(** X23.  The schema emitted for the body of a GET answered 200.  A
    JSON object with distinct keys gives an object schema with one
    property per field, in order; a list whose first element is such an
    object gives an array of that object schema.  A field holding a
    list, an object or a UUID is given the type string without a
    format.  Every other body - a scalar, an empty list, a list of
    scalars, a body that is not JSON - gives the empty object schema. *)
Theorem emitted_response_schema (r : response) :
  (forall d, json r = Some (PDict d) -> List.NoDup (dict_keys d) ->
     _create_response_schema (_analyze_response_schema_comprehensive r)
     = Some (emitted_object d))
  /\ (forall d rest, json r = Some (PList (PDict d :: rest)) ->
      List.NoDup (dict_keys d) ->
      _create_response_schema (_analyze_response_schema_comprehensive r)
      = Some (PDict [("type", PStr "array"); ("items", emitted_object d)]))
  /\ (match _safe_json r with
      | PDict _ | PList (PDict _ :: _) => True
      | _ =>
          _create_response_schema (_analyze_response_schema_comprehensive r)
          = Some default_object
      end)
  /\ (forall k v,
        In (_infer_type_comprehensive v) ["array"; "object"; "uuid"; "string"] ->
        snd (emitted_property (k, v))
        = PDict [("type", PStr "string"); ("description", PStr (k +:+ " field"))]).
Proof.
  unfold _analyze_response_schema_comprehensive, _safe_json.
  split; [|split; [|split]].
  - intros d -> Hnd. destruct (emitted_inferred_object d Hnd) as (s & -> & Hs). exact Hs.
  - intros d rest -> Hnd. destruct (emitted_inferred_object d Hnd) as (s & -> & Hs).
    rewrite create_response_schema_dict. cbn [nonempty negb]. cbv zeta.
    cbn [dict_get_default dict_get String.eqb Ascii.eqb Bool.eqb is_str].
    rewrite Hs. reflexivity.
  - destruct (json r) as [[| | | | |[|[| | | | | |d] rest]|d]|]; try exact I; reflexivity.
  - intros k v H. unfold emitted_property. cbn [fst snd].
    cbn [In] in H. destruct H as [<-|[<-|[<-|[<-|[]]]]]; reflexivity.
Qed.



(** ** The two date recognisers *)

Lemma date_text_prefix y1 y2 y3 y4 m1 m2 d1 d2 tail :
  forallb Re.digit [y1; y2; y3; y4; m1; m2; d1; d2] = true ->
  matches date_prefix_pattern (date_text y1 y2 y3 y4 m1 m2 d1 d2 tail) = true.
Proof.
  intros Hd. cbn [forallb] in Hd.
  repeat (apply andb_true_iff in Hd; destruct Hd as [? Hd]).
  unfold matches, Re.re_match, date_prefix_pattern, date_text.
  cbn [Re.times Re.rmatch Re.chr Nat.eqb Re.accept].
  repeat match goal with H : Re.digit _ = true |- _ => rewrite H; clear H end.
  rewrite !Ascii.eqb_refl. reflexivity.
Qed.

Lemma date_text_not_digits y1 y2 y3 y4 m1 m2 d1 d2 tail :
  is_digits (date_text y1 y2 y3 y4 m1 m2 d1 d2 tail) = false.
Proof.
  unfold is_digits, PyStr.isdigit, date_text. cbn [PyStr.all_chars].
  change (PyStr.isdigit_char dash) with false.
  cbn [andb]. rewrite !andb_false_r. reflexivity.
Qed.

Lemma date_text_not_boolean y1 y2 y3 y4 m1 m2 d1 d2 tail :
  is_boolean_word (date_text y1 y2 y3 y4 m1 m2 d1 d2 tail) = false.
Proof.
  destruct (is_boolean_word (date_text y1 y2 y3 y4 m1 m2 d1 d2 tail)) eqn:E;
    [|reflexivity].
  apply is_boolean_word_spec in E.
  assert (forall s, String.length (PyStr.lower s) = String.length s) as Hlen.
  { induction s as [|c s IH]; [reflexivity|]. cbn [PyStr.lower String.length].
    rewrite IH. reflexivity. }
  destruct E as [E|E]; apply (f_equal String.length) in E;
    rewrite Hlen in E; unfold date_text in E; cbn [String.length] in E; lia.
Qed.

(** X25.  The two date recognisers differ.  In a response body a string
    is a date as soon as it begins with four digits, two and two,
    separated by hyphens, whatever follows; as a parameter value such a
    text is a date only when nothing follows, one final line break
    apart, and a string otherwise.  A timestamp is a date in a body and
    a string as a parameter. *)
Theorem date_recognisers (y1 y2 y3 y4 m1 m2 d1 d2 : ascii) (tail : string) :
  forallb Re.digit [y1; y2; y3; y4; m1; m2; d1; d2] = true ->
  _infer_type_comprehensive (PStr (date_text y1 y2 y3 y4 m1 m2 d1 d2 tail)) = "date"
  /\ (_infer_parameter_type [date_text y1 y2 y3 y4 m1 m2 d1 d2 tail] = "date"
      <-> tail = EmptyString \/ tail = String Re.newline EmptyString)
  /\ (_infer_parameter_type [date_text y1 y2 y3 y4 m1 m2 d1 d2 tail] = "date"
      \/ _infer_parameter_type [date_text y1 y2 y3 y4 m1 m2 d1 d2 tail] = "string").
Proof.
  intros Hd. split.
  - cbn [_infer_type_comprehensive]. rewrite (date_text_prefix _ _ _ _ _ _ _ _ _ Hd).
    reflexivity.
  - unfold _infer_parameter_type. cbn [nonempty negb forallb].
    rewrite date_text_not_digits, date_text_not_boolean. cbn [andb].
    rewrite andb_true_r.
    destruct (is_date (date_text y1 y2 y3 y4 m1 m2 d1 d2 tail)) eqn:E.
    + split; [|left; reflexivity]. split; [intros _|reflexivity].
      apply is_date_shape in E.
      destruct E as (a1 & a2 & a3 & a4 & b1 & b2 & c1 & c2 & t & Ht & _ & Hc).
      unfold date_text in Ht. injection Ht as _ _ _ _ _ _ _ _ ->. exact Hc.
    + split; [|right; reflexivity]. split; [discriminate|].
      intros Hc. assert (is_date (date_text y1 y2 y3 y4 m1 m2 d1 d2 tail) = true) as E'.
      { apply is_date_shape. exists y1, y2, y3, y4, m1, m2, d1, d2, tail. auto. }
      congruence.
Qed.



(** ** One operation *)

(** X26.  Whatever the analysis holds, an operation the emitter builds
    has the identifier and the tag computed from the method and the
    path and the three responses 200, 400 and 404.  It has a request
    body exactly when the method is written POST, PUT or PATCH in upper
    case. *)
Theorem operation_fields (endpoint method : string) (endpoint_data operation : pyval) :
  _create_operation endpoint method endpoint_data = Some operation ->
  exists d,
    operation = PDict d
    /\ dict_get "operationId" d
       = Some (PStr (operation_id (PyStr.lower method) endpoint))
    /\ dict_get "tags" d = Some (PList [PStr (tag_of endpoint)])
    /\ dict_get "requestBody" d
       = (if PyStr.mem method ["POST"; "PUT"; "PATCH"]
          then Some (request_body method endpoint) else None)
    /\ exists responses,
         dict_get "responses" d = Some (PDict responses)
         /\ dict_keys responses = ["200"; "400"; "404"].
Proof.
  unfold _create_operation. intros H.
  destruct (py_get "parameters" (PDict []) endpoint_data) as [by1|];
    cbn [obind] in H; [|discriminate].
  destruct (py_get method (PDict []) by1) as [method_params|];
    cbn [obind] in H; [|discriminate].
  destruct (py_get "response_schema" (PDict []) endpoint_data) as [by2|];
    cbn [obind] in H; [|discriminate].
  destruct (py_get method (PDict []) by2) as [response_schema|];
    cbn [obind] in H; [|discriminate].
  destruct (py_get "parameter_validation" (PDict []) endpoint_data) as [by3|];
    cbn [obind] in H; [|discriminate].
  destruct (py_get method (PDict []) by3) as [parameter_validation|];
    cbn [obind] in H; [|discriminate].
  destruct (_create_response_schema response_schema) as [schema|];
    cbn [obind] in H; [|discriminate].
  destruct (truthy method_params).
  - destruct method_params as [| | | | | |params]; try discriminate.
    destruct (create_parameters parameter_validation params []) as [ps|];
      cbn [obind] in H; [|discriminate].
    destruct (PyStr.mem method ["POST"; "PUT"; "PATCH"]);
      injection H as <-; eexists; (split; [reflexivity|]);
      repeat (split; [reflexivity|]); eexists; split; reflexivity.
  - cbn [obind] in H.
    destruct (PyStr.mem method ["POST"; "PUT"; "PATCH"]);
      injection H as <-; eexists; (split; [reflexivity|]);
      repeat (split; [reflexivity|]); eexists; split; reflexivity.
Qed.


End Engine.

(** * Examples *)

(** C2 (the code keeps duplicates in explicit-list mode).  With the
    caller's list [["/users"; "users"]] and both confirmation GETs
    answered 200, [discover_endpoints] returns ["/users"] twice. *)
Theorem explicit_list_keeps_duplicates :
  run (discover_endpoints (init "http://api.test/" (Some ["/users"; "users"]))
         sample_findall)
    [answer 200 None; answer 200 None]
  = ["/users"; "/users"].
Proof. vm_compute. reflexivity. Qed.

(** C7 (the code computes the rate against the catalog in explicit-list
    mode).  With the caller's list [["/users"]] confirmed by a 200, the
    document reports no pattern tested and a discovery rate of 100/87
    percent: one endpoint over the 87 patterns of the catalog. *)
Theorem explicit_list_rate_uses_catalog :
  match run (generate_analysis sample_repr
               (init "http://api.test/" (Some ["/users"])) sample_findall "now")
          [answer 200 None] with
  | Analysis md sm _ _ =>
      md_custom_endpoints md = true
      /\ total_patterns_tested md = O
      /\ total_endpoints sm = 1%nat
      /\ discovery_rate sm = (100 # 87)%Q
      /\ length default_endpoint_patterns = 87%nat
  | NoEndpoints _ _ => False
  end.
Proof. vm_compute. repeat split; reflexivity. Qed.

(** C1 (the claim as stated fails).  All four probes of [page] are
    answered 200, the probe of the error value "abc" included; "abc" is
    in neither bucket. *)
Lemma error_value_answered_200_is_dropped :
  accepted_values
    (pa_validation_info
       (run (_analyze_parameter_comprehensive sample_repr
               "http://api.test/users" "GET" "page" page_info)
          [answer 200 None; answer 200 None; answer 200 None; answer 200 None]))
  = ["1"; "2"; "10"]
  /\ rejected_values
    (pa_validation_info
       (run (_analyze_parameter_comprehensive sample_repr
               "http://api.test/users" "GET" "page" page_info)
          [answer 200 None; answer 200 None; answer 200 None; answer 200 None]))
  = [].
Proof. split; reflexivity. Qed.

(** The amended C1 on a service that accepts the default, rejects "2",
    fails on "10" and rejects the error value. *)
Lemma probes_fill_buckets_witness :
  accepted_values
    (pa_validation_info
       (run (_analyze_parameter_comprehensive sample_repr
               "http://api.test/users" "GET" "page" page_info)
          [answer 200 None; answer 400 None; answer 500 None; answer 400 None]))
  = ["1"]
  /\ rejected_values
    (pa_validation_info
       (run (_analyze_parameter_comprehensive sample_repr
               "http://api.test/users" "GET" "page" page_info)
          [answer 200 None; answer 400 None; answer 500 None; answer 400 None]))
  = ["2"; "abc"].
Proof.
  destruct (probes_fill_buckets sample_repr "http://api.test/users" "GET" "page"
              page_info
              [answer 200 None; answer 400 None; answer 500 None; answer 400 None])
    as (_ & _ & _ & Ha & Hr).
  rewrite Ha, Hr. split; reflexivity.
Defined.

(** C3 (the claim as stated fails).  For the body
    [{"user": {"id": 1}}] the engine records the field [user] as an
    object without properties, where the reference mapping describes its
    field [id]. *)
Lemma nested_object_is_not_described :
  json nested_response = Some nested_body
  /\ schema_of (_analyze_response_schema_comprehensive nested_response)
     = SObject [("user", SObject [])]
  /\ reference_schema nested_body
     = SObject [("user", SObject [("id", SScalar "integer")])].
Proof. repeat split; reflexivity. Qed.

(** The amended C3 on a flat object. *)
Lemma schema_inference_one_level_witness :
  schema_of
    (_analyze_response_schema_comprehensive
       {| status_code := 200; text := "";
          json := Some (PDict [("id", PInt 7); ("name", PStr "Ann")]) |})
  = reference_schema (PDict [("id", PInt 7); ("name", PStr "Ann")]).
Proof.
  apply (proj1 (schema_inference_one_level
                  {| status_code := 200; text := "";
                     json := Some (PDict [("id", PInt 7); ("name", PStr "Ann")]) |})
           [("id", PInt 7); ("name", PStr "Ann")]).
  - reflexivity.
  - repeat constructor; simpl; intuition discriminate.
  - reflexivity.
Defined.

(** C4 on a service that rejects every probe of [page]. *)
Lemma required_iff_only_rejected_witness :
  required
    (pa_validation_info
       (run (_analyze_parameter_comprehensive sample_repr
               "http://api.test/users" "GET" "page" page_info)
          [answer 400 None; answer 400 None; answer 400 None; answer 400 None]))
  = true.
Proof.
  apply (proj1 (required_iff_only_rejected sample_repr "http://api.test/users"
                  "GET" "page" page_info
                  [answer 400 None; answer 400 None; answer 400 None; answer 400 None])).
  split; [discriminate|reflexivity].
Defined.



(** C6 (the claim as stated fails).  [/auth/search] contains "search"
    and is classified create-only, not read-only; [/users/] has nothing
    after its last slash and is classified all-false, read included. *)
Lemma auth_search_is_not_read_only :
  PyStr.contains "search" (PyStr.lower "/auth/search") = true
  /\ _identify_crud_operations "/auth/search" = create_only
  /\ crud_read (_identify_crud_operations "/users/") = false.
Proof. repeat split; reflexivity. Qed.

(** The amended C6 on a versioned path. *)
Lemma crud_classification_witness :
  _identify_crud_operations "/api/v1/users"
  = {| crud_create := false; crud_read := true;
       crud_update := true; crud_delete := true |}.
Proof.
  rewrite (proj1 (crud_classification sample_repr
                    (init "http://api.test" None) "/api/v1/users")).
  reflexivity.
Defined.

(** C8 (the claim as stated fails).  For a 200 response whose body is an
    HTML page the inferred schema is [{type: str}], not
    [{type: unknown}]. *)
Lemma html_page_is_not_unknown :
  status_code html_page = 200
  /\ json html_page = None
  /\ _analyze_response_schema_comprehensive html_page = PDict [("type", PStr "str")]
  /\ _analyze_response_schema_comprehensive html_page <> unknown_schema.
Proof. repeat split; try reflexivity. discriminate. Qed.

(** The amended C8 on the HTML page. *)
Lemma unparseable_body_schema_witness :
  _analyze_response_schema_comprehensive html_page = PDict [("type", PStr "str")].
Proof. apply unparseable_body_schema. reflexivity. Defined.

(** C9 on a service with one endpoint and the catalog entry [page]: the
    document has one operation with one parameter, not required. *)

Lemma emitted_parameters_not_required_witness :
  exists spec,
    generate_swagger_spec sample_repr
      (dump_analysis sample_format
         (run (generate_analysis sample_repr page_generator sample_findall "now")
            page_script)) = Some spec
    /\ List.Forall
         (fun operation => List.Forall not_required (operation_parameters operation))
         (spec_operations spec)
    /\ length (flat_map operation_parameters (spec_operations spec)) = 1%nat.
Proof.
  destruct (emitted_parameters_not_required sample_repr page_generator sample_findall
              sample_format "now" page_script) as (spec & Hs & Hall).
  exists spec. split; [exact Hs|]. split; [exact Hall|].
  vm_compute in Hs. injection Hs as <-. reflexivity.
Defined.



(** * The callers, and further examples *)

(** X24.  An endpoints file with nothing but blank lines gives the
    generator an empty list, and a form without a usable line gives the
    command no [-e] option.  With the empty list the generator discovers
    as it does without a list, from the catalog, while the metadata of
    the document still say that custom endpoints were given. *)
Theorem empty_list_falls_back :
  (forall lines,
     List.Forall (fun line => PyStr.strip line = "") lines ->
     main_custom_endpoints None (Some (Some lines)) = Some (Some []))
  /\ (forall executable url text,
        form_endpoints text = [] ->
        generate_command executable url text
        = [executable; "universal_api_generator.py"; url; "--swagger"])
  /\ (forall url re_findall w,
        discover_endpoints (init url (Some [])) re_findall w
        = discover_endpoints (init url None) re_findall w)
  /\ (forall py_repr url re_findall now script,
        match run (generate_analysis py_repr (init url (Some [])) re_findall now)
                script with
        | Analysis md sm endpoints variations =>
            md_custom_endpoints md = true
            /\ total_patterns_tested md = length default_endpoint_patterns
        | NoEndpoints message address =>
            run (discover_endpoints (init url None) re_findall) script = []
        end).
Proof.
  split; [|split; [|split]].
  - intros lines H. unfold main_custom_endpoints, load_endpoints. do 2 f_equal.
    induction H as [|line lines Hl _ IH]; [reflexivity|].
    cbn [List.filter]. rewrite Hl. exact IH.
  - intros executable url text H. unfold generate_command. rewrite H. reflexivity.
  - reflexivity.
  - intros py_repr url re_findall now script.
    unfold run, generate_analysis, bind.
    change (discover_endpoints (init url (Some [])) re_findall)
      with (discover_endpoints (init url None) re_findall).
    destruct (discover_endpoints (init url None) re_findall
                {| pending := script; sent := [] |}) as [[|e found] w1];
      cbn [nonempty negb ret fst]; [reflexivity|].
    destruct (for_each _ _ _ _) as [analyses w2]. cbn [ret]. split; reflexivity.
Qed.

(** X6 on a list of two endpoints, the first without its slash and with
    blanks around it, the second refused by the service. *)
Lemma explicit_paths_normalised_witness :
  (length (run (discover_endpoints
                  (init "http://api.test/" (Some [" users "; "/posts"]))
                  sample_findall)
             [answer 200 None; answer 404 None]) <= 2)%nat
  /\ run (discover_endpoints
            (init "http://api.test/" (Some [" users "; "/posts"])) sample_findall)
       [answer 200 None; answer 404 None]
     = ["/users"].
Proof.
  split; [|vm_compute; reflexivity].
  apply (proj2 (explicit_paths_normalised
                  (init "http://api.test/" (Some [" users "; "/posts"]))
                  sample_findall " users " ["/posts"]
                  [answer 200 None; answer 404 None] eq_refl)).
Defined.

(** X10 on a service that answers 404, then fails, then answers 500, and
    is unreachable from then on. *)
Lemma nothing_confirmed_witness :
  run (generate_analysis sample_repr (init "http://api.test" None)
         sample_findall "now")
    [answer 404 None; Raise "timeout"; answer 500 None]
  = NoEndpoints "No endpoints discovered" "http://api.test".
Proof.
  apply (proj1 (proj2 (nothing_confirmed sample_repr (init "http://api.test" None)
                         sample_findall sample_format "now"
                         [answer 404 None; Raise "timeout"; answer 500 None]
                         ltac:(repeat constructor)))).
Defined.

(** X11 on the default catalog and a service that confirms its first
    pattern only and then serves, at the first location asked, an
    OpenAPI document with one path. *)
Lemma catalog_discovery_witness :
  In "/users"
    (fst (discover_endpoints (init "http://api.test" None) sample_findall
            {| pending :=
                 answer 200 None
                 :: List.repeat (answer 404 None)
                      (length default_endpoint_patterns - 1)
                 ++ [answer 200 (Some (PDict [("paths", PDict [("/pets", PDict [])])]))];
               sent := [] |}))
  /\ In "/pets"
       (fst (discover_endpoints (init "http://api.test" None) sample_findall
               {| pending :=
                    answer 200 None
                    :: List.repeat (answer 404 None)
                         (length default_endpoint_patterns - 1)
                    ++ [answer 200
                          (Some (PDict [("paths", PDict [("/pets", PDict [])])]))];
                  sent := [] |}))
  /\ List.NoDup
       (fst (discover_endpoints (init "http://api.test" None) sample_findall
               {| pending :=
                    answer 200 None
                    :: List.repeat (answer 404 None)
                         (length default_endpoint_patterns - 1)
                    ++ [answer 200
                          (Some (PDict [("paths", PDict [("/pets", PDict [])])]))];
                  sent := [] |})).
Proof.
  destruct (catalog_discovery (init "http://api.test" None) sample_findall
              {| pending :=
                   answer 200 None
                   :: List.repeat (answer 404 None)
                        (length default_endpoint_patterns - 1)
                   ++ [answer 200
                         (Some (PDict [("paths", PDict [("/pets", PDict [])])]))];
                 sent := [] |} eq_refl)
    as (Hnodup & n & Hn & _ & Hstop & _ & Hmembers).
  assert (n = 1%nat) as ->.
  { destruct n as [|[|n]]; [destruct Hn as [Hn _]; inversion Hn|reflexivity|].
    pose proof (Hstop O (proj1 (Nat.succ_lt_mono 0 (S n)) (Nat.lt_0_succ n))) as H.
    vm_compute in H. discriminate H. }
  split; [|split; [|exact Hnodup]].
  - apply (proj2 (Hmembers "/users")). left. exists O. split; reflexivity.
  - apply (proj2 (Hmembers "/pets")). right. left. exists ["/pets"].
    split; [vm_compute; reflexivity|left; reflexivity].
Defined.

(** X20 on two endpoints under one first segment and one entry whose
    analysis failed. *)
Lemma paths_and_tags_witness :
  exists names,
    [tag_object "users"] = map tag_object names
    /\ List.NoDup names
    /\ (forall n, In n names <->
          exists e data,
            In (e, data)
              [("/users", PDict [("status", PStr "success")]);
               ("/users/1", PDict [("status", PStr "success")]);
               ("/broken", PDict [("status", PStr "error")])]
            /\ succeeded data = true /\ n = tag_of e)
    /\ (forall k, In k (dict_keys [("/users", PDict []); ("/users/1", PDict [])]) <->
          exists data,
            In (k, data)
              [("/users", PDict [("status", PStr "success")]);
               ("/users/1", PDict [("status", PStr "success")]);
               ("/broken", PDict [("status", PStr "error")])]
            /\ succeeded data = true).
Proof.
  apply (paths_and_tags sample_repr
           [("/users", PDict [("status", PStr "success")]);
            ("/users/1", PDict [("status", PStr "success")]);
            ("/broken", PDict [("status", PStr "error")])]
           [("/users", PDict []); ("/users/1", PDict [])]
           [tag_object "users"]).
  reflexivity.
Defined.

(** X25 on a timestamp. *)
Lemma date_recognisers_witness :
  _infer_type_comprehensive (PStr "2024-01-31T10:00:00") = "date"
  /\ _infer_parameter_type ["2024-01-31T10:00:00"] = "string".
Proof.
  destruct (date_recognisers "2"%char "0"%char "2"%char "4"%char
              "0"%char "1"%char "3"%char "1"%char "T10:00:00" eq_refl)
    as (H1 & H2 & H3).
  split; [exact H1|]. destruct H3 as [H3|H3]; [|exact H3].
  apply H2 in H3. destruct H3; discriminate.
Defined.

(** X26 on a POST operation of an endpoint without analysis. *)
Lemma operation_fields_witness :
  exists d,
    _create_operation sample_repr "/users/42" "POST" (PDict []) = Some (PDict d)
    /\ dict_get "operationId" d = Some (PStr "post_users_42")
    /\ dict_get "requestBody" d = Some (request_body "POST" "/users/42").
Proof.
  destruct (_create_operation sample_repr "/users/42" "POST" (PDict []))
    as [operation|] eqn:E; [|vm_compute in E; discriminate].
  destruct (operation_fields sample_repr "/users/42" "POST" (PDict []) operation E)
    as (d & -> & Hid & _ & Hbody & _).
  exists d. split; [reflexivity|]. split; [exact Hid|exact Hbody].
Defined.
